(** * FRPadelLeague: the ladder core (score validator, eligibility,
      challenge life cycle, ranking update) and what the tabs show of it

    Shallow embedding of
    - [isValidSetScore], [validateSetScores], [handleSubmitScore] and the
      lists and flags a render of the Challenges tab computes
      (components/Challenges.tsx),
    - the operations and selectors of [LeagueProvider]
      (contexts/LeagueContext.tsx): [createTeam], [requestToJoin],
      [respondToJoinRequest], [canChallenge], [createChallenge],
      [respondToChallenge], [submitScore], [validateScore],
      [updateSettings], the fetch functions, [getAvailableTeams],
      [getTeamJoinRequests], [getTeamChallenges], [getTeamById],
    - the lists and two handlers of the Notifications tab
      (components/NotificationsTab.tsx) and the count on its badge
      (pages/Index.tsx), and
    - the league table (components/LeagueTable.tsx),
    over an explicit model of the Supabase store and of the React state the
    context keeps.

    Modelling choices, each stated again where it is made:
    - the store is a record of tables (lists of rows); a call to it is
      carried out in full or refused, as a list of replies says, so that the
      code's error branches are all there and can be run;
    - the client state (the lists the context keeps with [useState]) is
      separate from the store and changes only when a fetch writes it;
    - a JavaScript number is an integer or [NaN]; positions and the other
      INTEGER columns are integers;
    - the restriction date is the instant [new Date(...)] makes of it. *)

From Stdlib Require Import ZArith List String Ascii Bool Lia Permutation FinFun.
From Stdlib Require Import Sorted.
From Stdlib Require Import DecimalString.
Import ListNotations.

Local Open Scope string_scope.
Local Open Scope list_scope.
Local Open Scope Z_scope.

(* ================================================================== *)
(** * Part I.  Definitions                                             *)
(* ================================================================== *)

(** ** JavaScript numbers as the code meets them

    Every number of the score dialog is the result of [parseInt]: an
    integer, or [NaN] for an empty or non-numeric field.  [None] is [NaN]. *)

Definition number := option Z.

Definition isNaN (n : number) : bool :=
  match n with None => true | Some _ => false end.

(** [a > b], [a < b] and [a >= b] on numbers: false as soon as one side is
    [NaN]. *)
Definition num_gt (a b : number) : bool :=
  match a, b with Some x, Some y => x >? y | _, _ => false end.

Definition num_lt (a b : number) : bool :=
  match a, b with Some x, Some y => x <? y | _, _ => false end.

Definition num_ge (a b : number) : bool :=
  match a, b with Some x, Some y => x >=? y | _, _ => false end.

Definition num_le (a b : number) : bool :=
  match a, b with Some x, Some y => x <=? y | _, _ => false end.

(** [a === k] for an integer literal [k]. *)
Definition num_is (a : number) (k : Z) : bool :=
  match a with Some x => x =? k | None => false end.

(** Template-literal rendering [`${n}`] of an integer of fewer than 22
    digits; from 10^21 on JavaScript prints an exponent.  Only the text of
    an error message is made with it. *)
Definition show_number (n : number) : string :=
  match n with
  | Some z => NilZero.string_of_int (Z.to_int z)
  | None => "NaN"
  end.

(** ** Score validator (Challenges.tsx) *)

Definition isValidSetScore (winnerGames loserGames : number) : bool :=
  if num_is winnerGames 6 then
    num_ge loserGames (Some 0) && num_le loserGames (Some 4)
  else if num_is winnerGames 7 then
    num_is loserGames 5 || num_is loserGames 6
  else false.

(** The object [{ valid, error? }]. *)
Record SetValidation := mkSetValidation {
  valid : bool;
  error : option string
}.

Definition validateSetScores (challengerScore challengedScore : number)
  : SetValidation :=
  if isNaN challengerScore && isNaN challengedScore then
    mkSetValidation true None
  else if isNaN challengerScore || isNaN challengedScore then
    mkSetValidation false (Some "Both scores must be entered for a set")
  else if num_lt challengerScore (Some 0) || num_lt challengedScore (Some 0) then
    mkSetValidation false (Some "Scores cannot be negative")
  else if num_gt challengerScore challengedScore then
    if negb (isValidSetScore challengerScore challengedScore) then
      mkSetValidation false
        (Some ("Invalid score: " ++ show_number challengerScore ++ "-"
               ++ show_number challengedScore
               ++ ". Valid: 6-0 to 6-4, 7-5, 7-6")%string)
    else mkSetValidation true None
  else if num_gt challengedScore challengerScore then
    if negb (isValidSetScore challengedScore challengerScore) then
      mkSetValidation false
        (Some ("Invalid score: " ++ show_number challengerScore ++ "-"
               ++ show_number challengedScore
               ++ ". Valid: 0-6 to 4-6, 5-7, 6-7")%string)
    else mkSetValidation true None
  else
    mkSetValidation false (Some "Sets cannot end in a tie").

(** The six parsed fields of the score dialog ([c]: challenger,
    [d]: challenged). *)
Record ParsedScores := mkParsedScores {
  set1c : number; set1d : number;
  set2c : number; set2d : number;
  set3c : number; set3d : number
}.

(** What [handleSubmitScore] decides before it touches the store: it returns
    at once, shows a destructive toast and returns, or goes on to call
    [submitScore] with the two arrays. *)
Inductive SubmitDecision :=
| Ignored
| RejectedToast (title : string) (description : option string)
| CallSubmitScore (challengeId : string)
                  (challengerSets challengedSets : list number)
                  (submittedByTeamId : string).

Definition b2z (b : bool) : Z := if b then 1 else 0.

(** A [string | null | undefined] seen through a truthiness test or [||]:
    the empty string is falsy like [null]. *)
Definition truthy (s : option string) : option string :=
  match s with
  | Some "" => None
  | other => other
  end.

Definition handleSubmitScore_decide
    (selectedChallenge userTeamId : option string) (s : ParsedScores)
  : SubmitDecision :=
  match truthy selectedChallenge, truthy userTeamId with
  | Some challengeId, Some teamId =>
    let set1Validation := validateSetScores (set1c s) (set1d s) in
    if negb (valid set1Validation) then
      RejectedToast "Invalid Set 1 Score" (error set1Validation)
    else
    let set2Validation := validateSetScores (set2c s) (set2d s) in
    if negb (valid set2Validation) then
      RejectedToast "Invalid Set 2 Score" (error set2Validation)
    else
    let set3Validation := validateSetScores (set3c s) (set3d s) in
    if negb (valid set3Validation) then
      RejectedToast "Invalid Set 3 Score" (error set3Validation)
    else
    (* count sets won by each team *)
    let challengerSetsWon := 0 in
    let challengedSetsWon := 0 in
    let '(challengerSetsWon, challengedSetsWon) :=
      if num_gt (set1c s) (set1d s)
      then (challengerSetsWon + 1, challengedSetsWon)
      else (challengerSetsWon, challengedSetsWon + 1) in
    let '(challengerSetsWon, challengedSetsWon) :=
      if num_gt (set2c s) (set2d s)
      then (challengerSetsWon + 1, challengedSetsWon)
      else (challengerSetsWon, challengedSetsWon + 1) in
    let hasThirdSet := negb (isNaN (set3c s)) && negb (isNaN (set3d s)) in
    let '(challengerSetsWon, challengedSetsWon) :=
      if hasThirdSet then
        if num_gt (set3c s) (set3d s)
        then (challengerSetsWon + 1, challengedSetsWon)
        else (challengerSetsWon, challengedSetsWon + 1)
      else (challengerSetsWon, challengedSetsWon) in
    if challengerSetsWon =? challengedSetsWon then
      RejectedToast "Invalid Match Result"
        (Some "Match must have a winner. Enter 3rd set if needed.")
    else
    let firstTwoSetsWinner :=
      b2z (num_gt (set1c s) (set1d s)) + b2z (num_gt (set2c s) (set2d s)) in
    let firstTwoSetsLosses :=
      b2z (num_lt (set1c s) (set1d s)) + b2z (num_lt (set2c s) (set2d s)) in
    if ((challengerSetsWon =? 2) || (challengedSetsWon =? 2)) && hasThirdSet
       && ((firstTwoSetsWinner =? 2) || (firstTwoSetsLosses =? 2)) then
      RejectedToast "Invalid Match"
        (Some "No 3rd set needed if one team already won 2 sets.")
    else
    if (challengerSetsWon =? 1) && (challengedSetsWon =? 1)
       && negb hasThirdSet then
      RejectedToast "Match Incomplete"
        (Some "Sets are 1-1, please enter 3rd set score.")
    else
    let challengerSets := [set1c s; set2c s] in
    let challengedSets := [set1d s; set2d s] in
    let '(challengerSets, challengedSets) :=
      if hasThirdSet
      then (challengerSets ++ [set3c s], challengedSets ++ [set3d s])
      else (challengerSets, challengedSets) in
    CallSubmitScore challengeId challengerSets challengedSets teamId
  | _, _ => Ignored
  end.

(** ** Data model (types/league.ts and the tables behind it)

    Rows carry the columns the core reads or writes; each record lives in a
    module of its own so that fields keep their source names. *)

Inductive League := mens | womens.

Definition League_eqb (a b : League) : bool :=
  match a, b with
  | mens, mens | womens, womens => true
  | _, _ => false
  end.

Inductive Status := pending | accepted | declined | completed.

Definition Status_eqb (a b : Status) : bool :=
  match a, b with
  | pending, pending | accepted, accepted
  | declined, declined | completed, completed => true
  | _, _ => false
  end.

(** An [INTEGER[]] column as it comes back from the store: a [NaN] sent by
    the client is serialised as [null], so a cell is an integer or [null]
    ([None]). *)
Definition cell := option Z.

(** Table [teams]. *)
Module TeamsRow.
Record t := mk {
  id : string;
  name : string;
  creator_id : string;
  league : League;
  position : Z;
  previous_position : option Z
}.
Definition with_position (p : Z) (r : t) : t :=
  mk (id r) (name r) (creator_id r) (league r) p (previous_position r).
Definition with_positions (prev p : Z) (r : t) : t :=
  mk (id r) (name r) (creator_id r) (league r) p (Some prev).
End TeamsRow.

(** Table [challenges]; rows are kept newest first, the order
    [fetchChallenges] asks for. *)
Module ChallengesRow.
Record t := mk {
  id : string;
  challenger_team_id : string;
  challenged_team_id : string;
  status : Status;
  challenger_sets : option (list cell);
  challenged_sets : option (list cell);
  score_submitted_by : option string;
  score_validated : bool;
  winner_id : option string
}.
End ChallengesRow.

(** Table [profiles]: the two columns team membership is made of. *)
Module ProfilesRow.
Record t := mk {
  id : string;
  team_id : option string
}.
End ProfilesRow.

(** The status of a join request. *)
Module Request.
Inductive status := pending | accepted | declined.
End Request.

(** Table [join_requests]; rows are kept newest first. *)
Module JoinRequestsRow.
Record t := mk {
  id : string;
  user_id : string;
  team_id : string;
  status : Request.status
}.
End JoinRequestsRow.

(** Table [league_settings] (one row).  The [DATE NOT NULL] column is held
    as the instant [new Date(...)] makes of it, in milliseconds. *)
Module SettingsRow.
Record t := mk {
  challenge_restriction_date : Z;
  max_position_difference : Z
}.
End SettingsRow.

(** [interface Team]. *)
Module Team.
Record t := mk {
  id : string;
  name : string;
  creatorId : string;
  memberIds : list string;
  league : League;
  position : Z;
  previousPosition : Z
}.
End Team.

(** [Challenge.score]. *)
Record Score := mkScore {
  challengerSets : list cell;
  challengedSets : list cell
}.

(** [interface Challenge]. *)
Module Challenge.
Record t := mk {
  id : string;
  challengerTeamId : string;
  challengedTeamId : string;
  status : Status;
  score : option Score;
  scoreSubmittedBy : option string;
  scoreValidated : bool;
  winnerId : option string
}.
End Challenge.

(** [interface JoinRequest]. *)
Module JoinRequest.
Record t := mk {
  id : string;
  userId : string;
  teamId : string;
  status : Request.status
}.
End JoinRequest.

(** [interface LeagueSettings]. *)
Module LeagueSettings.
Record t := mk {
  challengeRestrictionDate : Z;
  maxPositionDifference : Z
}.
End LeagueSettings.

(** [Partial<LeagueSettings>]: [None] for a key that is left out. *)
Module PartialLeagueSettings.
Record t := mk {
  challengeRestrictionDate : option Z;
  maxPositionDifference : option Z
}.
End PartialLeagueSettings.

(** The store: the tables the context reads and writes. *)
Record Db := mkDb {
  teams_table : list TeamsRow.t;
  challenges_table : list ChallengesRow.t;
  profiles_table : list ProfilesRow.t;
  join_requests_table : list JoinRequestsRow.t;
  league_settings_table : option SettingsRow.t
}.

(** The React state of [LeagueProvider] that the operations read ([users]
    is only shown, and [loading] only drives a spinner). *)
Record Client := mkClient {
  teams : list Team.t;
  joinRequests : list JoinRequest.t;
  challenges : list Challenge.t;
  settings : option LeagueSettings.t
}.

Record World := mkWorld {
  db : Db;
  ui : Client
}.

Definition with_teams_table (f : list TeamsRow.t -> list TeamsRow.t) (w : World) :=
  mkWorld (mkDb (f (teams_table (db w))) (challenges_table (db w))
                (profiles_table (db w)) (join_requests_table (db w))
                (league_settings_table (db w)))
          (ui w).

Definition with_challenges_table
    (f : list ChallengesRow.t -> list ChallengesRow.t) (w : World) :=
  mkWorld (mkDb (teams_table (db w)) (f (challenges_table (db w)))
                (profiles_table (db w)) (join_requests_table (db w))
                (league_settings_table (db w)))
          (ui w).

Definition with_profiles_table
    (f : list ProfilesRow.t -> list ProfilesRow.t) (w : World) :=
  mkWorld (mkDb (teams_table (db w)) (challenges_table (db w))
                (f (profiles_table (db w))) (join_requests_table (db w))
                (league_settings_table (db w)))
          (ui w).

Definition with_join_requests_table
    (f : list JoinRequestsRow.t -> list JoinRequestsRow.t) (w : World) :=
  mkWorld (mkDb (teams_table (db w)) (challenges_table (db w))
                (profiles_table (db w)) (f (join_requests_table (db w)))
                (league_settings_table (db w)))
          (ui w).

Definition with_league_settings_table
    (f : option SettingsRow.t -> option SettingsRow.t) (w : World) :=
  mkWorld (mkDb (teams_table (db w)) (challenges_table (db w))
                (profiles_table (db w)) (join_requests_table (db w))
                (f (league_settings_table (db w))))
          (ui w).

Definition setTeams (l : list Team.t) (w : World) :=
  mkWorld (db w)
          (mkClient l (joinRequests (ui w)) (challenges (ui w))
                    (settings (ui w))).

Definition setJoinRequests (l : list JoinRequest.t) (w : World) :=
  mkWorld (db w)
          (mkClient (teams (ui w)) l (challenges (ui w)) (settings (ui w))).

Definition setChallenges (l : list Challenge.t) (w : World) :=
  mkWorld (db w)
          (mkClient (teams (ui w)) (joinRequests (ui w)) l (settings (ui w))).

Definition setSettings (s : LeagueSettings.t) (w : World) :=
  mkWorld (db w)
          (mkClient (teams (ui w)) (joinRequests (ui w)) (challenges (ui w))
                    (Some s)).

(** ** Asynchronous operations

    A store call is either carried out or refused with an [error.message];
    which of the two is the store's business, so a run is driven by the
    list of the replies still to come ([None]: carried out), and a call
    past the end of the list is carried out.  An operation is a function of
    the world and of these replies; it resolves with a value or throws. *)

Definition Reply := option string.

Inductive outcome (A : Type) :=
| Resolved (a : A)
| Threw (message : string).
Arguments Resolved {A} a.
Arguments Threw {A} message.

Definition Async (A : Type) : Type :=
  World * list Reply -> outcome A * (World * list Reply).

Definition ret {A} (a : A) : Async A := fun s => (Resolved a, s).

Definition bind {A B} (m : Async A) (k : A -> Async B) : Async B :=
  fun s =>
    match m s with
    | (Resolved a, s') => k a s'
    | (Threw e, s') => (Threw e, s')
    end.

Definition throw {A} (message : string) : Async A := fun s => (Threw message, s).

Notation "x <- m ;; k" := (bind m (fun x => k))
  (at level 61, m at next level, right associativity).
Notation "m ;;; k" := (bind m (fun _ => k))
  (at level 61, right associativity).

Definition world : Async World := fun s => (Resolved (fst s), s).

Definition modify (f : World -> World) : Async unit :=
  fun s => (Resolved tt, (f (fst s), snd s)).

(** One round trip to the store: [Some message] when it is refused. *)
Definition store_call : Async (option string) :=
  fun s =>
    match snd s with
    | [] => (Resolved None, s)
    | r :: rest => (Resolved r, (fst s, rest))
    end.

(** [for (const x of xs) { await body x }]. *)
Fixpoint for_of {A} (xs : list A) (body : A -> Async unit) : Async unit :=
  match xs with
  | [] => ret tt
  | x :: rest => body x ;;; for_of rest body
  end.

(** [a || b] on strings: the first when it is non-empty. *)
Definition or_else (a : option string) (b : string) : string :=
  match truthy a with Some s => s | None => b end.

(** ** The store's query builders, as far as the core uses them *)

(** A read: refused, or the result of [read] on the tables. *)
Definition query {A} (read : Db -> A) : Async (string + A) :=
  e <- store_call ;;
  match e with
  | Some message => ret (inl message)
  | None => w <- world ;; ret (inr (read (db w)))
  end.

(** A write: refused (nothing changes), or carried out in full. *)
Definition mutate (f : World -> World) : Async (option string) :=
  e <- store_call ;;
  match e with
  | Some message => ret (Some message)
  | None => modify f ;;; ret None
  end.

(** [.update(payload).eq('id', key)] on a table whose rows have an [id]. *)
Definition update_eq {R} (id_of : R -> string) (key : string)
    (payload : R -> R) (rows : list R) : list R :=
  map (fun r => if (id_of r =? key)%string then payload r else r) rows.

(** [.order(column)]: a stable insertion sort. *)
Fixpoint insert_by {A} (le : A -> A -> bool) (x : A) (l : list A) : list A :=
  match l with
  | [] => [x]
  | y :: rest => if le x y then x :: l else y :: insert_by le x rest
  end.

Definition order_by {A} (le : A -> A -> bool) (l : list A) : list A :=
  fold_right (insert_by le) [] l.

Definition position_ascending (a b : TeamsRow.t) : bool :=
  TeamsRow.position a <=? TeamsRow.position b.

Definition position_descending (a b : TeamsRow.t) : bool :=
  TeamsRow.position b <=? TeamsRow.position a.

Definition option_string_eqb (a : option string) (b : string) : bool :=
  match a with Some s => (s =? b)%string | None => false end.

(** [a ?? b]. *)
Definition nullish {A} (a : option A) (b : A) : A :=
  match a with Some x => x | None => b end.

(** ** Fetching (LeagueContext.tsx) *)

(** The select of [fetchTeams]: every team with the profiles that point to
    it, by ascending position. *)
Definition select_teams_with_profiles (d : Db)
  : list (TeamsRow.t * list ProfilesRow.t) :=
  map (fun team =>
         (team,
          filter (fun p => option_string_eqb (ProfilesRow.team_id p)
                                             (TeamsRow.id team))
                 (profiles_table d)))
      (order_by position_ascending (teams_table d)).

Definition to_Team (tm : TeamsRow.t * list ProfilesRow.t) : Team.t :=
  let team := fst tm in
  let members := snd tm in
  Team.mk (TeamsRow.id team) (TeamsRow.name team)
          (TeamsRow.creator_id team)
          (map ProfilesRow.id members)
          (TeamsRow.league team)
          (TeamsRow.position team)
          (nullish (TeamsRow.previous_position team) (TeamsRow.position team)).

Definition fetchTeams : Async unit :=
  r <- query select_teams_with_profiles ;;
  match r with
  | inl _ => ret tt
  | inr data =>
    let teamsWithMembers := map to_Team data in
    modify (setTeams teamsWithMembers)
  end.

Definition to_JoinRequest (req : JoinRequestsRow.t) : JoinRequest.t :=
  JoinRequest.mk (JoinRequestsRow.id req) (JoinRequestsRow.user_id req)
                 (JoinRequestsRow.team_id req) (JoinRequestsRow.status req).

Definition fetchJoinRequests : Async unit :=
  r <- query join_requests_table ;;
  match r with
  | inl _ => ret tt
  | inr data =>
    let requests := map to_JoinRequest data in
    modify (setJoinRequests requests)
  end.

Definition to_Challenge (ch : ChallengesRow.t) : Challenge.t :=
  Challenge.mk (ChallengesRow.id ch)
    (ChallengesRow.challenger_team_id ch)
    (ChallengesRow.challenged_team_id ch)
    (ChallengesRow.status ch)
    (match ChallengesRow.challenger_sets ch,
           ChallengesRow.challenged_sets ch with
     | Some cs, Some ds => Some (mkScore cs ds)
     | _, _ => None
     end)
    (truthy (ChallengesRow.score_submitted_by ch))
    (ChallengesRow.score_validated ch)
    (truthy (ChallengesRow.winner_id ch)).

Definition fetchChallenges : Async unit :=
  r <- query challenges_table ;;
  match r with
  | inl _ => ret tt
  | inr data =>
    let challengesList := map to_Challenge data in
    modify (setChallenges challengesList)
  end.

(** [.limit(1).single()] is an error on an empty table. *)
Definition fetchSettings : Async unit :=
  r <- query league_settings_table ;;
  match r with
  | inl _ => ret tt
  | inr None => ret tt
  | inr (Some data) =>
    modify (setSettings
              (LeagueSettings.mk (SettingsRow.challenge_restriction_date data)
                                 (SettingsRow.max_position_difference data)))
  end.

(** [Promise.all] of the four fetches; they write disjoint parts of the
    state, and are taken in the order they are listed. *)
Definition refreshData : Async unit :=
  fetchTeams ;;; fetchJoinRequests ;;; fetchChallenges ;;; fetchSettings.

(** ** Teams *)

(** [uuid] is the primary key the store generates for the new row. *)
Definition createTeam (uuid : string) (name creatorId : string)
    (league : League) : Async (option Team.t) :=
  w <- world ;;
  let leagueTeams :=
    filter (fun t => League_eqb (Team.league t) league) (teams (ui w)) in
  let nextPosition := Z.of_nat (List.length leagueTeams) + 1 in
  let data :=
    TeamsRow.mk uuid name creatorId league nextPosition (Some nextPosition) in
  error <- mutate (with_teams_table (fun rows => rows ++ [data])) ;;
  match error with
  | Some _ => ret None
  | None =>
    _ <- mutate (with_profiles_table
                   (update_eq ProfilesRow.id creatorId
                      (fun p => ProfilesRow.mk (ProfilesRow.id p)
                                               (Some (TeamsRow.id data))))) ;;
    let newTeam :=
      Team.mk (TeamsRow.id data) (TeamsRow.name data)
              (TeamsRow.creator_id data) [creatorId] (TeamsRow.league data)
              (TeamsRow.position data)
              (nullish (TeamsRow.previous_position data)
                       (TeamsRow.position data)) in
    refreshData ;;; ret (Some newTeam)
  end.

Definition getTeamById (w : World) (teamId : string) : option Team.t :=
  find (fun t => (Team.id t =? teamId)%string) (teams (ui w)).

(** ** Join requests *)

(** [uuid] is the primary key the store generates; the status column takes
    its default. *)
Definition requestToJoin (uuid : string) (userId teamId : string)
  : Async unit :=
  _ <- mutate (with_join_requests_table
                 (fun rows =>
                    JoinRequestsRow.mk uuid userId teamId Request.pending
                    :: rows)) ;;
  ret tt.

(** The select of [respondToJoinRequest]: the team with that id and the
    profiles that point to it. *)
Definition select_team_with_profiles (teamId : string) (d : Db)
  : list (TeamsRow.t * list ProfilesRow.t) :=
  map (fun team =>
         (team,
          filter (fun p => option_string_eqb (ProfilesRow.team_id p)
                                             (TeamsRow.id team))
                 (profiles_table d)))
      (filter (fun t => (TeamsRow.id t =? teamId)%string) (teams_table d)).

(** [.single()] is an error unless exactly one row comes back. *)
Definition respondToJoinRequest (requestId : string) (accept : bool)
  : Async unit :=
  w <- world ;;
  match find (fun r => (JoinRequest.id r =? requestId)%string)
             (joinRequests (ui w)) with
  | None => throw "Join request not found"
  | Some request =>
    (if accept then
       r <- query (select_team_with_profiles (JoinRequest.teamId request)) ;;
       match r with
       | inr [teamData] =>
         let currentMemberCount := List.length (snd teamData) in
         if (4 <=? currentMemberCount)%nat then
           throw "Team is full (4 players maximum)"
         else
           profileError <-
             mutate (with_profiles_table
                       (update_eq ProfilesRow.id (JoinRequest.userId request)
                          (fun p =>
                             ProfilesRow.mk (ProfilesRow.id p)
                               (Some (JoinRequest.teamId request))))) ;;
           match profileError with
           | Some _ => throw "Failed to add user to team"
           | None => ret tt
           end
       | _ => throw "Team not found"
       end
     else ret tt) ;;;
    _ <- mutate (with_join_requests_table
                   (update_eq JoinRequestsRow.id requestId
                      (fun r =>
                         JoinRequestsRow.mk (JoinRequestsRow.id r)
                           (JoinRequestsRow.user_id r)
                           (JoinRequestsRow.team_id r)
                           (if accept then Request.accepted
                            else Request.declined)))) ;;
    refreshData
  end.

(** ** Eligibility

    [settings] is the context's state and [now] the clock reading of
    [new Date()]. *)
Definition canChallenge (settings : option LeagueSettings.t) (now : Z)
    (challengerTeam challengedTeam : Team.t) : bool :=
  if negb (League_eqb (Team.league challengerTeam)
                      (Team.league challengedTeam)) then false
  else if (Team.id challengerTeam =? Team.id challengedTeam)%string then false
  else
    match settings with
    | None => false
    | Some settings =>
      let restrictionDate := LeagueSettings.challengeRestrictionDate settings in
      if now >=? restrictionDate then
        let positionDiff :=
          Team.position challengerTeam - Team.position challengedTeam in
        (positionDiff >? 0)
        && (positionDiff <=? LeagueSettings.maxPositionDifference settings)
      else
        Team.position challengerTeam >? Team.position challengedTeam
    end.

(** ** Challenges *)

Definition between (c : Challenge.t) (a b : string) : bool :=
  ((Challenge.challengerTeamId c =? a)%string
   && (Challenge.challengedTeamId c =? b)%string)
  || ((Challenge.challengerTeamId c =? b)%string
      && (Challenge.challengedTeamId c =? a)%string).

(** The status test of [createChallenge]: an active challenge. *)
Definition active (c : Challenge.t) : bool :=
  Status_eqb (Challenge.status c) pending
  || Status_eqb (Challenge.status c) accepted
  || (Status_eqb (Challenge.status c) completed
      && negb (Challenge.scoreValidated c)).

Definition duplicate_message : string :=
  "An active challenge already exists between these teams".

(** [uuid] is the primary key the store generates for the new row; the
    columns the insert leaves out take their defaults. *)
Definition createChallenge (uuid : string)
    (challengerTeamId challengedTeamId : string) : Async unit :=
  w <- world ;;
  let existingChallenge :=
    find (fun c => between c challengerTeamId challengedTeamId && active c)
         (challenges (ui w)) in
  match existingChallenge with
  | Some _ => throw duplicate_message
  | None =>
    error <- mutate (with_challenges_table
                       (fun rows =>
                          ChallengesRow.mk uuid challengerTeamId
                            challengedTeamId accepted None None None false None
                          :: rows)) ;;
    match error with
    | Some message => throw (or_else (Some message) "Failed to create challenge")
    | None => fetchChallenges
    end
  end.

Definition respondToChallenge (challengeId : string) (accept : bool)
  : Async unit :=
  _ <- mutate (with_challenges_table
                 (update_eq ChallengesRow.id challengeId
                    (fun r =>
                       ChallengesRow.mk (ChallengesRow.id r)
                         (ChallengesRow.challenger_team_id r)
                         (ChallengesRow.challenged_team_id r)
                         (if accept then accepted else declined)
                         (ChallengesRow.challenger_sets r)
                         (ChallengesRow.challenged_sets r)
                         (ChallengesRow.score_submitted_by r)
                         (ChallengesRow.score_validated r)
                         (ChallengesRow.winner_id r)))) ;;
  ret tt.

(** The payload of [submitScore]'s update: four columns. *)
Definition submit_payload (challengerSets challengedSets : list number)
    (submittedByTeamId : string) (r : ChallengesRow.t) : ChallengesRow.t :=
  ChallengesRow.mk (ChallengesRow.id r)
    (ChallengesRow.challenger_team_id r)
    (ChallengesRow.challenged_team_id r)
    completed
    (Some challengerSets)
    (Some challengedSets)
    (Some submittedByTeamId)
    (ChallengesRow.score_validated r)
    (ChallengesRow.winner_id r).

Definition submitScore (challengeId : string)
    (challengerSets challengedSets : list number)
    (submittedByTeamId : string) : Async unit :=
  error <- mutate (with_challenges_table
                     (update_eq ChallengesRow.id challengeId
                        (submit_payload challengerSets challengedSets
                                        submittedByTeamId))) ;;
  match error with
  | Some message => throw (or_else (Some message) "Failed to submit score")
  | None => fetchChallenges
  end.

(** [handleSubmitScore]: the decision above, then the call of [submitScore],
    which the handler does not await (a rejection is not caught). *)
Definition handleSubmitScore (selectedChallenge userTeamId : option string)
    (s : ParsedScores) : Async SubmitDecision :=
  let decision := handleSubmitScore_decide selectedChallenge userTeamId s in
  match decision with
  | CallSubmitScore challengeId cs ds teamId =>
    fun st => (Resolved decision, snd (submitScore challengeId cs ds teamId st))
  | _ => ret decision
  end.

(** The payload of the dispute: score and submitter cleared, status back to
    [accepted]. *)
Definition dispute_payload (r : ChallengesRow.t) : ChallengesRow.t :=
  ChallengesRow.mk (ChallengesRow.id r)
    (ChallengesRow.challenger_team_id r)
    (ChallengesRow.challenged_team_id r)
    accepted None None None
    (ChallengesRow.score_validated r)
    (ChallengesRow.winner_id r).

Definition winner_payload (winnerId : string) (r : ChallengesRow.t)
  : ChallengesRow.t :=
  ChallengesRow.mk (ChallengesRow.id r)
    (ChallengesRow.challenger_team_id r)
    (ChallengesRow.challenged_team_id r)
    (ChallengesRow.status r)
    (ChallengesRow.challenger_sets r)
    (ChallengesRow.challenged_sets r)
    (ChallengesRow.score_submitted_by r)
    true
    (Some winnerId).

(** A value read from a fetched array, as [>] sees it: [undefined] (index
    out of range) is [NaN], [null] is [0]. *)
Definition to_number (v : option cell) : number :=
  match v with
  | None => None
  | Some None => Some 0
  | Some (Some z) => Some z
  end.

(** [xs.filter((x, i) => p(x, i))]. *)
Fixpoint filter_indexed_from {A} (i : nat) (p : A -> nat -> bool)
    (l : list A) : list A :=
  match l with
  | [] => []
  | x :: rest =>
    if p x i then x :: filter_indexed_from (S i) p rest
    else filter_indexed_from (S i) p rest
  end.

Definition filter_indexed {A} (p : A -> nat -> bool) (l : list A) : list A :=
  filter_indexed_from 0 p l.

(** Sets in which [mine] has more games than [theirs]. *)
Definition sets_won (mine theirs : list cell) : nat :=
  List.length
    (filter_indexed
       (fun s i => num_gt (to_number (Some s)) (to_number (nth_error theirs i)))
       mine).

Definition computed_winner (challenge : Challenge.t) (score : Score) : string :=
  let challengerWins := sets_won (challengerSets score) (challengedSets score) in
  let challengedWins := sets_won (challengedSets score) (challengerSets score) in
  if (challengedWins <? challengerWins)%nat
  then Challenge.challengerTeamId challenge
  else Challenge.challengedTeamId challenge.

(** The temporary position of step 1. *)
Definition temp_position : Z := 99999.

(** The three steps of [validateScore] under
    [challengerTeam.position > challengedTeam.position]; every error is
    logged and the next step follows. *)
Definition updatePositions (challengerTeamId : string)
    (challengerTeam challengedTeam : TeamsRow.t) : Async unit :=
  let loserPosition := TeamsRow.position challengedTeam in
  let winnerOldPosition := TeamsRow.position challengerTeam in
  (* Step 1 *)
  _ <- mutate (with_teams_table
                 (update_eq TeamsRow.id challengerTeamId
                            (TeamsRow.with_position temp_position))) ;;
  (* Step 2 *)
  r <- query (fun d =>
         map (fun t => (TeamsRow.id t, TeamsRow.position t))
             (order_by position_descending
                (filter (fun t =>
                           League_eqb (TeamsRow.league t)
                                      (TeamsRow.league challengerTeam)
                           && (TeamsRow.position t >=? loserPosition)
                           && (TeamsRow.position t <? winnerOldPosition))
                        (teams_table d)))) ;;
  match r with
   | inl _ => ret tt
   | inr teamsToShift =>
     for_of teamsToShift
       (fun team =>
          _ <- mutate (with_teams_table
                         (update_eq TeamsRow.id (fst team)
                            (TeamsRow.with_positions (snd team)
                                                     (snd team + 1)))) ;;
          ret tt)
   end ;;;
  (* Step 3 *)
  _ <- mutate (with_teams_table
                 (update_eq TeamsRow.id challengerTeamId
                    (TeamsRow.with_positions winnerOldPosition
                                             loserPosition))) ;;
  ret tt.

Definition validateScore (challengeId : string) (valid : bool) : Async unit :=
  w <- world ;;
  match find (fun c => (Challenge.id c =? challengeId)%string)
             (challenges (ui w)) with
  | None => ret tt
  | Some challenge =>
    match Challenge.score challenge with
    | None => ret tt
    | Some score =>
      if negb valid then
        (* dispute *)
        _ <- mutate (with_challenges_table
                       (update_eq ChallengesRow.id challengeId
                                  dispute_payload)) ;;
        refreshData
      else
        let winnerId := computed_winner challenge score in
        _ <- mutate (with_challenges_table
                       (update_eq ChallengesRow.id challengeId
                                  (winner_payload winnerId))) ;;
        if (winnerId =? Challenge.challengerTeamId challenge)%string then
          r <- query (fun d =>
                 filter (fun t =>
                           existsb (String.eqb (TeamsRow.id t))
                             [Challenge.challengerTeamId challenge;
                              Challenge.challengedTeamId challenge])
                        (teams_table d)) ;;
          match r with
          | inl _ => refreshData
          | inr freshTeams =>
            if (List.length freshTeams <? 2)%nat then refreshData
            else
              let by_id key :=
                find (fun t => (TeamsRow.id t =? key)%string) freshTeams in
              match by_id (Challenge.challengerTeamId challenge),
                    by_id (Challenge.challengedTeamId challenge) with
               | Some challengerTeam, Some challengedTeam =>
                 if TeamsRow.position challengerTeam
                    >? TeamsRow.position challengedTeam
                 then updatePositions (Challenge.challengerTeamId challenge)
                                      challengerTeam challengedTeam
                 else ret tt
               | _, _ => ret tt
               end ;;;
              refreshData
          end
        else refreshData
    end
  end.

(** ** Settings *)

Definition updateSettings (newSettings : PartialLeagueSettings.t)
  : Async unit :=
  let date := PartialLeagueSettings.challengeRestrictionDate newSettings in
  let difference := PartialLeagueSettings.maxPositionDifference newSettings in
  error <- mutate (with_league_settings_table
                     (option_map
                        (fun row =>
                           SettingsRow.mk
                             (nullish date
                                (SettingsRow.challenge_restriction_date row))
                             (nullish difference
                                (SettingsRow.max_position_difference row))))) ;;
  w <- world ;;
  match error, settings (ui w) with
  | None, Some settings =>
    modify (setSettings
              (LeagueSettings.mk
                 (nullish date
                    (LeagueSettings.challengeRestrictionDate settings))
                 (nullish difference
                    (LeagueSettings.maxPositionDifference settings))))
  | _, _ => ret tt
  end.

(** ** Runs, the reference ranking function and the ladder invariant *)

(** The world and the result of a run in which the store carries out every
    call. *)
Definition run_ok {A} (m : Async A) (w : World) : World :=
  fst (snd (m (w, []))).

Definition result_ok {A} (m : Async A) (w : World) : outcome A :=
  fst (m (w, [])).

(** What a successful [refreshData] makes of the state. *)
Definition refreshed (w : World) : World :=
  mkWorld (db w)
    (mkClient (map to_Team (select_teams_with_profiles (db w)))
              (map to_JoinRequest (join_requests_table (db w)))
              (map to_Challenge (challenges_table (db w)))
              (match league_settings_table (db w) with
               | Some data =>
                 Some (LeagueSettings.mk
                         (SettingsRow.challenge_restriction_date data)
                         (SettingsRow.max_position_difference data))
               | None => settings (ui w)
               end)).

(** The ranking function of the specification (section 4.4), following its
    words: every team of the league with [loserPos <= position <
    winnerOldPos] moves down one rank and records its former position; the
    challenger takes [loserPos] and records [winnerOldPos]; nothing else
    changes. *)
Definition ranking_reference (challengerId : string) (league : League)
    (loserPos winnerOldPos : Z) (rows : list TeamsRow.t) : list TeamsRow.t :=
  map (fun t =>
         if (TeamsRow.id t =? challengerId)%string then
           TeamsRow.with_positions winnerOldPos loserPos t
         else if League_eqb (TeamsRow.league t) league
                 && (loserPos <=? TeamsRow.position t)
                 && (TeamsRow.position t <? winnerOldPos) then
           TeamsRow.with_positions (TeamsRow.position t)
                                   (TeamsRow.position t + 1) t
         else t)
      rows.

Definition team_row (rows : list TeamsRow.t) (teamId : string)
  : option TeamsRow.t :=
  find (fun t => (TeamsRow.id t =? teamId)%string) rows.

(** The positions after an accepted validation, as the specification has
    them: the reference function when the challenger is the computed winner
    and stands below the challenged team, no change otherwise. *)
Definition validated_positions (challenge : Challenge.t) (score : Score)
    (rows : list TeamsRow.t) : list TeamsRow.t :=
  if (computed_winner challenge score
      =? Challenge.challengerTeamId challenge)%string then
    match team_row rows (Challenge.challengerTeamId challenge),
          team_row rows (Challenge.challengedTeamId challenge) with
    | Some challengerTeam, Some challengedTeam =>
      let winnerOldPos := TeamsRow.position challengerTeam in
      let loserPos := TeamsRow.position challengedTeam in
      if winnerOldPos >? loserPos then
        ranking_reference (Challenge.challengerTeamId challenge)
                          (TeamsRow.league challengerTeam)
                          loserPos winnerOldPos rows
      else rows
    | _, _ => rows
    end
  else rows.

(** The positions of one league, in table order. *)
Definition league_positions (l : League) (rows : list TeamsRow.t) : list Z :=
  map TeamsRow.position
      (filter (fun t => League_eqb (TeamsRow.league t) l) rows).

(** [1; 2; ...; n]. *)
Definition one_to (n : nat) : list Z := map Z.of_nat (seq 1 n).

(** The positions of league [l] are a dense permutation of [1..N]. *)
Definition dense (l : League) (rows : list TeamsRow.t) : Prop :=
  Permutation (league_positions l rows)
              (one_to (List.length (league_positions l rows))).

(** The operations of the context that reach the store, and the fetches
    its subscriptions trigger. *)
Inductive Op :=
| CreateTeam (uuid name creatorId : string) (league : League)
| RequestToJoin (uuid userId teamId : string)
| RespondToJoinRequest (requestId : string) (accept : bool)
| CreateChallenge (uuid challengerTeamId challengedTeamId : string)
| RespondToChallenge (challengeId : string) (accept : bool)
| SubmitScore (challengeId : string)
              (challengerSets challengedSets : list number)
              (submittedByTeamId : string)
| ValidateScore (challengeId : string) (valid : bool)
| UpdateSettings (newSettings : PartialLeagueSettings.t)
| RefreshData
| FetchTeams
| FetchJoinRequests
| FetchChallenges.

Definition perform (op : Op) : Async unit :=
  match op with
  | CreateTeam uuid name creatorId league =>
    _ <- createTeam uuid name creatorId league ;; ret tt
  | RequestToJoin uuid userId teamId => requestToJoin uuid userId teamId
  | RespondToJoinRequest requestId accept =>
    respondToJoinRequest requestId accept
  | CreateChallenge uuid a b => createChallenge uuid a b
  | RespondToChallenge challengeId accept =>
    respondToChallenge challengeId accept
  | SubmitScore challengeId cs ds teamId =>
    submitScore challengeId cs ds teamId
  | ValidateScore challengeId valid => validateScore challengeId valid
  | UpdateSettings newSettings => updateSettings newSettings
  | RefreshData => refreshData
  | FetchTeams => fetchTeams
  | FetchJoinRequests => fetchJoinRequests
  | FetchChallenges => fetchChallenges
  end.

(** A generated primary key is a new one in its table. *)
Definition fresh_key (op : Op) (w : World) : Prop :=
  match op with
  | CreateTeam uuid _ _ _ =>
    ~ In uuid (map TeamsRow.id (teams_table (db w)))
  | RequestToJoin uuid _ _ =>
    ~ In uuid (map JoinRequestsRow.id (join_requests_table (db w)))
  | CreateChallenge uuid _ _ =>
    ~ In uuid (map ChallengesRow.id (challenges_table (db w)))
  | _ => True
  end.

(** The states the operations lead to from a store with profiles and
    settings but no team, challenge or join request yet, when the store
    carries out every call. *)
Inductive reachable : World -> Prop :=
| reach_start profiles league_settings :
    reachable (mkWorld (mkDb [] [] profiles [] league_settings)
                       (mkClient [] [] [] None))
| reach_step w op :
    reachable w -> fresh_key op w -> reachable (run_ok (perform op) w).

(** All-or-nothing, as a property of one validation: the teams are as
    before, or as the reference function leaves them. *)
Definition all_or_nothing (challengeId : string) (w : World)
    (replies : list Reply) : Prop :=
  let rows := teams_table (db w) in
  let rows' := teams_table (db (fst (snd (validateScore challengeId true
                                                        (w, replies))))) in
  rows' = rows
  \/ exists challengerId league loserPos winnerOldPos,
       rows' = ranking_reference challengerId league loserPos winnerOldPos rows.

(** The loop of step 2 when every update is carried out: the rows as the
    list [teamsToShift] leaves them. *)
Definition shift_row (team : string * Z) : TeamsRow.t -> TeamsRow.t :=
  TeamsRow.with_positions (snd team) (snd team + 1).

Definition shift_all (teamsToShift : list (string * Z))
    (rows : list TeamsRow.t) : list TeamsRow.t :=
  fold_left (fun rows team =>
               update_eq TeamsRow.id (fst team) (shift_row team) rows)
            teamsToShift rows.

(** The [where] clause of step 2. *)
Definition in_shift_range (league : League) (loserPosition winnerOldPosition : Z)
    (t : TeamsRow.t) : bool :=
  League_eqb (TeamsRow.league t) league
  && (TeamsRow.position t >=? loserPosition)
  && (TeamsRow.position t <? winnerOldPosition).

(** The rows after the three steps of [updatePositions] when every call is
    carried out. *)
Definition positions_after_steps (challengerTeamId : string)
    (challengerTeam challengedTeam : TeamsRow.t) (rows : list TeamsRow.t)
  : list TeamsRow.t :=
  let loserPosition := TeamsRow.position challengedTeam in
  let winnerOldPosition := TeamsRow.position challengerTeam in
  let rows1 :=
    update_eq TeamsRow.id challengerTeamId
              (TeamsRow.with_position temp_position) rows in
  let teamsToShift :=
    map (fun t => (TeamsRow.id t, TeamsRow.position t))
        (order_by position_descending
           (filter (in_shift_range (TeamsRow.league challengerTeam)
                                   loserPosition winnerOldPosition)
                   rows1)) in
  update_eq TeamsRow.id challengerTeamId
            (TeamsRow.with_positions winnerOldPosition loserPosition)
            (shift_all teamsToShift rows1).

(** The rows an accepted validation leaves when every call is carried out,
    read off the code: the two teams are fetched afresh, and the three
    steps run when both are there and the challenger stands below. *)
Definition accepted_positions (challenge : Challenge.t) (score : Score)
    (rows : list TeamsRow.t) : list TeamsRow.t :=
  let challengerId := Challenge.challengerTeamId challenge in
  let challengedId := Challenge.challengedTeamId challenge in
  if (computed_winner challenge score =? challengerId)%string then
    let freshTeams :=
      filter (fun t => existsb (String.eqb (TeamsRow.id t))
                               [challengerId; challengedId])
             rows in
    if (List.length freshTeams <? 2)%nat then rows
    else
      match team_row freshTeams challengerId,
            team_row freshTeams challengedId with
      | Some challengerTeam, Some challengedTeam =>
        if TeamsRow.position challengerTeam
           >? TeamsRow.position challengedTeam
        then positions_after_steps challengerId challengerTeam
                                   challengedTeam rows
        else rows
      | _, _ => rows
      end
  else rows.

(** The world after an accepted validation of [challenge], every call
    carried out. *)
Definition validated_world (challengeId : string) (challenge : Challenge.t)
    (score : Score) (w : World) : World :=
  refreshed
    (mkWorld
       (mkDb (accepted_positions challenge score (teams_table (db w)))
             (update_eq ChallengesRow.id challengeId
                (winner_payload (computed_winner challenge score))
                (challenges_table (db w)))
             (profiles_table (db w))
             (join_requests_table (db w))
             (league_settings_table (db w)))
       (ui w)).

(** The reference function seen on positions: [winnerOldPos] goes to
    [loserPos], the range in between moves down by one. *)
Definition rotate (loserPos winnerOldPos p : Z) : Z :=
  if p =? winnerOldPos then loserPos
  else if (loserPos <=? p) && (p <? winnerOldPos) then p + 1
  else p.

(** The ladder invariant: primary key on teams, every league dense, and
    the client's list of teams counts each league as the store does. *)
Definition ladder_ok (w : World) : Prop :=
  NoDup (map TeamsRow.id (teams_table (db w)))
  /\ (forall l, dense l (teams_table (db w)))
  /\ (forall l,
        List.length (filter (fun t => League_eqb (Team.league t) l)
                            (teams (ui w)))
        = List.length (league_positions l (teams_table (db w)))).

(** The row [createTeam] inserts. *)
Definition new_team_row (uuid name creatorId : string) (league : League)
    (w : World) : TeamsRow.t :=
  let nextPosition :=
    Z.of_nat (List.length
                (filter (fun t => League_eqb (Team.league t) league)
                        (teams (ui w)))) + 1 in
  TeamsRow.mk uuid name creatorId league nextPosition (Some nextPosition).

(** An active challenge between [a] and [b], in the words of the
    specification: pending, accepted, or completed and not validated, in
    either direction. *)
Definition active_between (c : Challenge.t) (a b : string) : Prop :=
  ((Challenge.challengerTeamId c = a /\ Challenge.challengedTeamId c = b)
   \/ (Challenge.challengerTeamId c = b /\ Challenge.challengedTeamId c = a))
  /\ (Challenge.status c = pending
      \/ Challenge.status c = accepted
      \/ (Challenge.status c = completed
          /\ Challenge.scoreValidated c = false)).

(** The row a new challenge starts as. *)
Definition new_challenge_row (uuid challengerTeamId challengedTeamId : string)
  : ChallengesRow.t :=
  ChallengesRow.mk uuid challengerTeamId challengedTeamId accepted
                   None None None false None.

(** ** A worked ladder

    Eight teams of one league created in turn, the team at position 6
    challenging the team at position 2 and submitting 6-4 6-3 (the ranking
    example of the specification). *)

Definition run_all (ops : list Op) (w : World) : World :=
  fold_left (fun w op => run_ok (perform op) w) ops w.

Definition start_world : World :=
  mkWorld (mkDb [] [] [] [] (Some (SettingsRow.mk 1740787200000 4)))
          (mkClient [] [] [] None).

Definition ladder8 : World :=
  run_all [CreateTeam "t1" "Team 1" "u1" mens;
           CreateTeam "t2" "Team 2" "u2" mens;
           CreateTeam "t3" "Team 3" "u3" mens;
           CreateTeam "t4" "Team 4" "u4" mens;
           CreateTeam "t5" "Team 5" "u5" mens;
           CreateTeam "t6" "Team 6" "u6" mens;
           CreateTeam "t7" "Team 7" "u7" mens;
           CreateTeam "t8" "Team 8" "u8" mens]
          start_world.

Definition challenged8 : World :=
  run_all [CreateChallenge "c1" "t6" "t2";
           SubmitScore "c1" [Some 6; Some 6] [Some 4; Some 3] "t6"]
          ladder8.

Definition validated8 : World :=
  run_ok (validateScore "c1" true) challenged8.

(** Identifier, position and previous position of every team row. *)
Definition standing (w : World) : list (string * Z * option Z) :=
  map (fun t => (TeamsRow.id t, TeamsRow.position t,
                 TeamsRow.previous_position t))
      (teams_table (db w)).

(** The replies under which the ninth call of the validation below, step 3
    of the ranking update, is refused (update of the challenge, read of the
    two teams, step 1, read of the range, four shifts, step 3). *)
Definition step3_refused : list Reply :=
  [None; None; None; None; None; None; None; None; Some "refused"].

(** The challenge of the worked ladder as the client holds it once the
    score is in, and its score. *)
Definition score8 : Score := mkScore [Some 6; Some 6] [Some 4; Some 3].

Definition challenge8 : Challenge.t :=
  Challenge.mk "c1" "t6" "t2" completed (Some score8) (Some "t6") false None.

(** A team of the men's league known by its id and position. *)
Definition team_at (id : string) (position : Z) : Team.t :=
  Team.mk id id "" [] mens position position.

(** The schema's [UNIQUE(league, position)] on a table of teams. *)
Definition unique_positions (rows : list TeamsRow.t) : Prop :=
  NoDup (map (fun t => (TeamsRow.league t, TeamsRow.position t)) rows).

(** The table after each update of the loop of step 2. *)
Fixpoint shift_trace (teamsToShift : list (string * Z))
    (rows : list TeamsRow.t) : list (list TeamsRow.t) :=
  match teamsToShift with
  | [] => []
  | team :: rest =>
    let rows' := update_eq TeamsRow.id (fst team) (shift_row team) rows in
    rows' :: shift_trace rest rows'
  end.

(** The table after each write of the three steps, in order. *)
Definition steps_trace (challengerTeamId : string)
    (challengerTeam challengedTeam : TeamsRow.t) (rows : list TeamsRow.t)
  : list (list TeamsRow.t) :=
  let loserPosition := TeamsRow.position challengedTeam in
  let winnerOldPosition := TeamsRow.position challengerTeam in
  let rows1 :=
    update_eq TeamsRow.id challengerTeamId
              (TeamsRow.with_position temp_position) rows in
  let teamsToShift :=
    map (fun t => (TeamsRow.id t, TeamsRow.position t))
        (order_by position_descending
           (filter (in_shift_range (TeamsRow.league challengerTeam)
                                   loserPosition winnerOldPosition)
                   rows1)) in
  rows1 :: shift_trace teamsToShift rows1
  ++ [positions_after_steps challengerTeamId challengerTeam challengedTeam
                            rows].

(** A row after the updates of the loop listed in [done]. *)
Definition shifted_by (done : list (string * Z)) (r : TeamsRow.t)
  : TeamsRow.t :=
  match find (fun team => (fst team =? TeamsRow.id r)%string) done with
  | Some team => shift_row team r
  | None => r
  end.

(** An operation that resolves on every run. *)
Definition never_throws {A} (m : Async A) : Prop :=
  forall s, exists a, fst (m s) = Resolved a.

(** ** Selectors of the context (LeagueContext.tsx) *)

Definition Request_status_eqb (a b : Request.status) : bool :=
  match a, b with
  | Request.pending, Request.pending
  | Request.accepted, Request.accepted
  | Request.declined, Request.declined => true
  | _, _ => false
  end.

Definition getAvailableTeams (w : World) (league : League) : list Team.t :=
  filter (fun t => League_eqb (Team.league t) league
                   && (List.length (Team.memberIds t) <? 4)%nat)
         (teams (ui w)).

Definition getUserJoinRequests (w : World) (userId : string)
  : list JoinRequest.t :=
  filter (fun r => (JoinRequest.userId r =? userId)%string)
         (joinRequests (ui w)).

Definition getTeamJoinRequests (w : World) (teamId : string)
  : list JoinRequest.t :=
  filter (fun r => (JoinRequest.teamId r =? teamId)%string
                   && Request_status_eqb (JoinRequest.status r)
                                         Request.pending)
         (joinRequests (ui w)).

Definition getTeamChallenges (w : World) (teamId : string)
  : list Challenge.t :=
  filter (fun c => (Challenge.challengerTeamId c =? teamId)%string
                   || (Challenge.challengedTeamId c =? teamId)%string)
         (challenges (ui w)).

(** ** The Challenges tab (Challenges.tsx)

    What a render of the component computes for the signed-in user:
    [challenges] below is the list [getTeamChallenges(user.teamId)]. *)

Definition activeChallenges (challenges : list Challenge.t)
  : list Challenge.t :=
  filter (fun c => Status_eqb (Challenge.status c) accepted
                   || (Status_eqb (Challenge.status c) completed
                       && negb (Challenge.scoreValidated c)))
         challenges.

Definition hasActiveChallenge (challenges : list Challenge.t)
    (teamId : string) : bool :=
  existsb (fun c => ((Challenge.challengerTeamId c =? teamId)%string
                     || (Challenge.challengedTeamId c =? teamId)%string)
                    && (Status_eqb (Challenge.status c) accepted
                        || (Status_eqb (Challenge.status c) completed
                            && negb (Challenge.scoreValidated c))))
          challenges.

Definition challengeableTeams (w : World) (now : Z) (myTeam : Team.t)
    (challenges : list Challenge.t) : list Team.t :=
  filter (fun t => League_eqb (Team.league t) (Team.league myTeam)
                   && canChallenge (settings (ui w)) now myTeam t
                   && negb (hasActiveChallenge challenges (Team.id t)))
         (teams (ui w)).

Definition completedChallenges (challenges : list Challenge.t)
  : list Challenge.t :=
  filter Challenge.scoreValidated challenges.

Module ChallengesTab.
Record t := mk {
  myTeam : Team.t;
  challenges : list Challenge.t;
  challengeableTeams : list Team.t;
  activeChallenges : list Challenge.t;
  completedChallenges : list Challenge.t
}.
End ChallengesTab.

(** The component returns [null] without a team id or when the team is not
    in the client's list. *)
Definition Challenges (w : World) (now : Z) (userTeamId : option string)
  : option ChallengesTab.t :=
  match truthy userTeamId with
  | None => None
  | Some teamId =>
    match getTeamById w teamId with
    | None => None
    | Some myTeam =>
      let challenges := getTeamChallenges w teamId in
      Some (ChallengesTab.mk myTeam challenges
              (challengeableTeams w now myTeam challenges)
              (activeChallenges challenges)
              (completedChallenges challenges))
    end
  end.

(** The four flags of a row of the active matches, [userTeamId] being
    [user.teamId]. *)
Definition weSubmittedScore (userTeamId : string) (challenge : Challenge.t)
  : bool :=
  option_string_eqb (Challenge.scoreSubmittedBy challenge) userTeamId.

Definition hasScore (challenge : Challenge.t) : bool :=
  Status_eqb (Challenge.status challenge) completed
  && match Challenge.score challenge with Some _ => true | None => false end.

Definition waitingForOpponent (userTeamId : string)
    (challenge : Challenge.t) : bool :=
  hasScore challenge && weSubmittedScore userTeamId challenge.

Definition needToRespond (userTeamId : string) (challenge : Challenge.t)
  : bool :=
  hasScore challenge && negb (weSubmittedScore userTeamId challenge).

(** ** The Notifications tab (NotificationsTab.tsx) and its badge
    (pages/Index.tsx) *)

(** [interface User], the two fields the lists below read. *)
Module User.
Record t := mk {
  id : string;
  teamId : option string
}.
End User.

(** [teams.find(t => t.id === teamId)] for a [teamId] that may be
    [undefined]. *)
Definition find_my_team (w : World) (teamId : option string)
  : option Team.t :=
  match teamId with
  | Some key => find (fun t => (Team.id t =? key)%string) (teams (ui w))
  | None => None
  end.

Module Notifications.
Record t := mk {
  teamJoinRequests : list JoinRequest.t;
  myJoinRequests : list JoinRequest.t;
  incomingChallenges : list Challenge.t;
  outgoingChallenges : list Challenge.t;
  scoreValidationNeeded : list Challenge.t;
  acceptedChallenges : list Challenge.t
}.
End Notifications.

Definition has_score (c : Challenge.t) : bool :=
  match Challenge.score c with Some _ => true | None => false end.

Definition NotificationsTab (w : World) (user : User.t) : Notifications.t :=
  let myTeam := find_my_team w (User.teamId user) in
  let isTeamCaptain :=
    match myTeam with
    | Some team => (Team.creatorId team =? User.id user)%string
    | None => false
    end in
  Notifications.mk
    (match myTeam with
     | Some myTeam =>
       if isTeamCaptain then
         filter (fun r => (JoinRequest.teamId r =? Team.id myTeam)%string
                          && Request_status_eqb (JoinRequest.status r)
                                                Request.pending)
                (joinRequests (ui w))
       else []
     | None => []
     end)
    (filter (fun r => (JoinRequest.userId r =? User.id user)%string
                      && Request_status_eqb (JoinRequest.status r)
                                            Request.pending)
            (joinRequests (ui w)))
    (match myTeam with
     | Some myTeam =>
       filter (fun c => (Challenge.challengedTeamId c =? Team.id myTeam)%string
                        && Status_eqb (Challenge.status c) pending)
              (challenges (ui w))
     | None => []
     end)
    (match myTeam with
     | Some myTeam =>
       filter (fun c => (Challenge.challengerTeamId c =? Team.id myTeam)%string
                        && Status_eqb (Challenge.status c) pending)
              (challenges (ui w))
     | None => []
     end)
    (match myTeam with
     | Some myTeam =>
       filter (fun c => ((Challenge.challengerTeamId c =? Team.id myTeam)%string
                         || (Challenge.challengedTeamId c
                             =? Team.id myTeam)%string)
                        && Status_eqb (Challenge.status c) completed
                        && negb (Challenge.scoreValidated c)
                        && has_score c)
              (challenges (ui w))
     | None => []
     end)
    (match myTeam with
     | Some myTeam =>
       filter (fun c => ((Challenge.challengerTeamId c =? Team.id myTeam)%string
                         || (Challenge.challengedTeamId c
                             =? Team.id myTeam)%string)
                        && Status_eqb (Challenge.status c) accepted)
              (challenges (ui w))
     | None => []
     end).

Definition totalNotifications (n : Notifications.t) : nat :=
  (List.length (Notifications.teamJoinRequests n)
   + List.length (Notifications.myJoinRequests n)
   + List.length (Notifications.incomingChallenges n)
   + List.length (Notifications.scoreValidationNeeded n))%nat.

(** The count on the tab's badge (Index.tsx); [user] is [null] before the
    sign-in. *)
Definition notificationCount (w : World) (user : option User.t) : nat :=
  let myTeam :=
    find_my_team w (match user with
                    | Some u => User.teamId u
                    | None => None
                    end) in
  let teamJoinRequests :=
    match myTeam, user with
    | Some myTeam, Some u =>
      if (Team.creatorId myTeam =? User.id u)%string then
        filter (fun r => (JoinRequest.teamId r =? Team.id myTeam)%string
                         && Request_status_eqb (JoinRequest.status r)
                                               Request.pending)
               (joinRequests (ui w))
      else []
    | _, _ => []
    end in
  let incomingChallenges :=
    match myTeam with
    | Some myTeam =>
      filter (fun c => (Challenge.challengedTeamId c =? Team.id myTeam)%string
                       && Status_eqb (Challenge.status c) pending)
             (challenges (ui w))
    | None => []
    end in
  let scoreValidationNeeded :=
    match myTeam with
    | Some myTeam =>
      filter (fun c => (Challenge.challengedTeamId c =? Team.id myTeam)%string
                       && Status_eqb (Challenge.status c) completed
                       && negb (Challenge.scoreValidated c)
                       && has_score c)
             (challenges (ui w))
    | None => []
    end in
  (List.length teamJoinRequests + List.length incomingChallenges
   + List.length scoreValidationNeeded)%nat.

(** ** The league table (LeagueTable.tsx) *)

(** [teams.filter(...).sort((a, b) => a.position - b.position)]; the sort
    is stable. *)
Definition leagueTeams (w : World) (league : League) : list Team.t :=
  order_by (fun a b => Team.position a - Team.position b <=? 0)
           (filter (fun t => League_eqb (Team.league t) league)
                   (teams (ui w))).

(** What [PositionChange] renders: the rising arrow with [+change], the
    falling arrow with [change], or the dash. *)
Inductive Movement :=
| TrendingUp (change : Z)
| TrendingDown (change : Z)
| Minus.

Definition PositionChange (current : Z) (previous : option Z) : Movement :=
  let prev := nullish previous current in
  let change := prev - current in
  if change >? 0 then TrendingUp change
  else if change <? 0 then TrendingDown change
  else Minus.

(** The badge and the movement of every row of the table, top to bottom. *)
Definition LeagueTable (w : World) (league : League)
  : list (Z * string * Movement) :=
  map (fun team =>
         (Team.position team, Team.name team,
          PositionChange (Team.position team)
                         (Some (Team.previousPosition team))))
      (leagueTeams w league).

(** ** Team membership in the store *)

(** The profiles that point to a team. *)
Definition members (d : Db) (teamId : string) : list ProfilesRow.t :=
  filter (fun p => option_string_eqb (ProfilesRow.team_id p) teamId)
         (profiles_table d).

(** Primary key on profiles, the foreign key of [profiles.team_id], and no
    team with more than four members. *)
Definition roster_ok (d : Db) : Prop :=
  NoDup (map ProfilesRow.id (profiles_table d))
  /\ (forall p teamId,
        In p (profiles_table d) -> ProfilesRow.team_id p = Some teamId ->
        In teamId (map TeamsRow.id (teams_table d)))
  /\ (forall teamId, (List.length (members d teamId) <= 4)%nat).

(** [m] keeps [P]: whatever the store replies, and whether [m] resolves or
    throws, [P] holds of the world afterwards when it held before. *)
Definition keeps {A} (P : World -> Prop) (m : Async A) : Prop :=
  forall s, P (fst s) -> P (fst (snd (m s))).

(** The client's list of teams is the one [fetchTeams] would fetch. *)
Definition teams_current (w : World) : Prop :=
  teams (ui w) = map to_Team (select_teams_with_profiles (db w)).

(** No challenge is pending, in the store or in the client's list. *)
Definition never_pending (w : World) : Prop :=
  Forall (fun r => ChallengesRow.status r <> pending)
         (challenges_table (db w))
  /\ Forall (fun c => Challenge.status c <> pending) (challenges (ui w)).

(** ** Handlers of the Notifications tab *)

(** What [toast] is called with; [variant] is ['destructive'] or left
    out. *)
Module Toast.
Record t := mk {
  title : string;
  description : string;
  variant : option string
}.
End Toast.

(** [try { ... } catch (error) { ... }]: the handler gets
    [error.message]. *)
Definition try_catch {A} (m : Async A) (handler : string -> Async A)
  : Async A :=
  fun s =>
    match m s with
    | (Resolved a, s') => (Resolved a, s')
    | (Threw message, s') => handler message s'
    end.

Definition handleJoinRequestResponse (requestId : string) (accept : bool)
    (userName : string) : Async Toast.t :=
  try_catch
    (respondToJoinRequest requestId accept ;;;
     ret (Toast.mk
            (if accept then "Request accepted!" else "Request declined")
            (if accept
             then (userName ++ " has been added to your team.")%string
             else (userName ++ "'s request has been declined.")%string)
            None))
    (fun message =>
       ret (Toast.mk "Error"
                     (or_else (Some message)
                              "Failed to process join request")
                     (Some "destructive"))).

Definition handleScoreValidation (challengeId : string) (valid : bool)
  : Async Toast.t :=
  validateScore challengeId valid ;;;
  ret (Toast.mk
         (if valid then "Score confirmed!" else "Score disputed")
         (if valid
          then "The score has been validated and positions updated."
          else "The score has been disputed. Please re-submit the correct score.")
         None).

(** ** A club with members

    Three signed-up players and no team yet; the first two found a team
    each. *)

Definition club_start : World :=
  mkWorld (mkDb [] []
                [ProfilesRow.mk "u1" None; ProfilesRow.mk "u2" None;
                 ProfilesRow.mk "u3" None]
                [] (Some (SettingsRow.mk 1740787200000 4)))
          (mkClient [] [] [] None).

Definition club : World :=
  run_all [CreateTeam "t1" "Team 1" "u1" mens;
           CreateTeam "t2" "Team 2" "u2" mens]
          club_start.

(** The worked ladder once the challenge of team 6 is in. *)
Definition created8 : World :=
  run_ok (createChallenge "c1" "t6" "t2") ladder8.

(** Teams 2, 4 and 6 of the worked ladder, in the store and as the client
    holds them. *)
Definition row2 : TeamsRow.t := TeamsRow.mk "t2" "Team 2" "u2" mens 2 (Some 2).

Definition row6 : TeamsRow.t := TeamsRow.mk "t6" "Team 6" "u6" mens 6 (Some 6).

Definition team4 : Team.t := Team.mk "t4" "Team 4" "u4" [] mens 4 4.


(** What a team row is apart from its rank, and who plays a challenge. *)
Definition team_identity (t : TeamsRow.t)
  : string * string * string * League :=
  (TeamsRow.id t, TeamsRow.name t, TeamsRow.creator_id t, TeamsRow.league t).

Definition challenge_parties (c : ChallengesRow.t)
  : string * string * string :=
  (ChallengesRow.id c, ChallengesRow.challenger_team_id c,
   ChallengesRow.challenged_team_id c).

(** The store [d] differs from [d0] at most in the ranks of the teams and
    in the progress of the challenges. *)
Definition same_league (d0 d : Db) : Prop :=
  map team_identity (teams_table d) = map team_identity (teams_table d0)
  /\ map challenge_parties (challenges_table d)
     = map challenge_parties (challenges_table d0)
  /\ profiles_table d = profiles_table d0
  /\ join_requests_table d = join_requests_table d0
  /\ league_settings_table d = league_settings_table d0.

(** ** Two states off the beaten track *)

(** The worked ladder after the validation of its challenge when the store
    refuses step 3 of the ranking update. *)
Definition gap8 : World :=
  fst (snd (validateScore "c1" true (challenged8, step3_refused))).

(** The worked ladder after its challenge was declined, the list fetched,
    and the challenge accepted after all: [respondToChallenge] does not
    fetch, so the client's list still shows the challenge as declined. *)
Definition stale8 : World :=
  run_all [CreateChallenge "c1" "t6" "t2";
           RespondToChallenge "c1" false;
           FetchChallenges;
           RespondToChallenge "c1" true]
          ladder8.

(** Id, teams and status of every challenge row of the store. *)
Definition challenge_states (w : World)
  : list (string * string * string * Status) :=
  map (fun r => (ChallengesRow.id r, ChallengesRow.challenger_team_id r,
                 ChallengesRow.challenged_team_id r, ChallengesRow.status r))
      (challenges_table (db w)).

(* ================================================================== *)
(** * Part II.  Properties                                             *)
(* ================================================================== *)

(** ** Score validator *)

Lemma isValidSetScore_spec (w l : Z) :
  isValidSetScore (Some w) (Some l) = true <->
  (w = 6 /\ 0 <= l <= 4) \/ (w = 7 /\ (l = 5 \/ l = 6)).
Proof.
  unfold isValidSetScore, num_is, num_ge, num_le.
  destruct (Z.eqb_spec w 6) as [->|H6].
  - rewrite andb_true_iff, Z.geb_le, Z.leb_le. intuition lia.
  - destruct (Z.eqb_spec w 7) as [->|H7].
    + rewrite orb_true_iff, !Z.eqb_eq. intuition lia.
    + split; [discriminate | intuition lia].
Qed.

(** C4.  For two integers entered as the games of one set,
    [validateSetScores] accepts exactly when the larger value [w] and the
    smaller value [l] satisfy [w = 6] and [0 <= l <= 4], or [w = 7] and [l]
    is 5 or 6; a tie is rejected whatever the value, and so is a negative
    entry on either side. *)
Theorem validateSetScores_integers (c d : Z) (p : positive) :
  (valid (validateSetScores (Some c) (Some d)) = true <->
   (Z.max c d = 6 /\ 0 <= Z.min c d <= 4)
   \/ (Z.max c d = 7 /\ (Z.min c d = 5 \/ Z.min c d = 6)))
  /\ valid (validateSetScores (Some c) (Some c)) = false
  /\ valid (validateSetScores (Some (Z.neg p)) (Some d)) = false
  /\ valid (validateSetScores (Some c) (Some (Z.neg p))) = false.
Proof.
  split; [split | split; [| split]].
  - unfold validateSetScores, num_lt, num_gt; cbn [isNaN andb orb].
    destruct (Z.ltb_spec c 0), (Z.ltb_spec d 0); cbn [orb valid];
      try (intros; discriminate).
    destruct (Z.gtb_spec c d).
    + destruct (isValidSetScore (Some c) (Some d)) eqn:E; cbn;
        [ intros _; apply isValidSetScore_spec in E; lia | discriminate ].
    + destruct (Z.gtb_spec d c).
      * destruct (isValidSetScore (Some d) (Some c)) eqn:E; cbn;
          [ intros _; apply isValidSetScore_spec in E; lia | discriminate ].
      * cbn. discriminate.
  - unfold validateSetScores, num_lt, num_gt; cbn [isNaN andb orb].
    destruct (Z.ltb_spec c 0), (Z.ltb_spec d 0); cbn [orb valid];
      try (intros; exfalso; lia).
    destruct (Z.gtb_spec c d).
    + intros Hwl.
      assert (E : isValidSetScore (Some c) (Some d) = true)
        by (apply isValidSetScore_spec; lia).
      now rewrite E.
    + destruct (Z.gtb_spec d c).
      * intros Hwl.
        assert (E : isValidSetScore (Some d) (Some c) = true)
          by (apply isValidSetScore_spec; lia).
        now rewrite E.
      * intros; exfalso; lia.
  - unfold validateSetScores, num_lt, num_gt; cbn [isNaN andb orb].
    destruct (c <? 0); cbn [orb valid]; [reflexivity|].
    destruct (Z.gtb_spec c c); [lia | reflexivity].
  - reflexivity.
  - unfold validateSetScores, num_lt; cbn [isNaN andb orb].
    change (Z.neg p <? 0) with true. rewrite orb_true_r. reflexivity.
Qed.

(** With sets 1 and 2 valid and both won by the challenger, a valid third
    set is turned down only when the challenged side wins it: the guard
    looks at the totals after the third set, and 3-0 is not "2". *)
Lemma handleSubmitScore_third_set_after_two_nil
    (cid tid : string) (a1 b1 a2 b2 a3 b3 : Z) :
  cid <> "" -> tid <> "" ->
  valid (validateSetScores (Some a1) (Some b1)) = true ->
  valid (validateSetScores (Some a2) (Some b2)) = true ->
  valid (validateSetScores (Some a3) (Some b3)) = true ->
  a1 > b1 -> a2 > b2 ->
  handleSubmitScore_decide (Some cid) (Some tid)
    (mkParsedScores (Some a1) (Some b1) (Some a2) (Some b2)
                    (Some a3) (Some b3))
  = if a3 >? b3
    then CallSubmitScore cid [Some a1; Some a2; Some a3]
                         [Some b1; Some b2; Some b3] tid
    else RejectedToast "Invalid Match"
           (Some "No 3rd set needed if one team already won 2 sets.").
Proof.
  intros Hc Ht V1 V2 V3 G1 G2.
  unfold handleSubmitScore_decide.
  assert (Tc : truthy (Some cid) = Some cid)
    by (destruct cid; [now elim Hc | reflexivity]).
  assert (Tt : truthy (Some tid) = Some tid)
    by (destruct tid; [now elim Ht | reflexivity]).
  rewrite Tc, Tt. cbn [set1c set1d set2c set2d set3c set3d].
  rewrite V1, V2, V3. cbn [negb isNaN andb num_gt num_lt].
  assert (E1 : (a1 >? b1) = true) by (apply Z.gtb_lt; lia).
  assert (E2 : (a2 >? b2) = true) by (apply Z.gtb_lt; lia).
  assert (L1 : (a1 <? b1) = false) by (apply Z.ltb_ge; lia).
  assert (L2 : (a2 <? b2) = false) by (apply Z.ltb_ge; lia).
  rewrite E1, E2, L1, L2.
  destruct (a3 >? b3); reflexivity.
Qed.

(** C5.  Sets 6-4 and 6-3 followed by a third set 6-2: the first two sets
    are valid and decide the match 2-0, and yet the submission passes every
    check and goes on to [submitScore] with three sets. *)
Theorem handleSubmitScore_accepts_third_set_after_two_nil :
  handleSubmitScore_decide (Some "c1") (Some "t6")
    (mkParsedScores (Some 6) (Some 4) (Some 6) (Some 3) (Some 6) (Some 2))
  = CallSubmitScore "c1" [Some 6; Some 6; Some 6]
                    [Some 4; Some 3; Some 2] "t6".
Proof. reflexivity. Qed.

(** What the handler does as the claim says: a 1-1 split without a third
    set never reaches [submitScore]. *)
Lemma handleSubmitScore_split_needs_third_set
    (sel team : option string) (a1 b1 a2 b2 : Z)
    (cid tid : string) (cs ds : list number) :
  (a1 >? b1) = negb (a2 >? b2) ->
  handleSubmitScore_decide sel team
    (mkParsedScores (Some a1) (Some b1) (Some a2) (Some b2) None None)
  <> CallSubmitScore cid cs ds tid.
Proof.
  intros Hsplit. unfold handleSubmitScore_decide.
  destruct (truthy sel); [| discriminate].
  destruct (truthy team); [| discriminate].
  cbn [set1c set1d set2c set2d set3c set3d].
  destruct (valid (validateSetScores (Some a1) (Some b1))); cbn [negb];
    [| discriminate].
  destruct (valid (validateSetScores (Some a2) (Some b2))); cbn [negb];
    [| discriminate].
  cbn [validateSetScores isNaN andb valid negb num_gt].
  rewrite Hsplit.
  destruct (a2 >? b2); cbn; discriminate.
Qed.

(** ** Eligibility *)

Lemma League_eqb_eq (a b : League) : League_eqb a b = true <-> a = b.
Proof. destruct a, b; cbn; split; congruence. Qed.

Lemma League_eqb_refl (a : League) : League_eqb a a = true.
Proof. now destruct a. Qed.

(** C3.  [canChallenge] answers true exactly when the two teams are in the
    same league, are distinct, the settings are present, and either the
    clock is before the cutover date and the challenger's position is the
    larger one, or the clock is on or after it and the difference of the
    positions is positive and at most [maxPositionDifference]. *)
Theorem canChallenge_iff (settings : option LeagueSettings.t) (now : Z)
    (challenger challenged : Team.t) :
  canChallenge settings now challenger challenged = true <->
  Team.league challenger = Team.league challenged
  /\ Team.id challenger <> Team.id challenged
  /\ exists s,
       settings = Some s
       /\ ((now < LeagueSettings.challengeRestrictionDate s
            /\ Team.position challenger > Team.position challenged)
           \/ (LeagueSettings.challengeRestrictionDate s <= now
               /\ 0 < Team.position challenger - Team.position challenged
                    <= LeagueSettings.maxPositionDifference s)).
Proof.
  unfold canChallenge.
  destruct (League_eqb (Team.league challenger) (Team.league challenged)) eqn:EL;
    cbn [negb].
  2:{ split; [discriminate|]. intros [H _]. apply League_eqb_eq in H. congruence. }
  apply League_eqb_eq in EL.
  destruct (String.eqb_spec (Team.id challenger) (Team.id challenged)) as [EI|EI].
  { split; [discriminate|]. intros (_ & H & _). contradiction. }
  destruct settings as [s|].
  2:{ split; [discriminate|]. intros (_ & _ & s & H & _). discriminate. }
  destruct (Z.geb_spec now (LeagueSettings.challengeRestrictionDate s)) as [Hn|Hn].
  - rewrite andb_true_iff, Z.gtb_lt, Z.leb_le. split.
    + intros [H1 H2]. split; [exact EL|]. split; [exact EI|].
      exists s. split; [reflexivity|]. right. lia.
    + intros (_ & _ & s' & Hs & H). injection Hs as <-. lia.
  - rewrite Z.gtb_lt. split.
    + intros H. split; [exact EL|]. split; [exact EI|].
      exists s. split; [reflexivity|]. left. lia.
    + intros (_ & _ & s' & Hs & H). injection Hs as <-. lia.
Qed.

(** ** Runs in which the store carries out every call *)

Section CarriedOut.

Context {B : Type}.

Lemma bind_world (k : World -> Async B) (s : World * list Reply) :
  bind world k s = k (fst s) s.
Proof. reflexivity. Qed.

Lemma bind_ret {A} (a : A) (k : A -> Async B) (s : World * list Reply) :
  bind (ret a) k s = k a s.
Proof. reflexivity. Qed.

Lemma bind_mutate_ok (f : World -> World) (k : option string -> Async B)
    (w : World) :
  bind (mutate f) k (w, []) = k None (f w, []).
Proof. reflexivity. Qed.

Lemma bind_mutate_refused (f : World -> World)
    (k : option string -> Async B) (w : World) (message : string)
    (rest : list Reply) :
  bind (mutate f) k (w, Some message :: rest) = k (Some message) (w, rest).
Proof. reflexivity. Qed.

Lemma bind_mutate_carried (f : World -> World)
    (k : option string -> Async B) (w : World) (rest : list Reply) :
  bind (mutate f) k (w, None :: rest) = k None (f w, rest).
Proof. reflexivity. Qed.

Lemma bind_query_ok {A} (read : Db -> A) (k : string + A -> Async B)
    (w : World) :
  bind (query read) k (w, []) = k (inr (read (db w))) (w, []).
Proof. reflexivity. Qed.

End CarriedOut.

Lemma refreshData_ok (w : World) :
  refreshData (w, []) = (Resolved tt, (refreshed w, [])).
Proof.
  destruct w as [d u].
  unfold refreshData, fetchTeams, fetchJoinRequests, fetchChallenges,
    fetchSettings, refreshed.
  cbv [bind modify ret store_call query world fst snd db ui setTeams teams
       joinRequests challenges settings setJoinRequests setChallenges
       setSettings].
  destruct (league_settings_table d); reflexivity.
Qed.

Lemma bind_refreshData_ok {B} (k : unit -> Async B) (w : World) :
  bind refreshData k (w, []) = k tt (refreshed w, []).
Proof. unfold bind at 1. now rewrite refreshData_ok. Qed.

(** Fetching never throws and never writes to the store, whatever the
    replies. *)
Lemma fetchTeams_db (s : World * list Reply) :
  fst (fetchTeams s) = Resolved tt /\ db (fst (snd (fetchTeams s))) = db (fst s).
Proof.
  destruct s as [w [|[m|] rs]]; split; reflexivity.
Qed.

Lemma fetchJoinRequests_db (s : World * list Reply) :
  fst (fetchJoinRequests s) = Resolved tt
  /\ db (fst (snd (fetchJoinRequests s))) = db (fst s).
Proof.
  destruct s as [w [|[m|] rs]]; split; reflexivity.
Qed.

Lemma fetchChallenges_db (s : World * list Reply) :
  fst (fetchChallenges s) = Resolved tt
  /\ db (fst (snd (fetchChallenges s))) = db (fst s).
Proof.
  destruct s as [w [|[m|] rs]]; split; reflexivity.
Qed.

Lemma fetchChallenges_teams (s : World * list Reply) :
  teams (ui (fst (snd (fetchChallenges s)))) = teams (ui (fst s)).
Proof.
  destruct s as [w [|[m|] rs]]; reflexivity.
Qed.

Lemma fetchSettings_db (s : World * list Reply) :
  fst (fetchSettings s) = Resolved tt
  /\ db (fst (snd (fetchSettings s))) = db (fst s).
Proof.
  destruct s as [[d u] [|[m|] rs]]; cbn; try (split; reflexivity);
    destruct (league_settings_table d); split; reflexivity.
Qed.

Lemma bind_assoc {A B C} (m : Async A) (f : A -> Async B)
    (g : B -> Async C) (s : World * list Reply) :
  bind (bind m f) g s = bind m (fun x => bind (f x) g) s.
Proof. unfold bind. destruct (m s) as [[a|e] s']; reflexivity. Qed.

Lemma bind_never_throws {A B} (m : Async A) (k : A -> Async B)
    (s : World * list Reply) (a : A) :
  fst (m s) = Resolved a -> bind m k s = k a (snd (m s)).
Proof.
  unfold bind. destruct (m s) as [[x|e] s']; cbn; congruence.
Qed.

Lemma refreshData_db (s : World * list Reply) :
  fst (refreshData s) = Resolved tt
  /\ db (fst (snd (refreshData s))) = db (fst s).
Proof.
  unfold refreshData.
  destruct (fetchTeams_db s) as [R1 D1].
  rewrite (bind_never_throws _ _ _ _ R1).
  destruct (fetchJoinRequests_db (snd (fetchTeams s))) as [R2 D2].
  rewrite (bind_never_throws _ _ _ _ R2).
  destruct (fetchChallenges_db (snd (fetchJoinRequests (snd (fetchTeams s)))))
    as [R3 D3].
  rewrite (bind_never_throws _ _ _ _ R3).
  destruct (fetchSettings_db
              (snd (fetchChallenges
                      (snd (fetchJoinRequests (snd (fetchTeams s)))))))
    as [R4 D4].
  split; [exact R4 | congruence].
Qed.

(** ** Lists: ordering and lookup by key *)

Lemma insert_by_perm {A} (le : A -> A -> bool) (x : A) (l : list A) :
  Permutation (insert_by le x l) (x :: l).
Proof.
  induction l as [|y l IH]; cbn; [reflexivity|].
  destruct (le x y); [reflexivity|].
  rewrite IH. apply perm_swap.
Qed.

Lemma order_by_perm {A} (le : A -> A -> bool) (l : list A) :
  Permutation (order_by le l) l.
Proof.
  induction l as [|x l IH]; cbn; [reflexivity|].
  rewrite insert_by_perm. now constructor.
Qed.

Section Keyed.

Context {R : Type} (key : R -> string).

Lemma find_key_some (rows : list R) (k : string) (r : R) :
  find (fun x => (key x =? k)%string) rows = Some r ->
  In r rows /\ key r = k.
Proof.
  intros H. apply find_some in H. now rewrite String.eqb_eq in H.
Qed.

Lemma find_key_none (rows : list R) (k : string) :
  (forall r, In r rows -> key r <> k) ->
  find (fun x => (key x =? k)%string) rows = None.
Proof.
  induction rows as [|x rows IH]; cbn; intros H; [reflexivity|].
  destruct (String.eqb_spec (key x) k) as [E|E].
  - exfalso. apply (H x); auto.
  - apply IH. intros r Hr. apply H. now right.
Qed.

Lemma find_key_in (rows : list R) (r : R) :
  NoDup (map key rows) -> In r rows ->
  find (fun x => (key x =? key r)%string) rows = Some r.
Proof.
  induction rows as [|x rows IH]; cbn; intros ND Hin; [contradiction|].
  inversion ND as [|? ? Hx ND']; subst.
  destruct Hin as [->|Hin].
  - now rewrite String.eqb_refl.
  - destruct (String.eqb_spec (key x) (key r)) as [E|E].
    + exfalso. apply Hx. rewrite E. now apply in_map.
    + now apply IH.
Qed.

Lemma update_eq_keys (k : string) (payload : R -> R) (rows : list R) :
  (forall r, key (payload r) = key r) ->
  map key (update_eq key k payload rows) = map key rows.
Proof.
  intros Hp. unfold update_eq. rewrite map_map. apply map_ext.
  intros r. destruct (key r =? k)%string; auto.
Qed.

End Keyed.

(** ** The three steps of the ranking update *)

Lemma shift_all_map (teamsToShift : list (string * Z)) (rows : list TeamsRow.t) :
  NoDup (map fst teamsToShift) ->
  shift_all teamsToShift rows
  = map (fun r =>
           match find (fun team => (fst team =? TeamsRow.id r)%string)
                      teamsToShift with
           | Some team => shift_row team r
           | None => r
           end)
        rows.
Proof.
  unfold shift_all. revert rows.
  induction teamsToShift as [|team L IH]; intros rows ND.
  - cbn. symmetry. apply map_id.
  - inversion ND as [|? ? Hhd ND']; subst.
    cbn [fold_left]. rewrite (IH _ ND'). unfold update_eq at 1.
    rewrite map_map. apply map_ext. intros r. cbn [find].
    rewrite (String.eqb_sym (fst team) (TeamsRow.id r)).
    destruct (String.eqb_spec (TeamsRow.id r) (fst team)) as [E|E];
      [| reflexivity].
    assert (Hnone : find (fun t => (fst t =? TeamsRow.id (shift_row team r))%string) L
                    = None).
    { apply find_key_none. intros t Ht Heq. apply Hhd.
      cbn in Heq. rewrite <- E, <- Heq. now apply in_map. }
    now rewrite Hnone.
Qed.

Lemma for_of_shift_ok (teamsToShift : list (string * Z)) (w : World) :
  for_of teamsToShift
    (fun team =>
       _ <- mutate (with_teams_table
                      (update_eq TeamsRow.id (fst team)
                         (TeamsRow.with_positions (snd team) (snd team + 1)))) ;;
       ret tt)
    (w, [])
  = (Resolved tt, (with_teams_table (shift_all teamsToShift) w, [])).
Proof.
  revert w. induction teamsToShift as [|team L IH]; intros w.
  - destruct w as [[a b c d e] u]. reflexivity.
  - cbn [for_of]. unfold bind at 1. rewrite bind_mutate_ok.
    cbv [ret]. rewrite IH. reflexivity.
Qed.

Lemma updatePositions_ok (challengerTeamId : string)
    (challengerTeam challengedTeam : TeamsRow.t) (w : World) :
  updatePositions challengerTeamId challengerTeam challengedTeam (w, [])
  = (Resolved tt,
     (with_teams_table
        (positions_after_steps challengerTeamId challengerTeam challengedTeam)
        w, [])).
Proof.
  unfold updatePositions.
  rewrite bind_mutate_ok, bind_query_ok.
  unfold bind at 1. rewrite for_of_shift_ok.
  rewrite bind_mutate_ok. reflexivity.
Qed.

Lemma NoDup_keys_filter {R K} (key : R -> K) (keep : R -> bool)
    (rows : list R) :
  NoDup (map key rows) -> NoDup (map key (filter keep rows)).
Proof.
  induction rows as [|x rows IH]; cbn; intros ND; [constructor|].
  inversion ND as [|? ? Hx ND']; subst.
  destruct (keep x); cbn; auto.
  constructor; auto.
  intros Hin. apply Hx. apply in_map_iff in Hin as (y & Hy & Hin).
  apply filter_In in Hin as [Hin _]. rewrite <- Hy. now apply in_map.
Qed.

Lemma NoDup_map_injective {A B} (f : A -> B) (l : list A) (x y : A) :
  NoDup (map f l) -> In x l -> In y l -> f x = f y -> x = y.
Proof.
  induction l as [|z l IH]; cbn; intros ND Hx Hy E; [contradiction|].
  inversion ND as [|? ? Hz ND']; subst.
  destruct Hx as [->|Hx], Hy as [->|Hy]; auto.
  - exfalso. apply Hz. rewrite E. now apply in_map.
  - exfalso. apply Hz. rewrite <- E. now apply in_map.
Qed.

(** The three steps compute the reference function, whatever the order in
    which the store lists the teams to shift. *)
Lemma positions_after_steps_reference (challengerTeamId : string)
    (challengerTeam challengedTeam : TeamsRow.t) (rows : list TeamsRow.t) :
  NoDup (map TeamsRow.id rows) ->
  positions_after_steps challengerTeamId challengerTeam challengedTeam rows
  = ranking_reference challengerTeamId (TeamsRow.league challengerTeam)
      (TeamsRow.position challengedTeam) (TeamsRow.position challengerTeam)
      rows.
Proof.
  intros ND. unfold positions_after_steps.
  set (lo := TeamsRow.position challengedTeam).
  set (hi := TeamsRow.position challengerTeam).
  set (lg := TeamsRow.league challengerTeam).
  set (rows1 := update_eq TeamsRow.id challengerTeamId
                  (TeamsRow.with_position temp_position) rows).
  set (sorted := order_by position_descending
                   (filter (in_shift_range lg lo hi) rows1)).
  assert (ND1 : NoDup (map TeamsRow.id rows1)).
  { unfold rows1. now rewrite update_eq_keys. }
  assert (NDL : NoDup (map fst
                         (map (fun t => (TeamsRow.id t, TeamsRow.position t))
                              sorted))).
  { rewrite map_map. cbn [fst].
    eapply Permutation_NoDup.
    - apply Permutation_map. symmetry. apply order_by_perm.
    - now apply NoDup_keys_filter. }
  rewrite (shift_all_map _ _ NDL).
  unfold rows1 at 1. unfold update_eq, ranking_reference.
  rewrite !map_map. apply map_ext_in. intros r Hr.
  destruct (String.eqb_spec (TeamsRow.id r) challengerTeamId) as [E|E].
  - (* the challenger *)
    cbn [TeamsRow.id TeamsRow.with_position].
    match goal with
    | |- context [find ?p ?l] => destruct (find p l)
    end; cbn; rewrite E, String.eqb_refl; reflexivity.
  - (* another team: step 1 and step 3 leave it *)
    assert (Hr1 : In r rows1).
    { unfold rows1, update_eq. apply in_map_iff. exists r. split; auto.
      destruct (String.eqb_spec (TeamsRow.id r) challengerTeamId); congruence. }
    replace (League_eqb (TeamsRow.league r) lg && (lo <=? TeamsRow.position r)
             && (TeamsRow.position r <? hi))
      with (in_shift_range lg lo hi r)
      by (unfold in_shift_range; now rewrite Z.geb_leb).
    destruct (in_shift_range lg lo hi r) eqn:P.
    + assert (Hin : In (TeamsRow.id r, TeamsRow.position r)
                       (map (fun t => (TeamsRow.id t, TeamsRow.position t))
                            sorted)).
      { apply in_map_iff. exists r. split; auto.
        apply (Permutation_in _ (Permutation_sym (order_by_perm _ _))).
        apply filter_In. auto. }
      pose proof (find_key_in fst _ _ NDL Hin) as F. cbn [fst] in F.
      rewrite F. cbn.
      destruct (String.eqb_spec (TeamsRow.id r) challengerTeamId);
        [contradiction | reflexivity].
    + rewrite find_key_none.
      * destruct (String.eqb_spec (TeamsRow.id r) challengerTeamId);
          [contradiction | reflexivity].
      * intros team Ht Heq.
        apply in_map_iff in Ht as (r' & <- & Hr').
        apply (Permutation_in _ (order_by_perm _ _)) in Hr'.
        apply filter_In in Hr' as [Hr' P'].
        cbn [fst] in Heq.
        assert (r' = r)
          by (eapply NoDup_map_injective; eauto).
        congruence.
Qed.

(** ** [validateScore] and [submitScore], every call carried out *)

Lemma validateScore_unknown (challengeId : string) (valid : bool)
    (s : World * list Reply) :
  find (fun c => (Challenge.id c =? challengeId)%string)
       (challenges (ui (fst s))) = None ->
  validateScore challengeId valid s = (Resolved tt, s).
Proof.
  intros H. unfold validateScore. rewrite bind_world, H. reflexivity.
Qed.

Lemma validateScore_no_score (challengeId : string) (valid : bool)
    (s : World * list Reply) (challenge : Challenge.t) :
  find (fun c => (Challenge.id c =? challengeId)%string)
       (challenges (ui (fst s))) = Some challenge ->
  Challenge.score challenge = None ->
  validateScore challengeId valid s = (Resolved tt, s).
Proof.
  intros H1 H2. unfold validateScore. rewrite bind_world, H1, H2. reflexivity.
Qed.

Lemma validateScore_dispute_ok (challengeId : string) (w : World)
    (challenge : Challenge.t) (score : Score) :
  find (fun c => (Challenge.id c =? challengeId)%string)
       (challenges (ui w)) = Some challenge ->
  Challenge.score challenge = Some score ->
  validateScore challengeId false (w, [])
  = (Resolved tt,
     (refreshed (with_challenges_table
                   (update_eq ChallengesRow.id challengeId dispute_payload) w),
      [])).
Proof.
  intros H1 H2. unfold validateScore. rewrite bind_world. cbn [fst].
  rewrite H1, H2. cbn [negb]. rewrite bind_mutate_ok.
  apply refreshData_ok.
Qed.

Lemma validateScore_accept_ok (challengeId : string) (w : World)
    (challenge : Challenge.t) (score : Score) :
  find (fun c => (Challenge.id c =? challengeId)%string)
       (challenges (ui w)) = Some challenge ->
  Challenge.score challenge = Some score ->
  validateScore challengeId true (w, [])
  = (Resolved tt, (validated_world challengeId challenge score w, [])).
Proof.
  intros H1 H2. unfold validateScore. rewrite bind_world. cbn [fst].
  rewrite H1, H2. cbn [negb]. rewrite bind_mutate_ok.
  unfold validated_world, accepted_positions.
  destruct (computed_winner challenge score
            =? Challenge.challengerTeamId challenge)%string.
  2:{ rewrite refreshData_ok. reflexivity. }
  rewrite bind_query_ok.
  cbn [with_challenges_table db teams_table].
  destruct (List.length _ <? 2)%nat.
  { rewrite refreshData_ok. reflexivity. }
  unfold team_row. clear H1 H2.
  destruct (find (fun t => (TeamsRow.id t
                            =? Challenge.challengerTeamId challenge)%string) _)
    as [challengerTeam|].
  2:{ rewrite bind_ret, refreshData_ok. reflexivity. }
  destruct (find (fun t => (TeamsRow.id t
                            =? Challenge.challengedTeamId challenge)%string) _)
    as [challengedTeam|].
  2:{ rewrite bind_ret, refreshData_ok. reflexivity. }
  destruct (TeamsRow.position challengerTeam
            >? TeamsRow.position challengedTeam).
  2:{ rewrite bind_ret, refreshData_ok. reflexivity. }
  unfold bind at 1. rewrite updatePositions_ok, refreshData_ok. reflexivity.
Qed.

Lemma submitScore_ok (challengeId : string) (cs ds : list number)
    (teamId : string) (w : World) :
  submitScore challengeId cs ds teamId (w, [])
  = (Resolved tt,
     (let w' := with_challenges_table
                  (update_eq ChallengesRow.id challengeId
                             (submit_payload cs ds teamId)) w in
      setChallenges (map to_Challenge (challenges_table (db w'))) w',
      [])).
Proof. reflexivity. Qed.

Lemma find_filter {A} (p q : A -> bool) (l : list A) :
  (forall x, p x = true -> q x = true) ->
  find p (filter q l) = find p l.
Proof.
  intros Hpq. induction l as [|x l IH]; cbn; [reflexivity|].
  destruct (q x) eqn:Q; cbn.
  - now rewrite IH.
  - destruct (p x) eqn:P; [| exact IH].
    apply Hpq in P. congruence.
Qed.

Lemma two_distinct_length {A} (l : list A) (x y : A) :
  In x l -> In y l -> x <> y -> (2 <= List.length l)%nat.
Proof.
  destruct l as [|a [|b l]]; cbn; intros Hx Hy Hxy.
  - contradiction.
  - destruct Hx as [<-|[]], Hy as [<-|[]]. congruence.
  - lia.
Qed.

(** With the primary key in force, the code computes the positions of the
    specification. *)
Lemma accepted_positions_reference (challenge : Challenge.t) (score : Score)
    (rows : list TeamsRow.t) :
  NoDup (map TeamsRow.id rows) ->
  accepted_positions challenge score rows
  = validated_positions challenge score rows.
Proof.
  intros ND. unfold accepted_positions, validated_positions, team_row.
  destruct (computed_winner challenge score
            =? Challenge.challengerTeamId challenge)%string; [| reflexivity].
  set (c := Challenge.challengerTeamId challenge).
  set (d := Challenge.challengedTeamId challenge).
  set (member := fun t : TeamsRow.t =>
                   existsb (String.eqb (TeamsRow.id t)) [c; d]).
  assert (Fc : find (fun t => (TeamsRow.id t =? c)%string) (filter member rows)
               = find (fun t => (TeamsRow.id t =? c)%string) rows).
  { apply find_filter. intros x Hx. unfold member. cbn. now rewrite Hx. }
  assert (Fd : find (fun t => (TeamsRow.id t =? d)%string) (filter member rows)
               = find (fun t => (TeamsRow.id t =? d)%string) rows).
  { apply find_filter. intros x Hx. unfold member. cbn.
    rewrite Hx. now rewrite !orb_true_r. }
  rewrite Fc, Fd.
  destruct (Nat.ltb_spec (List.length (filter member rows)) 2) as [Hlen|Hlen].
  - (* fewer than two fresh rows: a team is missing, or both are one team *)
    destruct (find (fun t => (TeamsRow.id t =? c)%string) rows) as [ct|] eqn:Ec;
      [| reflexivity].
    destruct (find (fun t => (TeamsRow.id t =? d)%string) rows) as [dt|] eqn:Ed;
      [| reflexivity].
    apply find_key_some in Ec as [Hct Ic], Ed as [Hdt Id].
    destruct (String.eqb_spec c d) as [Ecd|Ecd].
    + assert (ct = dt)
        by (eapply NoDup_map_injective; eauto; congruence).
      subst dt. cbn.
      destruct (Z.gtb_spec (TeamsRow.position ct) (TeamsRow.position ct));
        [lia | reflexivity].
    + exfalso.
      assert (2 <= List.length (filter member rows))%nat; [| lia].
      apply (two_distinct_length _ ct dt).
      * apply filter_In. split; auto. unfold member. cbn.
        rewrite Ic, String.eqb_refl. reflexivity.
      * apply filter_In. split; auto. unfold member. cbn.
        rewrite Id, String.eqb_refl. now rewrite !orb_true_r.
      * congruence.
  - destruct (find (fun t => (TeamsRow.id t =? c)%string) rows) as [ct|];
      [| reflexivity].
    destruct (find (fun t => (TeamsRow.id t =? d)%string) rows) as [dt|];
      [| reflexivity].
    cbn. destruct (TeamsRow.position ct >? TeamsRow.position dt);
      [| reflexivity].
    now apply positions_after_steps_reference.
Qed.

(** C1.  An accepted validation of a challenge with a submitted score, in a
    store with its primary key on teams and carrying out every call, leaves
    the teams as the reference ranking function does: when the challenger is
    the computed winner and its position [winnerOldPos] is greater than the
    position [loserPos] of the challenged team, every team of the
    challenger's league with [loserPos <= p < winnerOldPos] gets position
    [p + 1] and previous position [p], the challenger gets [loserPos] and
    previous position [winnerOldPos], every other team is as before; when
    the challenged team is the winner, or [winnerOldPos <= loserPos], no
    team changes. *)
Theorem validateScore_accept_positions (challengeId : string) (w : World)
    (challenge : Challenge.t) (score : Score) :
  NoDup (map TeamsRow.id (teams_table (db w))) ->
  find (fun c => (Challenge.id c =? challengeId)%string)
       (challenges (ui w)) = Some challenge ->
  Challenge.score challenge = Some score ->
  teams_table (db (run_ok (validateScore challengeId true) w))
  = validated_positions challenge score (teams_table (db w)).
Proof.
  intros ND Hfind Hscore. unfold run_ok.
  rewrite (validateScore_accept_ok _ _ _ _ Hfind Hscore).
  cbn. now apply accepted_positions_reference.
Qed.

(** ** Dense ladders *)

Lemma in_one_to (n : nat) (x : Z) :
  In x (one_to n) <-> 1 <= x <= Z.of_nat n.
Proof.
  unfold one_to. rewrite in_map_iff. split.
  - intros (k & <- & Hk). apply in_seq in Hk. lia.
  - intros H. exists (Z.to_nat x). split; [lia|]. apply in_seq. lia.
Qed.

Lemma NoDup_one_to (n : nat) : NoDup (one_to n).
Proof.
  unfold one_to. apply Injective_map_NoDup.
  - intros a b. apply Nat2Z.inj.
  - apply seq_NoDup.
Qed.

Lemma length_one_to (n : nat) : List.length (one_to n) = n.
Proof. unfold one_to. now rewrite length_map, length_seq. Qed.

Lemma one_to_S (n : nat) : one_to (S n) = one_to n ++ [Z.of_nat n + 1].
Proof.
  unfold one_to. rewrite seq_S, map_app. cbn [map]. f_equal. f_equal. lia.
Qed.

Lemma dense_in (l : League) (rows : list TeamsRow.t) (p : Z) :
  dense l rows ->
  (In p (league_positions l rows)
   <-> 1 <= p <= Z.of_nat (List.length (league_positions l rows))).
Proof.
  intros D. rewrite <- in_one_to. split; apply Permutation_in; auto.
  now symmetry.
Qed.

Lemma dense_NoDup (l : League) (rows : list TeamsRow.t) :
  dense l rows -> NoDup (league_positions l rows).
Proof.
  intros D. eapply Permutation_NoDup; [symmetry; exact D|].
  apply NoDup_one_to.
Qed.

Lemma rotate_injective (lo hi : Z) :
  lo < hi -> Injective (rotate lo hi).
Proof.
  intros Hlt x y. unfold rotate.
  destruct (Z.eqb_spec x hi), (Z.eqb_spec y hi),
    (Z.leb_spec lo x), (Z.ltb_spec x hi),
    (Z.leb_spec lo y), (Z.ltb_spec y hi); cbn; lia.
Qed.

Lemma rotate_one_to (lo hi : Z) (n : nat) :
  1 <= lo -> lo < hi -> hi <= Z.of_nat n ->
  Permutation (map (rotate lo hi) (one_to n)) (one_to n).
Proof.
  intros H1 H2 H3. apply NoDup_Permutation.
  - apply Injective_map_NoDup;
      [now apply rotate_injective | apply NoDup_one_to].
  - apply NoDup_one_to.
  - intros x. rewrite in_map_iff, in_one_to. split.
    + intros (y & <- & Hy). apply in_one_to in Hy. unfold rotate.
      destruct (Z.eqb_spec y hi), (Z.leb_spec lo y), (Z.ltb_spec y hi);
        cbn; lia.
    + intros Hx.
      exists (if x =? lo then hi
              else if (lo <? x) && (x <=? hi) then x - 1 else x).
      rewrite in_one_to. unfold rotate.
      destruct (Z.eqb_spec x lo), (Z.ltb_spec lo x), (Z.leb_spec x hi); cbn;
        repeat match goal with
               | |- context [(?u <? ?v)] => destruct (Z.ltb_spec u v)
               | |- context [(?u =? ?v)] => destruct (Z.eqb_spec u v)
               | |- context [(?u <=? ?v)] => destruct (Z.leb_spec u v)
               end; cbn; lia.
Qed.

Lemma filter_map_comm {A B} (f : A -> B) (p : B -> bool) (l : list A) :
  filter p (map f l) = map f (filter (fun x => p (f x)) l).
Proof.
  induction l as [|x l IH]; cbn; [reflexivity|].
  destruct (p (f x)); cbn; now rewrite IH.
Qed.

Lemma Permutation_filter {A} (p : A -> bool) (l l' : list A) :
  Permutation l l' -> Permutation (filter p l) (filter p l').
Proof.
  induction 1 as [| x l l' _ IH | x y l | l l' l'' _ IH1 _ IH2]; cbn.
  - constructor.
  - destruct (p x); auto.
  - destruct (p x), (p y); auto. apply perm_swap.
  - now transitivity (filter p l').
Qed.

Lemma ranking_reference_ids (c : string) (lg : League) (lo hi : Z)
    (rows : list TeamsRow.t) :
  map TeamsRow.id (ranking_reference c lg lo hi rows) = map TeamsRow.id rows.
Proof.
  unfold ranking_reference. rewrite map_map. apply map_ext. intros t.
  destruct (TeamsRow.id t =? c)%string; [reflexivity|].
  destruct (_ && _); reflexivity.
Qed.

(** The reference function team by team, in the words of the claim. *)
Lemma ranking_reference_per_team (c : string) (lg : League) (lo hi : Z)
    (rows : list TeamsRow.t) :
  exists F,
    ranking_reference c lg lo hi rows = map F rows
    /\ forall t,
         TeamsRow.id (F t) = TeamsRow.id t
         /\ TeamsRow.league (F t) = TeamsRow.league t
         /\ (TeamsRow.id t = c ->
             TeamsRow.position (F t) = lo
             /\ TeamsRow.previous_position (F t) = Some hi)
         /\ (TeamsRow.id t <> c -> TeamsRow.league t = lg ->
             lo <= TeamsRow.position t < hi ->
             TeamsRow.position (F t) = TeamsRow.position t + 1
             /\ TeamsRow.previous_position (F t)
                = Some (TeamsRow.position t))
         /\ (TeamsRow.id t <> c ->
             ~ (TeamsRow.league t = lg /\ lo <= TeamsRow.position t < hi) ->
             F t = t).
Proof.
  eexists. split; [reflexivity|]. intros t. cbv beta.
  destruct (String.eqb_spec (TeamsRow.id t) c) as [E|E].
  - repeat split; auto; contradiction.
  - destruct (League_eqb (TeamsRow.league t) lg
              && (lo <=? TeamsRow.position t)
              && (TeamsRow.position t <? hi)) eqn:Hc.
    + apply andb_true_iff in Hc as [Hc H3].
      apply andb_true_iff in Hc as [H1 H2].
      apply League_eqb_eq in H1. apply Z.leb_le in H2. apply Z.ltb_lt in H3.
      split; [reflexivity|]. split; [reflexivity|].
      split; [intros; contradiction|].
      split; [intros; split; reflexivity|].
      intros _ Hn. exfalso. apply Hn. auto.
    + split; [reflexivity|]. split; [reflexivity|].
      split; [intros; contradiction|].
      split; [| reflexivity].
      intros _ Hl [H2 H3]. exfalso.
      apply League_eqb_eq in Hl. apply Z.leb_le in H2. apply Z.ltb_lt in H3.
      rewrite Hl, H2, H3 in Hc. discriminate.
Qed.

(** The reference function leaves the leagues it is not about alone, and
    rotates the positions of its own league. *)
Lemma ranking_reference_positions (c : string) (ct : TeamsRow.t)
    (lo : Z) (l : League) (rows : list TeamsRow.t) :
  NoDup (map TeamsRow.id rows) ->
  NoDup (league_positions (TeamsRow.league ct) rows) ->
  team_row rows c = Some ct ->
  league_positions l
    (ranking_reference c (TeamsRow.league ct) lo (TeamsRow.position ct) rows)
  = if League_eqb l (TeamsRow.league ct)
    then map (rotate lo (TeamsRow.position ct)) (league_positions l rows)
    else league_positions l rows.
Proof.
  intros ND NDP Hc. apply find_key_some in Hc as [Hin Hid].
  set (lg := TeamsRow.league ct). set (hi := TeamsRow.position ct).
  unfold league_positions, ranking_reference.
  rewrite filter_map_comm, map_map.
  assert (Hfilter :
    filter (fun x =>
              League_eqb
                (TeamsRow.league
                   (if (TeamsRow.id x =? c)%string
                    then TeamsRow.with_positions hi lo x
                    else if League_eqb (TeamsRow.league x) lg
                            && (lo <=? TeamsRow.position x)
                            && (TeamsRow.position x <? hi)
                         then TeamsRow.with_positions (TeamsRow.position x)
                                (TeamsRow.position x + 1) x
                         else x)) l) rows
    = filter (fun t => League_eqb (TeamsRow.league t) l) rows).
  { apply filter_ext. intros t.
    destruct (TeamsRow.id t =? c)%string; [reflexivity|].
    destruct (_ && _); reflexivity. }
  rewrite Hfilter.
  destruct (League_eqb l lg) eqn:El.
  - apply League_eqb_eq in El. subst l.
    rewrite map_map. apply map_ext_in. intros t Ht.
    apply filter_In in Ht as [Ht Hl]. unfold rotate.
    destruct (String.eqb_spec (TeamsRow.id t) c) as [E|E].
    + assert (t = ct)
        by (apply (NoDup_map_injective TeamsRow.id rows); auto; congruence).
      subst t. cbn. fold hi. now rewrite Z.eqb_refl.
    + rewrite Hl. cbn [andb].
      destruct (Z.eqb_spec (TeamsRow.position t) hi) as [Ep|Ep].
      * exfalso. apply E. rewrite <- Hid. f_equal.
        eapply (NoDup_map_injective TeamsRow.position); [exact NDP | | | exact Ep];
          apply filter_In; split; auto. apply League_eqb_refl.
      * destruct (_ && _); reflexivity.
  - apply map_ext_in. intros t Ht.
    apply filter_In in Ht as [Ht Hl].
    destruct (String.eqb_spec (TeamsRow.id t) c) as [E|E].
    + assert (t = ct)
        by (apply (NoDup_map_injective TeamsRow.id rows); auto; congruence).
      subst t. fold lg in Hl. apply League_eqb_eq in Hl.
      rewrite <- Hl, League_eqb_refl in El. discriminate.
    + destruct (League_eqb (TeamsRow.league t) lg) eqn:Et.
      * apply League_eqb_eq in Et, Hl. rewrite <- Et, Hl, League_eqb_refl in El.
        discriminate.
      * reflexivity.
Qed.

Lemma validated_positions_ladder (challenge : Challenge.t) (score : Score)
    (rows : list TeamsRow.t) :
  NoDup (map TeamsRow.id rows) ->
  (forall l, dense l rows) ->
  let rows' := validated_positions challenge score rows in
  NoDup (map TeamsRow.id rows')
  /\ (forall l, dense l rows')
  /\ (forall l, List.length (league_positions l rows')
                = List.length (league_positions l rows)).
Proof.
  intros ND D. unfold validated_positions.
  destruct (_ =? _)%string; [| now auto].
  destruct (team_row rows (Challenge.challengerTeamId challenge))
    as [ct|] eqn:Ec; [| now auto].
  destruct (team_row rows (Challenge.challengedTeamId challenge))
    as [dt|] eqn:Ed; [| now auto].
  cbn zeta.
  destruct (Z.gtb_spec (TeamsRow.position ct) (TeamsRow.position dt))
    as [Hgt|Hle]; [| now auto].
  set (lo := TeamsRow.position dt). set (hi := TeamsRow.position ct).
  pose proof (fun l => ranking_reference_positions
                         (Challenge.challengerTeamId challenge) ct lo l rows
                         ND (dense_NoDup _ _ (D _)) Ec) as P.
  fold hi in P.
  assert (Hlen : forall l,
             List.length (league_positions l
                (ranking_reference (Challenge.challengerTeamId challenge)
                   (TeamsRow.league ct) lo hi rows))
             = List.length (league_positions l rows)).
  { intros l. rewrite P. destruct (League_eqb l (TeamsRow.league ct)); auto.
    apply length_map. }
  split; [| split]; auto.
  - now rewrite ranking_reference_ids.
  - intros l. unfold dense. rewrite Hlen. rewrite P.
    destruct (League_eqb l (TeamsRow.league ct)) eqn:El; [| apply D].
    apply League_eqb_eq in El. subst l.
    transitivity (map (rotate lo hi)
                      (one_to (List.length
                                 (league_positions (TeamsRow.league ct) rows)))).
    { apply Permutation_map, D. }
    apply find_key_some in Ec as [Hct _], Ed as [Hdt _].
    apply rotate_one_to.
    + apply (dense_in (TeamsRow.league dt) rows lo (D _)).
      unfold league_positions. apply in_map, filter_In. split; auto.
      apply League_eqb_refl.
    + unfold lo, hi. lia.
    + apply (dense_in (TeamsRow.league ct) rows hi (D _)).
      unfold league_positions. apply in_map, filter_In. split; auto.
      apply League_eqb_refl.
Qed.

Lemma league_positions_snoc (l : League) (rows : list TeamsRow.t)
    (new : TeamsRow.t) :
  league_positions l (rows ++ [new])
  = if League_eqb (TeamsRow.league new) l
    then league_positions l rows ++ [TeamsRow.position new]
    else league_positions l rows.
Proof.
  unfold league_positions. rewrite filter_app. cbn [filter].
  destruct (League_eqb (TeamsRow.league new) l).
  - now rewrite map_app.
  - now rewrite app_nil_r.
Qed.

(** A team appended at position [N + 1] keeps every league dense. *)
Lemma dense_snoc (rows : list TeamsRow.t) (new : TeamsRow.t) :
  (forall l, dense l rows) ->
  TeamsRow.position new
  = Z.of_nat (List.length (league_positions (TeamsRow.league new) rows)) + 1 ->
  forall l, dense l (rows ++ [new]).
Proof.
  intros D Hp l. unfold dense. rewrite league_positions_snoc.
  destruct (League_eqb (TeamsRow.league new) l) eqn:El; [| apply D].
  apply League_eqb_eq in El. subst l.
  rewrite length_app. cbn [List.length]. rewrite Nat.add_1_r, one_to_S, Hp.
  apply Permutation_app_tail, D.
Qed.

Lemma refreshed_counts (w : World) (l : League) :
  List.length (filter (fun t => League_eqb (Team.league t) l)
                      (teams (ui (refreshed w))))
  = List.length (league_positions l (teams_table (db w))).
Proof.
  unfold refreshed, select_teams_with_profiles, league_positions.
  cbn [ui teams]. rewrite map_map, filter_map_comm, !length_map.
  cbn [to_Team fst Team.league].
  apply Permutation_length, Permutation_filter, order_by_perm.
Qed.

Lemma createTeam_ok (uuid name creatorId : string) (league : League)
    (w : World) :
  createTeam uuid name creatorId league (w, [])
  = (let data := new_team_row uuid name creatorId league w in
     (Resolved
        (Some (Team.mk uuid name creatorId [creatorId] league
                       (TeamsRow.position data) (TeamsRow.position data))),
      (refreshed
         (with_profiles_table
            (update_eq ProfilesRow.id creatorId
               (fun p => ProfilesRow.mk (ProfilesRow.id p) (Some uuid)))
            (with_teams_table (fun rows => rows ++ [data]) w)),
       []))).
Proof.
  unfold createTeam. rewrite bind_world. cbn [fst].
  rewrite bind_mutate_ok, bind_mutate_ok, bind_refreshData_ok.
  reflexivity.
Qed.

(** ** The ladder invariant along the operations *)

Lemma ladder_ok_same (w w' : World) :
  teams_table (db w') = teams_table (db w) ->
  teams (ui w') = teams (ui w) ->
  ladder_ok w -> ladder_ok w'.
Proof. unfold ladder_ok. intros -> ->. auto. Qed.

Lemma ladder_ok_refreshed (w : World) :
  NoDup (map TeamsRow.id (teams_table (db w))) ->
  (forall l, dense l (teams_table (db w))) ->
  ladder_ok (refreshed w).
Proof.
  intros ND D. split; [exact ND | split; [exact D |]].
  intros l. exact (refreshed_counts w l).
Qed.

(** The operations on challenges leave the teams alone, in the store and in
    the client, whatever the replies. *)
Lemma createChallenge_teams (uuid a b : string) (s : World * list Reply) :
  teams_table (db (fst (snd (createChallenge uuid a b s))))
  = teams_table (db (fst s))
  /\ teams (ui (fst (snd (createChallenge uuid a b s)))) = teams (ui (fst s)).
Proof.
  unfold createChallenge. rewrite bind_world.
  destruct (find _ _); [split; reflexivity|].
  destruct s as [w [|[m|] rs]]; try (split; reflexivity).
  rewrite bind_mutate_carried.
  rewrite fetchChallenges_teams.
  destruct (fetchChallenges_db
              (with_challenges_table
                 (fun rows =>
                    ChallengesRow.mk uuid a b accepted None None None false None
                    :: rows) w, rs)) as [_ ->].
  split; reflexivity.
Qed.

Lemma respondToChallenge_teams (challengeId : string) (accept : bool)
    (s : World * list Reply) :
  teams_table (db (fst (snd (respondToChallenge challengeId accept s))))
  = teams_table (db (fst s))
  /\ teams (ui (fst (snd (respondToChallenge challengeId accept s))))
     = teams (ui (fst s)).
Proof.
  destruct s as [w [|[m|] rs]]; split; reflexivity.
Qed.

Lemma submitScore_teams (challengeId : string) (cs ds : list number)
    (teamId : string) (s : World * list Reply) :
  teams_table (db (fst (snd (submitScore challengeId cs ds teamId s))))
  = teams_table (db (fst s))
  /\ teams (ui (fst (snd (submitScore challengeId cs ds teamId s))))
     = teams (ui (fst s)).
Proof.
  destruct s as [w [|[m|] rs]]; try (split; reflexivity).
  unfold submitScore. rewrite bind_mutate_carried.
  rewrite fetchChallenges_teams.
  destruct (fetchChallenges_db
              (with_challenges_table
                 (update_eq ChallengesRow.id challengeId
                            (submit_payload cs ds teamId)) w, rs)) as [_ ->].
  split; reflexivity.
Qed.

Lemma requestToJoin_teams (uuid userId teamId : string)
    (s : World * list Reply) :
  teams_table (db (fst (snd (requestToJoin uuid userId teamId s))))
  = teams_table (db (fst s))
  /\ teams (ui (fst (snd (requestToJoin uuid userId teamId s))))
     = teams (ui (fst s)).
Proof.
  destruct s as [w [|[m|] rs]]; split; reflexivity.
Qed.

Lemma updateSettings_teams (newSettings : PartialLeagueSettings.t)
    (s : World * list Reply) :
  teams_table (db (fst (snd (updateSettings newSettings s))))
  = teams_table (db (fst s))
  /\ teams (ui (fst (snd (updateSettings newSettings s))))
     = teams (ui (fst s)).
Proof.
  destruct s as [[d u] [|[m|] rs]]; cbn;
    destruct (settings u); split; reflexivity.
Qed.

Lemma respondToJoinRequest_ladder_ok (requestId : string) (accept : bool)
    (w : World) :
  ladder_ok w -> ladder_ok (run_ok (respondToJoinRequest requestId accept) w).
Proof.
  intros H. pose proof H as (ND & D & _).
  unfold run_ok, respondToJoinRequest. rewrite bind_world. cbn [fst].
  destruct (find _ (joinRequests (ui w))) as [request|]; [| exact H].
  destruct accept.
  - rewrite bind_assoc, bind_query_ok.
    destruct (select_team_with_profiles _ _) as [|teamData [|]];
      try exact H.
    destruct (4 <=? List.length (snd teamData))%nat; [exact H|].
    rewrite bind_assoc, bind_mutate_ok, bind_ret, bind_mutate_ok,
      refreshData_ok.
    now apply ladder_ok_refreshed.
  - rewrite bind_ret, bind_mutate_ok, refreshData_ok.
    now apply ladder_ok_refreshed.
Qed.

Lemma perform_ladder_ok (op : Op) (w : World) :
  ladder_ok w -> fresh_key op w -> ladder_ok (run_ok (perform op) w).
Proof.
  intros H Hfresh. pose proof H as (ND & D & C). unfold run_ok.
  destruct op as [uuid name creatorId league | uuid userId teamId
                 | rid accept | uuid a b | cid accept
                 | cid cs ds tid | cid valid | newSettings | | | | ];
    cbn [perform fresh_key] in *.
  - (* createTeam *)
    unfold bind. rewrite createTeam_ok. cbn [fst snd].
    apply ladder_ok_refreshed; cbn [with_profiles_table with_teams_table db
                                    teams_table].
    + rewrite map_app. cbn [map TeamsRow.id new_team_row].
      eapply Permutation_NoDup; [apply Permutation_cons_append|].
      now constructor.
    + apply dense_snoc; auto.
      cbn [new_team_row TeamsRow.position TeamsRow.league]. now rewrite C.
  - destruct (requestToJoin_teams uuid userId teamId (w, [])) as [E1 E2].
    eapply ladder_ok_same; eauto.
  - now apply respondToJoinRequest_ladder_ok.
  - destruct (createChallenge_teams uuid a b (w, [])) as [E1 E2].
    eapply ladder_ok_same; eauto.
  - destruct (respondToChallenge_teams cid accept (w, [])) as [E1 E2].
    eapply ladder_ok_same; eauto.
  - destruct (submitScore_teams cid cs ds tid (w, [])) as [E1 E2].
    eapply ladder_ok_same; eauto.
  - (* validateScore *)
    destruct (find (fun c => (Challenge.id c =? cid)%string)
                   (challenges (ui w))) as [challenge|] eqn:Hfind.
    2:{ rewrite validateScore_unknown by exact Hfind. exact H. }
    destruct (Challenge.score challenge) as [score|] eqn:Hscore.
    2:{ rewrite (validateScore_no_score _ _ _ challenge) by assumption.
        exact H. }
    destruct valid.
    + rewrite (validateScore_accept_ok _ _ _ _ Hfind Hscore). cbn [fst snd].
      unfold validated_world.
      destruct (validated_positions_ladder challenge score _ ND D)
        as (ND' & D' & _).
      apply ladder_ok_refreshed; cbn [db teams_table];
        now rewrite accepted_positions_reference.
    + rewrite (validateScore_dispute_ok _ _ _ _ Hfind Hscore). cbn [fst snd].
      now apply ladder_ok_refreshed.
  - destruct (updateSettings_teams newSettings (w, [])) as [E1 E2].
    eapply ladder_ok_same; eauto.
  - rewrite refreshData_ok. now apply ladder_ok_refreshed.
  - (* fetchTeams *)
    split; [exact ND | split; [exact D |]].
    intros l. exact (refreshed_counts w l).
  - (* fetchJoinRequests *) exact H.
  - (* fetchChallenges *) exact H.
Qed.

Lemma reachable_ladder_ok (w : World) : reachable w -> ladder_ok w.
Proof.
  induction 1 as [profiles league_settings | w op _ IH Hfresh].
  - split; [constructor | split].
    + intros l. unfold dense. cbn. constructor.
    + reflexivity.
  - now apply perform_ladder_ok.
Qed.

(** C2.  In every state the operations reach from an empty ladder, and for
    every operation run from it (among them [createTeam] and the ranking
    update of [validateScore]), the store carrying out every call, the
    positions of each league are a dense permutation of [1..N], [N] the
    number of its teams, before the operation and after it. *)
Theorem positions_stay_dense (w : World) (op : Op) (l : League) :
  reachable w -> fresh_key op w ->
  dense l (teams_table (db w))
  /\ dense l (teams_table (db (run_ok (perform op) w))).
Proof.
  intros Hw Hfresh. split.
  - now apply reachable_ladder_ok.
  - apply (reachable_ladder_ok (run_ok (perform op) w)).
    now constructor.
Qed.

(** ** [createTeam] *)

Lemma bind_refreshData_any {B} (k : unit -> Async B) (s : World * list Reply) :
  bind refreshData k s = k tt (snd (refreshData s)).
Proof. apply bind_never_throws, refreshData_db. Qed.

(** C10.  When [createTeam] succeeds, whatever the store replies to its
    later calls, the new team's position and previous position are the
    number of teams of that league (in the client's list, which is the
    store's count when the list is current) plus one, and the rows of the
    existing teams are as before: the new row is appended to them. *)
Theorem createTeam_enters_at_bottom (uuid name creatorId : string)
    (league : League) (w : World) (replies : list Reply) (team : Team.t) :
  fst (createTeam uuid name creatorId league (w, replies))
  = Resolved (Some team) ->
  let n := Z.of_nat (List.length
                       (filter (fun t => League_eqb (Team.league t) league)
                               (teams (ui w)))) in
  let w' := fst (snd (createTeam uuid name creatorId league (w, replies))) in
  teams_table (db w')
  = teams_table (db w)
    ++ [TeamsRow.mk uuid name creatorId league (n + 1) (Some (n + 1))]
  /\ Team.position team = n + 1
  /\ Team.previousPosition team = n + 1
  /\ (teams (ui w) = teams (ui (refreshed w)) ->
      n = Z.of_nat (List.length
                      (league_positions league (teams_table (db w))))).
Proof.
  intros Hres n w'. subst w'.
  assert (Hcount : teams (ui w) = teams (ui (refreshed w)) ->
            n = Z.of_nat (List.length
                            (league_positions league (teams_table (db w))))).
  { intros E. unfold n. rewrite E. now rewrite refreshed_counts. }
  revert Hres. unfold createTeam. rewrite bind_world. cbn [fst].
  destruct replies as [|[message|] rest].
  - rewrite bind_mutate_ok, bind_mutate_ok, bind_refreshData_ok.
    cbn. intros [= <-]. cbn. auto.
  - rewrite bind_mutate_refused. cbn. discriminate.
  - rewrite bind_mutate_carried.
    destruct rest as [|[message|] rest];
      [ rewrite bind_mutate_ok
      | rewrite bind_mutate_refused
      | rewrite bind_mutate_carried ];
      rewrite bind_refreshData_any; cbn [ret fst snd];
      (intros [= <-]; split;
       [ match goal with
         | |- context [refreshData ?s] =>
           destruct (refreshData_db s) as [_ ->]
         end; reflexivity
       | cbn; auto ]).
Qed.

(** ** [createChallenge] *)

Lemma Status_eqb_eq (a b : Status) : Status_eqb a b = true <-> a = b.
Proof. destruct a, b; cbn; split; congruence. Qed.

Lemma active_between_iff (c : Challenge.t) (a b : string) :
  between c a b && active c = true <-> active_between c a b.
Proof.
  unfold between, active, active_between.
  rewrite !andb_true_iff, !orb_true_iff, !andb_true_iff, !String.eqb_eq,
    !Status_eqb_eq, negb_true_iff.
  tauto.
Qed.

(** C6.  When the client's list holds an active challenge between the two
    teams, in either direction, [createChallenge] throws the duplicate
    error and nothing changes, whatever the store would reply; when it holds
    none and the store carries out the calls, a new row with status
    [accepted] is put in front of the table and the list is fetched again. *)
Theorem createChallenge_duplicate_guard (uuid a b : string) (w : World)
    (replies : list Reply) :
  ((exists c, In c (challenges (ui w)) /\ active_between c a b) ->
   createChallenge uuid a b (w, replies)
   = (Threw duplicate_message, (w, replies)))
  /\ ((forall c, In c (challenges (ui w)) -> ~ active_between c a b) ->
      createChallenge uuid a b (w, [])
      = (Resolved tt,
         (let rows := new_challenge_row uuid a b :: challenges_table (db w) in
          setChallenges (map to_Challenge rows)
                        (with_challenges_table (fun _ => rows) w),
          []))
      /\ ChallengesRow.status (new_challenge_row uuid a b) = accepted).
Proof.
  unfold createChallenge. rewrite !bind_world. cbn [fst].
  destruct (find (fun c => between c a b && active c) (challenges (ui w)))
    as [c|] eqn:Hfind.
  - split.
    + reflexivity.
    + intros Hnone. apply find_some in Hfind as [Hin Hc].
      apply active_between_iff in Hc. now elim (Hnone c).
  - split.
    + intros (c & Hin & Hc). apply active_between_iff in Hc.
      pose proof (find_none _ _ Hfind c Hin). congruence.
    + intros _. split; reflexivity.
Qed.

(** ** Dispute and resubmission *)

Lemma update_eq_compose {R} (key : R -> string) (k : string) (f g : R -> R)
    (rows : list R) :
  (forall r, key (g r) = key r) ->
  update_eq key k f (update_eq key k g rows)
  = update_eq key k (fun r => f (g r)) rows.
Proof.
  intros Hg. unfold update_eq. rewrite map_map. apply map_ext. intros r.
  destruct (key r =? k)%string eqn:E.
  - now rewrite Hg, E.
  - now rewrite E.
Qed.

Lemma resubmit_rows (challengeId : string) (cs ds : list number)
    (teamId : string) (rows : list ChallengesRow.t) :
  update_eq ChallengesRow.id challengeId (submit_payload cs ds teamId)
    (update_eq ChallengesRow.id challengeId dispute_payload
       (update_eq ChallengesRow.id challengeId (submit_payload cs ds teamId)
          rows))
  = update_eq ChallengesRow.id challengeId (submit_payload cs ds teamId) rows.
Proof.
  rewrite !update_eq_compose by reflexivity. reflexivity.
Qed.

Lemma submit_rows_twice (challengeId : string) (cs ds : list number)
    (teamId : string) (rows : list ChallengesRow.t) :
  update_eq ChallengesRow.id challengeId (submit_payload cs ds teamId)
    (update_eq ChallengesRow.id challengeId (submit_payload cs ds teamId) rows)
  = update_eq ChallengesRow.id challengeId (submit_payload cs ds teamId) rows.
Proof.
  rewrite update_eq_compose by reflexivity. reflexivity.
Qed.

(** After [submitScore] is carried out, the challenge the client finds under
    that id has the submitted score. *)
Lemma submitted_has_score (challengeId : string) (cs ds : list number)
    (teamId : string) (rows : list ChallengesRow.t) (challenge : Challenge.t) :
  find (fun c => (Challenge.id c =? challengeId)%string)
       (map to_Challenge
            (update_eq ChallengesRow.id challengeId
                       (submit_payload cs ds teamId) rows))
  = Some challenge ->
  Challenge.score challenge = Some (mkScore cs ds).
Proof.
  intros H. apply find_key_some in H as [Hin Hid].
  apply in_map_iff in Hin as (r1 & <- & Hin).
  unfold update_eq in Hin. apply in_map_iff in Hin as (r & <- & _).
  destruct (String.eqb_spec (ChallengesRow.id r) challengeId) as [E|E].
  - reflexivity.
  - cbn in Hid. contradiction.
Qed.

(** C9.  A dispute of a challenge with a submitted score, the store
    carrying out the calls, puts the row back to [accepted] with both set
    arrays and the submitter cleared and the validated flag as it was
    (false for a score not yet validated); and submitting a score,
    disputing it, submitting it again and validating ends in the very world
    that validating the first submission ends in: the same challenge rows
    and the same ranking. *)
Theorem dispute_then_resubmit (challengeId : string) (w : World)
    (cs ds : list number) (teamId : string) :
  (forall challenge score,
      find (fun c => (Challenge.id c =? challengeId)%string)
           (challenges (ui w)) = Some challenge ->
      Challenge.score challenge = Some score ->
      let w' := run_ok (validateScore challengeId false) w in
      challenges_table (db w')
      = update_eq ChallengesRow.id challengeId dispute_payload
                  (challenges_table (db w))
      /\ challenges (ui w') = map to_Challenge (challenges_table (db w'))
      /\ teams_table (db w') = teams_table (db w))
  /\ (forall r,
        ChallengesRow.status (dispute_payload r) = accepted
        /\ ChallengesRow.challenger_sets (dispute_payload r) = None
        /\ ChallengesRow.challenged_sets (dispute_payload r) = None
        /\ ChallengesRow.score_submitted_by (dispute_payload r) = None
        /\ ChallengesRow.score_validated (dispute_payload r)
           = ChallengesRow.score_validated r)
  /\ (let submitted := run_ok (submitScore challengeId cs ds teamId) w in
      run_ok (validateScore challengeId true)
        (run_ok (submitScore challengeId cs ds teamId)
           (run_ok (validateScore challengeId false) submitted))
      = run_ok (validateScore challengeId true) submitted).
Proof.
  split; [| split].
  - intros challenge score Hfind Hscore w'. subst w'. unfold run_ok.
    rewrite (validateScore_dispute_ok _ _ _ _ Hfind Hscore).
    repeat split.
  - intros r. repeat split.
  - cbv zeta.
    assert (Hsub : forall v,
              run_ok (submitScore challengeId cs ds teamId) v
              = mkWorld
                  (mkDb (teams_table (db v))
                        (update_eq ChallengesRow.id challengeId
                           (submit_payload cs ds teamId)
                           (challenges_table (db v)))
                        (profiles_table (db v))
                        (join_requests_table (db v))
                        (league_settings_table (db v)))
                  (mkClient (teams (ui v))
                            (joinRequests (ui v))
                            (map to_Challenge
                               (update_eq ChallengesRow.id challengeId
                                  (submit_payload cs ds teamId)
                                  (challenges_table (db v))))
                            (settings (ui v)))) by reflexivity.
    rewrite !Hsub.
    set (C1 := update_eq ChallengesRow.id challengeId
                         (submit_payload cs ds teamId)
                         (challenges_table (db w))).
    set (w1 := mkWorld _ (mkClient _ _ (map to_Challenge C1) _)).
    destruct (find (fun c => (Challenge.id c =? challengeId)%string)
                   (challenges (ui w1))) as [challenge|] eqn:Hfind.
    + pose proof (submitted_has_score _ _ _ _ _ _ Hfind) as Hscore.
      assert (Hd : run_ok (validateScore challengeId false) w1
                   = refreshed
                       (with_challenges_table
                          (update_eq ChallengesRow.id challengeId
                                     dispute_payload) w1)).
      { unfold run_ok.
        now rewrite (validateScore_dispute_ok _ _ _ _ Hfind Hscore). }
      rewrite Hd.
      cbn [w1 refreshed with_challenges_table db ui teams_table
           challenges_table profiles_table league_settings_table teams
           challenges settings].
      unfold C1. rewrite resubmit_rows. fold C1.
      unfold run_ok.
      rewrite (validateScore_accept_ok challengeId _ challenge
                                       (mkScore cs ds));
        [| exact Hfind | exact Hscore].
      rewrite (validateScore_accept_ok challengeId w1 challenge _ Hfind Hscore).
      cbn [fst snd]. unfold validated_world, refreshed.
      cbn [w1 db ui teams_table challenges_table profiles_table
           league_settings_table teams challenges settings].
      destruct (league_settings_table (db w)); reflexivity.
    + assert (Hd : run_ok (validateScore challengeId false) w1 = w1).
      { unfold run_ok.
        now rewrite (validateScore_unknown challengeId false (w1, [])). }
      rewrite Hd.
      cbn [w1 db ui teams_table challenges_table profiles_table
           league_settings_table teams challenges settings].
      unfold C1. rewrite submit_rows_twice. reflexivity.
Qed.

(** ** The worked ladder *)

Example ladder8_standing :
  standing challenged8
  = [("t1", 1, Some 1); ("t2", 2, Some 2); ("t3", 3, Some 3);
     ("t4", 4, Some 4); ("t5", 5, Some 5); ("t6", 6, Some 6);
     ("t7", 7, Some 7); ("t8", 8, Some 8)].
Proof. vm_compute. reflexivity. Qed.

(** The ranking example of the specification: 6 beats 2. *)
Example validated8_standing :
  standing validated8
  = [("t1", 1, Some 1); ("t2", 3, Some 2); ("t3", 4, Some 3);
     ("t4", 5, Some 4); ("t5", 6, Some 5); ("t6", 2, Some 6);
     ("t7", 7, Some 7); ("t8", 8, Some 8)].
Proof. vm_compute. reflexivity. Qed.

(** ** [submitScore] *)

Lemma bind_query_refused {A B} (read : Db -> A) (k : string + A -> Async B)
    (w : World) (message : string) (rest : list Reply) :
  bind (query read) k (w, Some message :: rest) = k (inl message) (w, rest).
Proof. reflexivity. Qed.

(** C7, as the code has it.  [submitScore] looks neither at the status of
    the challenge nor at the score.  When the store carries out the update,
    the rows with that id get the two set arrays, status [completed] and the
    submitting team, and keep their validated flag and their winner; the
    client's list is fetched again.  When the store refuses the update,
    [submitScore] throws and nothing changes.  The score is checked by the
    caller: when [handleSubmitScore] turns a score down, it shows its toast
    and makes no store call. *)
Theorem submitScore_writes_four_columns (challengeId : string)
    (cs ds : list number) (teamId : string) (w : World) :
  (let w' := run_ok (submitScore challengeId cs ds teamId) w in
   result_ok (submitScore challengeId cs ds teamId) w = Resolved tt
   /\ challenges_table (db w')
      = update_eq ChallengesRow.id challengeId (submit_payload cs ds teamId)
                  (challenges_table (db w))
   /\ challenges (ui w') = map to_Challenge (challenges_table (db w'))
   /\ teams_table (db w') = teams_table (db w))
  /\ (forall r,
        let r' := submit_payload cs ds teamId r in
        ChallengesRow.status r' = completed
        /\ ChallengesRow.challenger_sets r' = Some cs
        /\ ChallengesRow.challenged_sets r' = Some ds
        /\ ChallengesRow.score_submitted_by r' = Some teamId
        /\ ChallengesRow.score_validated r' = ChallengesRow.score_validated r
        /\ ChallengesRow.winner_id r' = ChallengesRow.winner_id r)
  /\ (forall message rest,
        submitScore challengeId cs ds teamId (w, Some message :: rest)
        = (Threw (or_else (Some message) "Failed to submit score"), (w, rest)))
  /\ (forall selected team scores title description replies,
        handleSubmitScore_decide selected team scores
        = RejectedToast title description ->
        handleSubmitScore selected team scores (w, replies)
        = (Resolved (RejectedToast title description), (w, replies))).
Proof.
  split; [| split; [| split]].
  - repeat split.
  - intros r. repeat split.
  - reflexivity.
  - intros selected team scores title description replies H.
    unfold handleSubmitScore. now rewrite H.
Qed.

(** C7 refuted as stated: on the validated challenge of the worked ladder
    (completed, validated, hence not active), [submitScore] with two tied
    sets 9-9, which the dialog's validation turns down, resolves, rewrites
    the score and leaves the validated flag set. *)
Lemma submitScore_has_no_guard :
  map active (challenges (ui validated8)) = [false]
  /\ handleSubmitScore_decide (Some "c1") (Some "t2")
       (mkParsedScores (Some 9) (Some 9) (Some 9) (Some 9) None None)
     = RejectedToast "Invalid Set 1 Score" (Some "Sets cannot end in a tie")
  /\ result_ok (submitScore "c1" [Some 9; Some 9] [Some 9; Some 9] "t2")
               validated8
     = Resolved tt
  /\ map (fun r => (ChallengesRow.status r, ChallengesRow.challenger_sets r,
                    ChallengesRow.score_submitted_by r,
                    ChallengesRow.score_validated r))
         (challenges_table
            (db (run_ok (submitScore "c1" [Some 9; Some 9] [Some 9; Some 9]
                                     "t2")
                        validated8)))
     = [(completed, Some [Some 9; Some 9], Some "t2", true)].
Proof. vm_compute. repeat split. Qed.

(** ** Operations that never throw *)

Create HintDb resolves discriminated.

Lemma never_throws_ret {A} (a : A) : never_throws (ret a).
Proof. intros s. now exists a. Qed.

Lemma never_throws_world : never_throws world.
Proof. intros s. now exists (fst s). Qed.

Lemma never_throws_modify (f : World -> World) : never_throws (modify f).
Proof. intros s. now exists tt. Qed.

Lemma never_throws_store_call : never_throws store_call.
Proof. intros [w [|r rest]]; cbn; eauto. Qed.

Lemma never_throws_bind {A B} (m : Async A) (k : A -> Async B) :
  never_throws m -> (forall a, never_throws (k a)) -> never_throws (bind m k).
Proof.
  intros Hm Hk s. destruct (Hm s) as [a Ha].
  rewrite (bind_never_throws _ _ _ _ Ha). apply Hk.
Qed.

#[local] Hint Resolve never_throws_ret never_throws_world never_throws_modify
  never_throws_store_call : resolves.

Ltac resolves :=
  repeat first
    [ assumption
    | solve [auto with resolves]
    | apply never_throws_bind; [| intros ?]
    | match goal with
      | |- never_throws (match ?x with _ => _ end) => destruct x
      end
    | progress cbv zeta ].

Lemma never_throws_query {A} (read : Db -> A) : never_throws (query read).
Proof. unfold query. resolves. Qed.

Lemma never_throws_mutate (f : World -> World) : never_throws (mutate f).
Proof. unfold mutate. resolves. Qed.

#[local] Hint Resolve never_throws_query never_throws_mutate : resolves.

Lemma never_throws_for_of {A} (xs : list A) (body : A -> Async unit) :
  (forall x, never_throws (body x)) -> never_throws (for_of xs body).
Proof.
  intros Hbody. induction xs as [|x xs IH]; cbn [for_of]; resolves.
Qed.

Lemma never_throws_refreshData : never_throws refreshData.
Proof. intros s. exists tt. apply refreshData_db. Qed.

Lemma never_throws_fetchChallenges : never_throws fetchChallenges.
Proof. intros s. exists tt. apply fetchChallenges_db. Qed.

Lemma never_throws_fetchTeams : never_throws fetchTeams.
Proof. intros s. exists tt. apply fetchTeams_db. Qed.

Lemma never_throws_fetchJoinRequests : never_throws fetchJoinRequests.
Proof. intros s. exists tt. apply fetchJoinRequests_db. Qed.

#[local] Hint Resolve never_throws_refreshData never_throws_fetchChallenges
  never_throws_fetchTeams never_throws_fetchJoinRequests : resolves.

#[local] Hint Resolve never_throws_for_of : resolves.

Lemma never_throws_updatePositions (challengerTeamId : string)
    (challengerTeam challengedTeam : TeamsRow.t) :
  never_throws (updatePositions challengerTeamId challengerTeam challengedTeam).
Proof.
  unfold updatePositions. resolves.
  apply never_throws_for_of. intros team. resolves.
Qed.

#[local] Hint Resolve never_throws_updatePositions : resolves.

(** [validateScore] logs what goes wrong and never throws. *)
Lemma never_throws_validateScore (challengeId : string) (valid : bool) :
  never_throws (validateScore challengeId valid).
Proof. unfold validateScore. resolves. Qed.

Lemma never_throws_createTeam (uuid name creatorId : string)
    (league : League) :
  never_throws (createTeam uuid name creatorId league).
Proof. unfold createTeam. resolves. Qed.

Lemma never_throws_updateSettings (newSettings : PartialLeagueSettings.t) :
  never_throws (updateSettings newSettings).
Proof. unfold updateSettings. resolves. Qed.

(** ** Refused calls *)

(** C8 refuted as stated: the ninth call of the validation on the worked
    ladder, step 3, is refused; the four teams of the range have moved, the
    winner is left at the temporary position, and the outcome is neither
    the table before nor what the reference function makes of it. *)
Lemma ranking_update_not_all_or_nothing :
  standing (fst (snd (validateScore "c1" true (challenged8, step3_refused))))
  = [("t1", 1, Some 1); ("t2", 3, Some 2); ("t3", 4, Some 3);
     ("t4", 5, Some 4); ("t5", 6, Some 5); ("t6", 99999, Some 6);
     ("t7", 7, Some 7); ("t8", 8, Some 8)]
  /\ ~ all_or_nothing "c1" challenged8 step3_refused.
Proof.
  split; [vm_compute; reflexivity|].
  unfold all_or_nothing.
  set (rows' := teams_table (db (fst _))).
  assert (E' : rows'
               = [TeamsRow.mk "t1" "Team 1" "u1" mens 1 (Some 1);
                  TeamsRow.mk "t2" "Team 2" "u2" mens 3 (Some 2);
                  TeamsRow.mk "t3" "Team 3" "u3" mens 4 (Some 3);
                  TeamsRow.mk "t4" "Team 4" "u4" mens 5 (Some 4);
                  TeamsRow.mk "t5" "Team 5" "u5" mens 6 (Some 5);
                  TeamsRow.mk "t6" "Team 6" "u6" mens 99999 (Some 6);
                  TeamsRow.mk "t7" "Team 7" "u7" mens 7 (Some 7);
                  TeamsRow.mk "t8" "Team 8" "u8" mens 8 (Some 8)])
    by (vm_compute; reflexivity).
  assert (E : teams_table (db challenged8)
              = [TeamsRow.mk "t1" "Team 1" "u1" mens 1 (Some 1);
                 TeamsRow.mk "t2" "Team 2" "u2" mens 2 (Some 2);
                 TeamsRow.mk "t3" "Team 3" "u3" mens 3 (Some 3);
                 TeamsRow.mk "t4" "Team 4" "u4" mens 4 (Some 4);
                 TeamsRow.mk "t5" "Team 5" "u5" mens 5 (Some 5);
                 TeamsRow.mk "t6" "Team 6" "u6" mens 6 (Some 6);
                 TeamsRow.mk "t7" "Team 7" "u7" mens 7 (Some 7);
                 TeamsRow.mk "t8" "Team 8" "u8" mens 8 (Some 8)])
    by (vm_compute; reflexivity).
  cbv zeta. rewrite E, E'. clear E E' rows'.
  intros [H | (c & lg & lo & hi & H)]; [discriminate|].
  assert (H6 := f_equal (fun l => nth_error l 5) H).
  assert (H2 := f_equal (fun l => nth_error l 1) H). clear H.
  unfold ranking_reference in H2, H6. rewrite nth_error_map in H2, H6.
  cbn [nth_error option_map TeamsRow.id TeamsRow.league TeamsRow.position]
    in H2, H6.
  destruct (String.eqb_spec "t6" c) as [E6|E6].
  - (* the winner placed: then [lo] is the temporary position *)
    injection H6 as Hlo Hhi. subst lo hi c.
    destruct (String.eqb_spec "t2" "t6") as [E2|_]; [discriminate E2|].
    replace (99999 <=? 2) with false in H2 by reflexivity.
    rewrite andb_false_r in H2. discriminate H2.
  - destruct (League_eqb mens lg && (lo <=? 6) && (6 <? hi));
      discriminate H6.
Qed.

Lemma never_throws_requestToJoin (uuid userId teamId : string) :
  never_throws (requestToJoin uuid userId teamId).
Proof. unfold requestToJoin. resolves. Qed.

Lemma never_throws_respondToChallenge (challengeId : string) (accept : bool) :
  never_throws (respondToChallenge challengeId accept).
Proof. unfold respondToChallenge. resolves. Qed.

Lemma never_throws_no_throw {A} (m : Async A) (s : World * list Reply)
    (message : string) :
  never_throws m -> fst (m s) = Threw message -> False.
Proof. intros H E. destruct (H s) as [a Ha]. congruence. Qed.

(** A write is refused and leaves the world, or is carried out; a read is
    refused, or returns what the tables hold. *)
Lemma mutate_cases (f : World -> World) (w : World) (replies : list Reply) :
  (exists message rest,
      forall B (k : option string -> Async B),
        bind (mutate f) k (w, replies) = k (Some message) (w, rest))
  \/ (exists rest,
        forall B (k : option string -> Async B),
          bind (mutate f) k (w, replies) = k None (f w, rest)).
Proof.
  destruct replies as [|[message|] rest].
  - right. exists []. reflexivity.
  - left. exists message, rest. reflexivity.
  - right. exists rest. reflexivity.
Qed.

Lemma query_cases {A} (read : Db -> A) (w : World) (replies : list Reply) :
  (exists message rest,
      forall B (k : string + A -> Async B),
        bind (query read) k (w, replies) = k (inl message) (w, rest))
  \/ (exists rest,
        forall B (k : string + A -> Async B),
          bind (query read) k (w, replies) = k (inr (read (db w))) (w, rest)).
Proof.
  destruct replies as [|[message|] rest].
  - right. exists []. reflexivity.
  - left. exists message, rest. reflexivity.
  - right. exists rest. reflexivity.
Qed.

Lemma createChallenge_throws (uuid a b : string) (w : World)
    (replies : list Reply) (message : string) :
  fst (createChallenge uuid a b (w, replies)) = Threw message ->
  fst (snd (createChallenge uuid a b (w, replies))) = w.
Proof.
  unfold createChallenge. rewrite bind_world. cbn [fst].
  destruct (find _ _); [reflexivity|].
  destruct (mutate_cases
              (with_challenges_table
                 (fun rows =>
                    ChallengesRow.mk uuid a b accepted None None None false None
                    :: rows)) w replies)
    as [(m & rest & ->) | (rest & ->)].
  - reflexivity.
  - intros H. exfalso. revert H. apply never_throws_no_throw. resolves.
Qed.

Lemma submitScore_throws (challengeId : string) (cs ds : list number)
    (teamId : string) (w : World) (replies : list Reply) (message : string) :
  fst (submitScore challengeId cs ds teamId (w, replies)) = Threw message ->
  fst (snd (submitScore challengeId cs ds teamId (w, replies))) = w.
Proof.
  unfold submitScore.
  destruct (mutate_cases
              (with_challenges_table
                 (update_eq ChallengesRow.id challengeId
                            (submit_payload cs ds teamId))) w replies)
    as [(m & rest & ->) | (rest & ->)].
  - reflexivity.
  - intros H. exfalso. revert H. apply never_throws_no_throw. resolves.
Qed.

Lemma respondToJoinRequest_throws (requestId : string) (accept : bool)
    (w : World) (replies : list Reply) (message : string) :
  fst (respondToJoinRequest requestId accept (w, replies)) = Threw message ->
  fst (snd (respondToJoinRequest requestId accept (w, replies))) = w.
Proof.
  unfold respondToJoinRequest. rewrite bind_world. cbn [fst].
  destruct (find _ _) as [request|]; [| reflexivity].
  destruct accept.
  - rewrite bind_assoc.
    destruct (query_cases
                (select_team_with_profiles (JoinRequest.teamId request))
                w replies)
      as [(m & rest & ->) | (rest & ->)]; [reflexivity|].
    destruct (select_team_with_profiles _ _) as [|teamData [|]];
      try reflexivity.
    destruct (4 <=? List.length (snd teamData))%nat; [reflexivity|].
    rewrite bind_assoc.
    destruct (mutate_cases
                (with_profiles_table
                   (update_eq ProfilesRow.id (JoinRequest.userId request)
                      (fun p =>
                         ProfilesRow.mk (ProfilesRow.id p)
                           (Some (JoinRequest.teamId request)))))
                w rest)
      as [(m & rest' & ->) | (rest' & ->)]; [reflexivity|].
    intros H. exfalso. revert H. apply never_throws_no_throw. resolves.
  - intros H. exfalso. revert H. apply never_throws_no_throw. resolves.
Qed.

(** C8, as the code has it.  Whatever the store replies, an operation that
    throws, and a [createTeam] that returns [null], leave the world as it
    was, and so does [validateScore] on a challenge the client does not
    know or that has no score.  The ranking update is a sequence of
    separate writes, each carried out in full or not at all, with no
    undoing of the earlier ones; when the read of the two teams is refused,
    no team row changes. *)
Theorem rejected_operations_change_nothing (w : World)
    (replies : list Reply) :
  (forall op message,
      fst (perform op (w, replies)) = Threw message ->
      fst (snd (perform op (w, replies))) = w)
  /\ (forall uuid name creatorId league,
        fst (createTeam uuid name creatorId league (w, replies))
        = Resolved None ->
        fst (snd (createTeam uuid name creatorId league (w, replies))) = w)
  /\ (forall challengeId valid,
        (find (fun c => (Challenge.id c =? challengeId)%string)
              (challenges (ui w)) = None
         \/ exists challenge,
              find (fun c => (Challenge.id c =? challengeId)%string)
                   (challenges (ui w)) = Some challenge
              /\ Challenge.score challenge = None) ->
        validateScore challengeId valid (w, replies)
        = (Resolved tt, (w, replies)))
  /\ (forall challengeId first message rest,
        replies = first :: Some message :: rest ->
        teams_table
          (db (fst (snd (validateScore challengeId true (w, replies)))))
        = teams_table (db w)).
Proof.
  split; [| split; [| split]].
  - intros op message.
    destruct op as [uuid name creatorId league | uuid userId teamId
                   | rid accept | uuid a b | cid accept
                   | cid cs ds tid | cid valid | newSettings | | | | ];
      cbn [perform];
      try (intros H; exfalso; revert H; apply never_throws_no_throw;
           solve [ resolves
                 | apply never_throws_createTeam
                 | apply never_throws_requestToJoin
                 | apply never_throws_respondToChallenge
                 | apply never_throws_validateScore
                 | apply never_throws_updateSettings ]).
    + apply respondToJoinRequest_throws.
    + apply createChallenge_throws.
    + apply submitScore_throws.
  - intros uuid name creatorId league.
    unfold createTeam. rewrite bind_world. cbn [fst].
    match goal with
    | |- context [bind (mutate ?f) _ _] =>
      destruct (mutate_cases f w replies) as [(m & rest & ->) | (rest & ->)]
    end; [reflexivity|].
    match goal with
    | |- context [bind (mutate ?f) _ (?w1, _)] =>
      destruct (mutate_cases f w1 rest) as [(m & rest' & ->) | (rest' & ->)]
    end;
      rewrite bind_refreshData_any; cbn [ret fst]; discriminate.
  - intros challengeId valid [H | (challenge & H1 & H2)].
    + now apply validateScore_unknown.
    + now apply (validateScore_no_score _ _ _ challenge).
  - intros challengeId first message rest ->.
    unfold validateScore. rewrite bind_world. cbn [fst].
    destruct (find _ (challenges (ui w))) as [challenge|]; [| reflexivity].
    destruct (Challenge.score challenge) as [score|]; [| reflexivity].
    cbn [negb].
    destruct first as [m|];
      [ rewrite bind_mutate_refused | rewrite bind_mutate_carried ];
      (destruct (_ =? _)%string; [rewrite bind_query_refused |]);
      match goal with
      | |- context [refreshData ?s] =>
        destruct (refreshData_db s) as [_ ->]
      end; reflexivity.
Qed.

(** ** The theorems at work on the worked ladder *)

Ltac distinct_strings :=
  repeat (apply NoDup_cons;
          [ cbn [In]; let H := fresh in
            intros H; repeat (destruct H as [H|H]; [discriminate H|]); exact H
          | ]);
  apply NoDup_nil.

Ltac new_key :=
  cbn [fresh_key];
  first
    [ exact I
    | vm_compute; let H := fresh in
      intros H; repeat (destruct H as [H|H]; [discriminate H|]); exact H ].

Lemma ladder8_reachable : reachable ladder8.
Proof.
  unfold ladder8, run_all. cbn [fold_left].
  repeat (apply reach_step; [| new_key]).
  apply reach_start.
Qed.

Lemma challenged8_reachable : reachable challenged8.
Proof.
  unfold challenged8, run_all. cbn [fold_left].
  do 2 (apply reach_step; [| new_key]).
  apply ladder8_reachable.
Qed.

Lemma validateScore_accept_positions_witness :
  teams_table (db (run_ok (validateScore "c1" true) challenged8))
  = validated_positions challenge8 score8 (teams_table (db challenged8)).
Proof.
  apply (validateScore_accept_positions "c1" challenged8 challenge8 score8).
  - vm_compute. distinct_strings.
  - vm_compute. reflexivity.
  - reflexivity.
Defined.

Lemma positions_stay_dense_witness :
  dense mens (teams_table (db challenged8))
  /\ dense mens
       (teams_table (db (run_ok (perform (ValidateScore "c1" true))
                                challenged8))).
Proof.
  apply (positions_stay_dense challenged8 (ValidateScore "c1" true) mens).
  - exact challenged8_reachable.
  - exact I.
Defined.

Lemma createTeam_enters_at_bottom_witness :
  teams_table
    (db (fst (snd (createTeam "t9" "Team 9" "u9" mens (ladder8, [])))))
  = teams_table (db ladder8)
    ++ [TeamsRow.mk "t9" "Team 9" "u9" mens 9 (Some 9)].
Proof.
  refine (proj1 (createTeam_enters_at_bottom "t9" "Team 9" "u9" mens ladder8 []
                   (Team.mk "t9" "Team 9" "u9" ["u9"] mens 9 9) _)).
  vm_compute. reflexivity.
Defined.

Lemma createChallenge_duplicate_guard_witness :
  createChallenge "c2" "t2" "t6" (challenged8, [Some "unused"])
  = (Threw duplicate_message, (challenged8, [Some "unused"]))
  /\ ChallengesRow.status
       (hd (new_challenge_row "" "" "")
           (challenges_table
              (db (fst (snd (createChallenge "c1" "t6" "t2" (ladder8, []))))))) 
     = accepted.
Proof.
  split.
  - apply (proj1 (createChallenge_duplicate_guard "c2" "t2" "t6" challenged8
                    [Some "unused"])).
    exists challenge8. split.
    + vm_compute. left. reflexivity.
    + split; [right; split; reflexivity | right; right; split; reflexivity].
  - assert (Hnone : forall c, In c (challenges (ui ladder8)) ->
                               ~ active_between c "t6" "t2").
    { intros c Hin. vm_compute in Hin. destruct Hin. }
    rewrite (proj1 (proj2 (createChallenge_duplicate_guard "c1" "t6" "t2"
                             ladder8 []) Hnone)).
    reflexivity.
Defined.

Lemma submitScore_writes_four_columns_witness :
  handleSubmitScore (Some "c1") (Some "t2")
    (mkParsedScores (Some 9) (Some 9) (Some 9) (Some 9) None None)
    (challenged8, [])
  = (Resolved (RejectedToast "Invalid Set 1 Score"
                             (Some "Sets cannot end in a tie")),
     (challenged8, [])).
Proof.
  apply (proj2 (proj2 (proj2 (submitScore_writes_four_columns
                                "c1" [] [] "t2" challenged8)))).
  reflexivity.
Defined.

Lemma rejected_operations_change_nothing_witness :
  fst (snd (createChallenge "c2" "t7" "t3" (challenged8, [Some "refused"])))
  = challenged8
  /\ validateScore "c0" true (challenged8, step3_refused)
     = (Resolved tt, (challenged8, step3_refused)).
Proof.
  split.
  - apply (proj1 (rejected_operations_change_nothing
                    challenged8 [Some "refused"])
                 (CreateChallenge "c2" "t7" "t3") "refused").
    vm_compute. reflexivity.
  - apply (proj1 (proj2 (proj2 (rejected_operations_change_nothing
                                  challenged8 step3_refused)))).
    left. vm_compute. reflexivity.
Defined.

Lemma dispute_then_resubmit_witness :
  map ChallengesRow.status
      (challenges_table (db (run_ok (validateScore "c1" false) challenged8)))
  = [accepted].
Proof.
  rewrite (proj1 (proj1 (dispute_then_resubmit "c1" challenged8 [] [] "")
                    challenge8 score8 eq_refl eq_refl)).
  vm_compute. reflexivity.
Defined.

(** ** The examples of the specification *)

(** Before the cutover, position 10 may challenge position 1. *)
Example canChallenge_before_cutover :
  canChallenge (Some (LeagueSettings.mk 1000 4)) 999
               (team_at "j" 10) (team_at "a" 1) = true.
Proof. reflexivity. Qed.

(** From the cutover on, with a maximal difference of 4, position 10 may
    challenge positions 6 to 9 and no other. *)
Example canChallenge_after_cutover :
  map (fun p => canChallenge (Some (LeagueSettings.mk 1000 4)) 1000
                             (team_at "j" 10) (team_at "x" p))
      [4; 5; 6; 7; 8; 9; 10; 11]
  = [false; false; true; true; true; true; false; false].
Proof. reflexivity. Qed.

(** 6-4 6-3 goes through with two sets; 6-4 3-6 needs a third set, and
    goes through with 7-5. *)
Example handleSubmitScore_two_sets :
  handleSubmitScore_decide (Some "c1") (Some "t6")
    (mkParsedScores (Some 6) (Some 4) (Some 6) (Some 3) None None)
  = CallSubmitScore "c1" [Some 6; Some 6] [Some 4; Some 3] "t6".
Proof. reflexivity. Qed.

Example handleSubmitScore_split :
  handleSubmitScore_decide (Some "c1") (Some "t6")
    (mkParsedScores (Some 6) (Some 4) (Some 3) (Some 6) None None)
  = RejectedToast "Invalid Match Result"
      (Some "Match must have a winner. Enter 3rd set if needed.")
  /\ handleSubmitScore_decide (Some "c1") (Some "t6")
       (mkParsedScores (Some 6) (Some 4) (Some 3) (Some 6) (Some 7) (Some 5))
     = CallSubmitScore "c1" [Some 6; Some 3; Some 7]
                       [Some 4; Some 6; Some 5] "t6".
Proof. split; reflexivity. Qed.

(** With all six fields left empty the handler goes on as well: two empty
    sets pass [validateSetScores] and count for the challenged side. *)
Example handleSubmitScore_empty_fields :
  handleSubmitScore_decide (Some "c1") (Some "t6")
    (mkParsedScores None None None None None None)
  = CallSubmitScore "c1" [None; None] [None; None] "t6".
Proof. reflexivity. Qed.

(** When the challenged team wins, nobody moves. *)
Example defender_wins_standing :
  standing
    (run_all [CreateChallenge "c1" "t6" "t2";
              SubmitScore "c1" [Some 4; Some 3] [Some 6; Some 6] "t6";
              ValidateScore "c1" true]
             ladder8)
  = standing ladder8.
Proof. vm_compute. reflexivity. Qed.

(** ** The three steps and the schema's [UNIQUE(league, position)]

    The store is taken above as carrying out the writes it is sent.  The
    schema of the repository puts a uniqueness constraint on
    [(league, position)]; the temporary position of step 1 and the
    descending order of step 2 are there so that no write breaks it.  This
    section checks that they do their job in a league whose positions are
    all below the temporary one: the table satisfies the constraint after
    every single write. *)

Lemma insert_descending_sorted (x : TeamsRow.t) (l : list TeamsRow.t) :
  StronglySorted (fun a b => TeamsRow.position b <= TeamsRow.position a) l ->
  StronglySorted (fun a b => TeamsRow.position b <= TeamsRow.position a)
                 (insert_by position_descending x l).
Proof.
  induction 1 as [|y l Hs IH Hy]; cbn.
  - repeat constructor.
  - unfold position_descending at 1.
    destruct (Z.leb_spec (TeamsRow.position y) (TeamsRow.position x)).
    + constructor; [now constructor|].
      constructor; [assumption|].
      rewrite Forall_forall in *. intros z Hz. specialize (Hy z Hz). lia.
    + constructor; [assumption|].
      rewrite Forall_forall in *. intros z Hz.
      apply (Permutation_in _ (insert_by_perm _ _ _)) in Hz.
      destruct Hz as [<-|Hz]; [lia | auto].
Qed.

Lemma order_by_descending_sorted (l : list TeamsRow.t) :
  StronglySorted (fun a b => TeamsRow.position b <= TeamsRow.position a)
                 (order_by position_descending l).
Proof.
  induction l as [|x l IH]; cbn; [constructor|].
  now apply insert_descending_sorted.
Qed.

Lemma sorted_app_between {A} (R : A -> A -> Prop) (l1 l2 : list A) :
  StronglySorted R (l1 ++ l2) ->
  forall a b, In a l1 -> In b l2 -> R a b.
Proof.
  induction l1 as [|x l1 IH]; cbn; intros Hs a b Ha Hb; [contradiction|].
  apply StronglySorted_inv in Hs as [Hs Hx].
  destruct Ha as [<-|Ha].
  - rewrite Forall_forall in Hx. apply Hx, in_or_app. now right.
  - now apply IH.
Qed.

Lemma sorted_map {A B} (R : A -> A -> Prop) (R' : B -> B -> Prop)
    (f : A -> B) (l : list A) :
  (forall a b, R a b -> R' (f a) (f b)) ->
  StronglySorted R l -> StronglySorted R' (map f l).
Proof.
  intros HR. induction 1 as [|x l Hs IH Hx]; cbn; constructor; auto.
  rewrite Forall_forall in *. intros y Hy.
  apply in_map_iff in Hy as (z & <- & Hz). auto.
Qed.

Lemma shift_trace_prefixes (teamsToShift : list (string * Z))
    (rows table : list TeamsRow.t) :
  In table (shift_trace teamsToShift rows) ->
  exists done todo,
    teamsToShift = done ++ todo /\ table = shift_all done rows.
Proof.
  revert rows. induction teamsToShift as [|team rest IH]; cbn; intros rows H.
  - contradiction.
  - destruct H as [<-|H].
    + exists [team], rest. split; reflexivity.
    + apply IH in H as (done & todo & -> & ->).
      exists (team :: done), todo. split; reflexivity.
Qed.

Section UniqueAlongTheSteps.

Variables (c : string) (ct dt : TeamsRow.t) (rows : list TeamsRow.t).

Let lg := TeamsRow.league ct.
Let lo := TeamsRow.position dt.
Let hi := TeamsRow.position ct.
Let step1 := fun r : TeamsRow.t =>
  if (TeamsRow.id r =? c)%string
  then TeamsRow.with_position temp_position r else r.
Let rows1 := map step1 rows.
Let teamsToShift :=
  map (fun t => (TeamsRow.id t, TeamsRow.position t))
      (order_by position_descending
         (filter (in_shift_range lg lo hi) rows1)).

Hypothesis ND : NoDup (map TeamsRow.id rows).
Hypothesis U : unique_positions rows.
Hypothesis Hc : team_row rows c = Some ct.
Hypothesis Hsmall :
  forall t, In t rows -> TeamsRow.league t = lg ->
            TeamsRow.position t < temp_position.

Local Lemma winner_row : In ct rows /\ TeamsRow.id ct = c.
Proof. now apply find_key_some in Hc. Qed.

Local Lemma winner_below_temp : hi < temp_position.
Proof. apply Hsmall; [apply winner_row | reflexivity]. Qed.

Local Lemma same_place (r1 r2 : TeamsRow.t) :
  In r1 rows -> In r2 rows ->
  TeamsRow.league r1 = TeamsRow.league r2 ->
  TeamsRow.position r1 = TeamsRow.position r2 -> r1 = r2.
Proof.
  intros H1 H2 El Ep.
  apply (NoDup_map_injective
           (fun t => (TeamsRow.league t, TeamsRow.position t)) rows); auto.
  now rewrite El, Ep.
Qed.

Local Lemma same_id (r1 r2 : TeamsRow.t) :
  In r1 rows -> In r2 rows -> TeamsRow.id r1 = TeamsRow.id r2 -> r1 = r2.
Proof. intros. now apply (NoDup_map_injective TeamsRow.id rows). Qed.

Local Lemma step1_id (r : TeamsRow.t) : TeamsRow.id (step1 r) = TeamsRow.id r.
Proof. unfold step1. now destruct (_ =? _)%string. Qed.

Local Lemma listed_iff (team : string * Z) :
  In team teamsToShift <->
  exists r, In r rows /\ TeamsRow.id r <> c
            /\ team = (TeamsRow.id r, TeamsRow.position r)
            /\ TeamsRow.league r = lg
            /\ lo <= TeamsRow.position r < hi.
Proof.
  unfold teamsToShift. rewrite in_map_iff. split.
  - intros (r1 & <- & H1).
    apply (Permutation_in _ (order_by_perm _ _)) in H1.
    apply filter_In in H1 as [H1 Hrange].
    apply in_map_iff in H1 as (r & <- & Hr).
    unfold in_shift_range in Hrange.
    apply andb_true_iff in Hrange as [Hrange H3].
    apply andb_true_iff in Hrange as [Hl H2].
    apply League_eqb_eq in Hl. apply Z.geb_le in H2. apply Z.ltb_lt in H3.
    unfold step1 in *.
    destruct (String.eqb_spec (TeamsRow.id r) c) as [E|E].
    + cbn in H3. pose proof winner_below_temp. lia.
    + exists r. repeat split; auto.
  - intros (r & Hr & E & -> & Hl & H2 & H3).
    exists r. split; [reflexivity|].
    apply (Permutation_in _ (Permutation_sym (order_by_perm _ _))).
    apply filter_In. split.
    + apply in_map_iff. exists r. split; auto. unfold step1.
      destruct (String.eqb_spec (TeamsRow.id r) c); congruence.
    + unfold in_shift_range.
      rewrite Hl, League_eqb_refl. cbn.
      apply andb_true_iff. split; [now apply Z.geb_le | now apply Z.ltb_lt].
Qed.

Local Lemma listed_keys : NoDup (map fst teamsToShift).
Proof.
  unfold teamsToShift. rewrite map_map. cbn [fst].
  eapply Permutation_NoDup.
  - apply Permutation_map. symmetry. apply order_by_perm.
  - apply NoDup_keys_filter. unfold rows1. rewrite map_map.
    erewrite map_ext; [exact ND | apply step1_id].
Qed.

Local Lemma listed_sorted :
  StronglySorted (fun a b : string * Z => snd b <= snd a) teamsToShift.
Proof.
  unfold teamsToShift.
  eapply sorted_map; [| apply order_by_descending_sorted].
  intros a b H. exact H.
Qed.

(** What a row has become after step 1 and the shifts of [done], the rest
    of the list being [todo]: the winner waits at the temporary position; a
    team of [done] stood in the range and has moved down by one; any other
    row is as it was, and is still to come if it stands in the range. *)
Local Lemma row_after (done todo : list (string * Z)) (r : TeamsRow.t) :
  teamsToShift = done ++ todo -> In r rows ->
  let r' := shifted_by done (step1 r) in
  TeamsRow.league r' = TeamsRow.league r
  /\ TeamsRow.id r' = TeamsRow.id r
  /\ ((r = ct /\ TeamsRow.position r' = temp_position)
      \/ (TeamsRow.id r <> c
          /\ In (TeamsRow.id r, TeamsRow.position r) done
          /\ TeamsRow.league r = lg
          /\ lo <= TeamsRow.position r < hi
          /\ TeamsRow.position r' = TeamsRow.position r + 1)
      \/ (TeamsRow.id r <> c
          /\ TeamsRow.position r' = TeamsRow.position r
          /\ (TeamsRow.league r = lg -> lo <= TeamsRow.position r < hi ->
              In (TeamsRow.id r, TeamsRow.position r) todo))).
Proof.
  intros Hsplit Hr r'. subst r'. unfold shifted_by.
  rewrite step1_id.
  destruct (find (fun team => (fst team =? TeamsRow.id r)%string) done)
    as [team|] eqn:Hfind.
  - apply find_key_some in Hfind as [Hteam Hid].
    assert (Hl : In team teamsToShift)
      by (rewrite Hsplit; apply in_or_app; now left).
    apply listed_iff in Hl as (r2 & Hr2 & E2 & -> & Hlg & Hrange).
    cbn [fst] in Hid. assert (r2 = r) by now apply same_id. subst r2.
    unfold step1.
    destruct (String.eqb_spec (TeamsRow.id r) c); [contradiction|].
    split; [reflexivity|]. split; [reflexivity|].
    right. left. repeat split; auto; lia.
  - unfold step1.
    destruct (String.eqb_spec (TeamsRow.id r) c) as [E|E].
    + split; [reflexivity|]. split; [reflexivity|]. left. split.
      * apply same_id; auto; [apply winner_row|].
        now rewrite (proj2 winner_row).
      * reflexivity.
    + split; [reflexivity|]. split; [reflexivity|].
      right. right. repeat split; auto.
      intros Hlg Hrange.
      assert (Hl : In (TeamsRow.id r, TeamsRow.position r) teamsToShift).
      { apply listed_iff. exists r. repeat split; auto; lia. }
      rewrite Hsplit in Hl. apply in_app_or in Hl as [Hl|Hl]; [| exact Hl].
      exfalso.
      pose proof (find_none _ _ Hfind _ Hl) as Hno. cbn [fst] in Hno.
      now rewrite String.eqb_refl in Hno.
Qed.

Local Lemma after_shifts_unique (done todo : list (string * Z)) :
  teamsToShift = done ++ todo ->
  unique_positions (shift_all done rows1).
Proof.
  intros Hsplit.
  assert (NDd : NoDup (map fst done)).
  { pose proof listed_keys as K. rewrite Hsplit, map_app in K.
    now apply NoDup_app_remove_r in K. }
  rewrite (shift_all_map _ _ NDd).
  change (unique_positions (map (shifted_by done) rows1)).
  unfold unique_positions, rows1. rewrite !map_map.
  apply Injective_map_NoDup_in; [| now apply NoDup_map_inv in ND].
  intros r1 r2 H1 H2 [= El Ep].
  pose proof winner_below_temp as Hw.
  destruct (row_after done todo r1 Hsplit H1) as (L1 & _ & C1).
  destruct (row_after done todo r2 Hsplit H2) as (L2 & _ & C2).
  cbv zeta in *. rewrite L1, L2 in El.
  assert (Hle : forall a b, In a done -> In b todo -> snd b <= snd a).
  { intros a b Ha Hb.
    apply (sorted_app_between (fun x y : string * Z => snd y <= snd x)
                              done todo); auto.
    rewrite <- Hsplit. apply listed_sorted. }
  destruct C1 as [[-> P1] | [(E1 & D1 & G1 & R1 & P1) | (E1 & P1 & T1)]];
    destruct C2 as [[-> P2] | [(E2 & D2 & G2 & R2 & P2) | (E2 & P2 & T2)]];
    try reflexivity.
  - exfalso. fold hi in Hw. lia.
  - exfalso. pose proof (Hsmall r2 H2 (eq_sym El)). lia.
  - exfalso. fold hi in Hw. lia.
  - apply same_place; auto. lia.
  - exfalso.
    assert (Hlg2 : TeamsRow.league r2 = lg) by congruence.
    destruct (Z.lt_ge_cases (TeamsRow.position r2) hi) as [Hin|Hout].
    + assert (T : In (TeamsRow.id r2, TeamsRow.position r2) todo)
        by (apply T2; auto; lia).
      pose proof (Hle _ _ D1 T) as Hs. cbn [snd] in Hs. lia.
    + apply E2. rewrite <- (proj2 winner_row). f_equal.
      apply same_place; auto; [apply winner_row | fold hi; lia].
  - exfalso. pose proof (Hsmall r1 H1 El). lia.
  - exfalso.
    assert (Hlg1 : TeamsRow.league r1 = lg) by congruence.
    destruct (Z.lt_ge_cases (TeamsRow.position r1) hi) as [Hin|Hout].
    + assert (T : In (TeamsRow.id r1, TeamsRow.position r1) todo)
        by (apply T1; auto; lia).
      pose proof (Hle _ _ D2 T) as Hs. cbn [snd] in Hs. lia.
    + apply E1. rewrite <- (proj2 winner_row). f_equal.
      apply same_place; auto; [apply winner_row | fold hi; lia].
  - apply same_place; auto. lia.
Qed.

Hypothesis Hbelow : lo < hi.

Local Lemma after_step3_unique :
  unique_positions (positions_after_steps c ct dt rows).
Proof.
  unfold positions_after_steps.
  change (unique_positions
            (update_eq TeamsRow.id c (TeamsRow.with_positions hi lo)
                       (shift_all teamsToShift rows1))).
  rewrite (shift_all_map _ _ listed_keys).
  change (unique_positions
            (update_eq TeamsRow.id c (TeamsRow.with_positions hi lo)
                       (map (shifted_by teamsToShift) rows1))).
  unfold unique_positions, update_eq, rows1. rewrite !map_map.
  apply Injective_map_NoDup_in; [| now apply NoDup_map_inv in ND].
  assert (Hsplit : teamsToShift = teamsToShift ++ [])
    by now rewrite app_nil_r.
  assert (Hfinal : forall r, In r rows ->
            let r' := shifted_by teamsToShift (step1 r) in
            let r'' := if (TeamsRow.id r' =? c)%string
                       then TeamsRow.with_positions hi lo r' else r' in
            TeamsRow.league r'' = TeamsRow.league r
            /\ ((r = ct /\ TeamsRow.position r'' = lo)
                \/ (TeamsRow.id r <> c
                    /\ TeamsRow.league r = lg
                    /\ lo <= TeamsRow.position r < hi
                    /\ TeamsRow.position r'' = TeamsRow.position r + 1)
                \/ (TeamsRow.id r <> c
                    /\ TeamsRow.position r'' = TeamsRow.position r
                    /\ ~ (TeamsRow.league r = lg
                          /\ lo <= TeamsRow.position r < hi)))).
  { intros r Hr.
    destruct (row_after teamsToShift [] r Hsplit Hr) as (L & I & C).
    cbv zeta in *. rewrite I.
    destruct (String.eqb_spec (TeamsRow.id r) c) as [E|E].
    - split; [cbn; exact L|]. left. split; [| reflexivity].
      apply same_id; auto; [apply winner_row|].
      now rewrite (proj2 winner_row).
    - split; [exact L|].
      destruct C as [[-> _] | [(_ & _ & G & R & P) | (_ & P & T)]].
      + elim E. apply winner_row.
      + right. left. auto.
      + right. right. repeat split; auto.
        intros [G R]. exact (T G R). }
  intros r1 r2 H1 H2 [= El Ep].
  destruct (Hfinal r1 H1) as (L1 & C1), (Hfinal r2 H2) as (L2 & C2).
  cbv zeta in *. rewrite L1, L2 in El.
  destruct C1 as [[-> P1] | [(E1 & G1 & R1 & P1) | (E1 & P1 & T1)]];
    destruct C2 as [[-> P2] | [(E2 & G2 & R2 & P2) | (E2 & P2 & T2)]];
    try reflexivity.
  - exfalso. lia.
  - exfalso. apply T2. split; [unfold lg in *; congruence | lia].
  - exfalso. lia.
  - apply same_place; auto. lia.
  - exfalso.
    destruct (Z.lt_ge_cases (TeamsRow.position r2) hi) as [Hin|Hout].
    + apply T2. split; [unfold lg in *; congruence | lia].
    + apply E2. rewrite <- (proj2 winner_row). f_equal.
      apply same_place; auto;
        [apply winner_row | unfold lg in *; congruence | fold hi; lia].
  - exfalso. apply T1. split; [unfold lg in *; congruence | lia].
  - exfalso.
    destruct (Z.lt_ge_cases (TeamsRow.position r1) hi) as [Hin|Hout].
    + apply T1. split; [unfold lg in *; congruence | lia].
    + apply E1. rewrite <- (proj2 winner_row). f_equal.
      apply same_place; auto;
        [apply winner_row | unfold lg in *; congruence | fold hi; lia].
  - apply same_place; auto. lia.
Qed.

(** No write of the three steps breaks the constraint. *)
Theorem steps_keep_positions_unique :
  Forall unique_positions (steps_trace c ct dt rows).
Proof.
  unfold steps_trace.
  change (Forall unique_positions
            (rows1 :: shift_trace teamsToShift rows1
                   ++ [positions_after_steps c ct dt rows])).
  constructor.
  - apply (after_shifts_unique [] teamsToShift). reflexivity.
  - apply Forall_app. split.
    + apply Forall_forall. intros table Htable.
      apply shift_trace_prefixes in Htable as (done & todo & Hsplit & ->).
      now apply (after_shifts_unique done todo).
    + constructor; [apply after_step3_unique | constructor].
Qed.

End UniqueAlongTheSteps.

Lemma dense_unique_positions (rows : list TeamsRow.t) :
  NoDup (map TeamsRow.id rows) -> (forall l, dense l rows) ->
  unique_positions rows.
Proof.
  intros ND D. unfold unique_positions.
  apply Injective_map_NoDup_in; [| now apply NoDup_map_inv in ND].
  intros r1 r2 H1 H2 [= El Ep].
  apply (NoDup_map_injective TeamsRow.position
           (filter (fun t => League_eqb (TeamsRow.league t)
                                        (TeamsRow.league r1)) rows));
    auto.
  - apply (dense_NoDup (TeamsRow.league r1) rows (D _)).
  - apply filter_In. split; auto. apply League_eqb_refl.
  - apply filter_In. split; auto. rewrite El. apply League_eqb_refl.
Qed.

(** X16.  In a ladder that satisfies the invariant and has fewer teams per
    league than the temporary position, the ranking update keeps the
    uniqueness constraint after each of its writes: the constraint gives
    the store no reason to refuse one. *)
Theorem ranking_steps_respect_schema (w : World) (challengerTeamId : string)
    (challengerTeam challengedTeam : TeamsRow.t) :
  ladder_ok w ->
  (forall l,
      Z.of_nat (List.length (league_positions l (teams_table (db w))))
      < temp_position) ->
  team_row (teams_table (db w)) challengerTeamId = Some challengerTeam ->
  TeamsRow.position challengedTeam < TeamsRow.position challengerTeam ->
  Forall unique_positions
         (steps_trace challengerTeamId challengerTeam challengedTeam
                      (teams_table (db w))).
Proof.
  intros (ND & D & _) Hsize Hc Hlt.
  apply steps_keep_positions_unique; auto.
  - now apply dense_unique_positions.
  - intros t Ht Hl.
    assert (Hin : In (TeamsRow.position t)
                     (league_positions (TeamsRow.league challengerTeam)
                                       (teams_table (db w)))).
    { unfold league_positions. apply in_map, filter_In. split; auto.
      rewrite Hl. apply League_eqb_refl. }
    apply (dense_in _ _ _ (D _)) in Hin.
    specialize (Hsize (TeamsRow.league challengerTeam)). lia.
Qed.

(** ** The score validator is blind to the order of the sides *)

Lemma isValidSetScore_games (w l : Z) :
  isValidSetScore (Some w) (Some l) = true ->
  0 <= l < w /\ w <= 7.
Proof.
  unfold isValidSetScore, num_is, num_ge, num_le.
  destruct (Z.eqb_spec w 6) as [->|_].
  - intros H. apply andb_true_iff in H as [H1 H2]. lia.
  - destruct (Z.eqb_spec w 7) as [->|_]; [| discriminate].
    intros H. apply orb_true_iff in H as [H|H]; lia.
Qed.

(** X13.  [validateSetScores] accepts a set exactly when it accepts the set
    with the two sides exchanged: only the text of the error depends on
    which side the games were entered for. *)
Theorem validateSetScores_sides_swap (a b : number) :
  valid (validateSetScores a b) = valid (validateSetScores b a).
Proof.
  destruct a as [x|], b as [y|]; try reflexivity.
  unfold validateSetScores. cbn [isNaN andb orb num_lt num_gt].
  rewrite (orb_comm (x <? 0) (y <? 0)).
  destruct ((y <? 0) || (x <? 0)); [reflexivity|].
  destruct (Z.gtb_spec x y) as [G|G], (Z.gtb_spec y x) as [G'|G'];
    try lia; try reflexivity;
    destruct (isValidSetScore _ _); reflexivity.
Qed.

(** ** The dialog and the validation count sets alike *)

Lemma validateSetScores_no_tie (x y : Z) :
  valid (validateSetScores (Some x) (Some y)) = true -> x <> y.
Proof.
  unfold validateSetScores. cbn [isNaN andb orb num_lt num_gt].
  destruct ((x <? 0) || (y <? 0)); [discriminate|].
  destruct (Z.gtb_spec x y); [lia|].
  destruct (Z.gtb_spec y x); [lia|]. discriminate.
Qed.

Lemma validateSetScores_half_empty (x : Z) :
  valid (validateSetScores (Some x) None) = false
  /\ valid (validateSetScores None (Some x)) = false.
Proof. split; reflexivity. Qed.

(** X12.  A submission that [handleSubmitScore] lets through with sets 1
    and 2 filled in is a decided match for [validateScore] too: both arrays
    have the same length, two or three; every set is counted for exactly
    one side by the counting of [validateScore]; one side has at least two
    sets; and the computed winner is the challenger exactly when the
    challenger has two sets or more, so the default of the comparison (the
    challenged team on equal counts) never decides. *)
Theorem accepted_score_decides_the_match (sel team : option string)
    (s : ParsedScores) (cid tid : string) (cs ds : list number) :
  handleSubmitScore_decide sel team s = CallSubmitScore cid cs ds tid ->
  isNaN (set1c s) = false -> isNaN (set2c s) = false ->
  let challengerWins := sets_won cs ds in
  let challengedWins := sets_won ds cs in
  (challengerWins + challengedWins = List.length cs)%nat
  /\ List.length ds = List.length cs
  /\ (2 <= List.length cs <= 3)%nat
  /\ (2 <= challengerWins \/ 2 <= challengedWins)%nat
  /\ forall challenge,
       computed_winner challenge (mkScore cs ds)
       = if (2 <=? challengerWins)%nat
         then Challenge.challengerTeamId challenge
         else Challenge.challengedTeamId challenge.
Proof.
  destruct s as [[a1|] [b1|] [a2|] [b2|] c3 d3]; cbn [set1c set2c isNaN];
    try discriminate; unfold handleSubmitScore_decide;
    destruct (truthy sel); try discriminate;
    destruct (truthy team); try discriminate;
    cbn [set1c set1d set2c set2d set3c set3d];
    try (intros H; cbn in H; discriminate H).
  2:{ destruct (valid (validateSetScores (Some a1) (Some b1)));
        cbn; discriminate. }
  destruct (valid (validateSetScores (Some a1) (Some b1))) eqn:V1;
    [| discriminate].
  destruct (valid (validateSetScores (Some a2) (Some b2))) eqn:V2;
    [| discriminate].
  apply validateSetScores_no_tie in V1, V2.
  destruct c3 as [a3|], d3 as [b3|];
    try (cbn; discriminate).
  - destruct (valid (validateSetScores (Some a3) (Some b3))) eqn:V3;
      [| discriminate].
    apply validateSetScores_no_tie in V3.
    cbn [negb isNaN andb num_gt num_lt].
    unfold computed_winner, sets_won, filter_indexed.
    destruct (Z.gtb_spec a1 b1), (Z.gtb_spec a2 b2), (Z.gtb_spec a3 b3),
      (Z.ltb_spec a1 b1), (Z.ltb_spec a2 b2); try lia;
      cbn; intros Hdec; try discriminate Hdec;
      injection Hdec as _ <- <- _; intros _ _; cbn;
      repeat match goal with
             | |- context [?x >? ?y] =>
               destruct (Z.gtb_spec x y); try lia; cbn
             end;
      repeat split; auto; lia.
  - cbn [negb isNaN andb num_gt num_lt validateSetScores valid].
    unfold computed_winner, sets_won, filter_indexed.
    destruct (Z.gtb_spec a1 b1), (Z.gtb_spec a2 b2),
      (Z.ltb_spec a1 b1), (Z.ltb_spec a2 b2); try lia;
      cbn; intros Hdec; try discriminate Hdec;
      injection Hdec as _ <- <- _; intros _ _; cbn;
      repeat match goal with
             | |- context [?x >? ?y] =>
               destruct (Z.gtb_spec x y); try lia; cbn
             end;
      repeat split; auto; lia.
Qed.

(** ** The badge and the Notifications tab *)

Lemma filter_length_split {A} (p q : A -> bool) (l : list A) :
  List.length (filter p l)
  = (List.length (filter (fun x => q x && p x) l)
     + List.length (filter (fun x => negb (q x)) (filter p l)))%nat.
Proof.
  induction l as [|x l IH]; [reflexivity|].
  cbn [filter].
  destruct (p x) eqn:Hp, (q x) eqn:Hq;
    cbn [andb filter List.length]; rewrite ?Hq; cbn [negb List.length];
    lia.
Qed.

Lemma find_my_team_id (w : World) (key : string) (team : Team.t) :
  find_my_team w (Some key) = Some team -> Team.id team = key.
Proof.
  intros H. apply find_some in H as [_ H]. now apply String.eqb_eq.
Qed.

(** X11.  The number on the badge of the Notifications tab (Index.tsx) and
    the total of the tab itself (NotificationsTab.tsx) are computed by two
    copies of the filters that differ: the tab's total is the badge's
    number plus the user's own pending join requests plus the scores to
    validate in matches where the user's team is not the challenged team.
    The badge therefore never shows more than the tab lists. *)
Theorem badge_counts_part_of_the_tab (w : World) (user : User.t) :
  let tab := NotificationsTab w user in
  totalNotifications tab
  = (notificationCount w (Some user)
     + List.length (Notifications.myJoinRequests tab)
     + List.length
         (filter (fun c => negb (option_string_eqb
                                   (User.teamId user)
                                   (Challenge.challengedTeamId c)))
                 (Notifications.scoreValidationNeeded tab)))%nat.
Proof.
  unfold totalNotifications, notificationCount, NotificationsTab.
  cbv beta iota zeta.
  cbn [Notifications.teamJoinRequests Notifications.myJoinRequests
       Notifications.incomingChallenges Notifications.scoreValidationNeeded].
  destruct (find_my_team w (User.teamId user)) as [myTeam|] eqn:Hteam;
    [| cbn; lia].
  destruct (User.teamId user) as [key|] eqn:Hkey; [| discriminate].
  apply find_my_team_id in Hteam. subst key.
  set (mine := fun c : Challenge.t =>
                 (Challenge.challengedTeamId c =? Team.id myTeam)%string).
  rewrite (filter_length_split
             (fun c => ((Challenge.challengerTeamId c
                         =? Team.id myTeam)%string
                        || (Challenge.challengedTeamId c
                            =? Team.id myTeam)%string)
                       && Status_eqb (Challenge.status c) completed
                       && negb (Challenge.scoreValidated c)
                       && has_score c)
             mine (challenges (ui w))).
  rewrite (filter_ext
             (fun c => mine c
                       && (((Challenge.challengerTeamId c
                             =? Team.id myTeam)%string
                            || (Challenge.challengedTeamId c
                                =? Team.id myTeam)%string)
                           && Status_eqb (Challenge.status c) completed
                           && negb (Challenge.scoreValidated c)
                           && has_score c))
             (fun c => (Challenge.challengedTeamId c =? Team.id myTeam)%string
                       && Status_eqb (Challenge.status c) completed
                       && negb (Challenge.scoreValidated c)
                       && has_score c)).
  2:{ intros c. unfold mine.
      destruct (Challenge.challengedTeamId c =? Team.id myTeam)%string;
        [| reflexivity].
      now rewrite orb_true_r. }
  rewrite (filter_ext
             (fun c => negb (option_string_eqb
                               (Some (Team.id myTeam))
                               (Challenge.challengedTeamId c)))
             (fun c => negb (mine c))).
  2:{ intros c. unfold mine. cbn [option_string_eqb].
      now rewrite String.eqb_sym. }
  lia.
Qed.


(** ** The client's list of teams is never stale *)

Lemma teams_current_refreshed (w : World) : teams_current (refreshed w).
Proof. reflexivity. Qed.

Lemma teams_current_same (w w' : World) :
  teams_table (db w') = teams_table (db w) ->
  profiles_table (db w') = profiles_table (db w) ->
  teams (ui w') = teams (ui w) ->
  teams_current w -> teams_current w'.
Proof.
  unfold teams_current, select_teams_with_profiles.
  intros -> -> ->. auto.
Qed.

Lemma perform_teams_current (op : Op) (w : World) :
  teams_current w -> teams_current (run_ok (perform op) w).
Proof.
  intros H. unfold run_ok.
  destruct op as [uuid name creatorId league | uuid userId teamId
                 | rid accept | uuid a b | cid accept
                 | cid cs ds tid | cid valid | newSettings | | | | ];
    cbn [perform].
  - unfold bind. rewrite createTeam_ok. apply teams_current_refreshed.
  - revert H. now apply teams_current_same.
  - unfold respondToJoinRequest. rewrite bind_world. cbn [fst].
    destruct (find _ (joinRequests (ui w))) as [request|]; [| exact H].
    destruct accept.
    + rewrite bind_assoc, bind_query_ok.
      destruct (select_team_with_profiles _ _) as [|teamData [|]];
        try exact H.
      destruct (4 <=? List.length (snd teamData))%nat; [exact H|].
      rewrite bind_assoc, bind_mutate_ok, bind_ret, bind_mutate_ok,
        refreshData_ok.
      apply teams_current_refreshed.
    + rewrite bind_ret, bind_mutate_ok, refreshData_ok.
      apply teams_current_refreshed.
  - unfold createChallenge. rewrite bind_world. cbn [fst].
    destruct (find _ _); [exact H|].
    revert H. now apply teams_current_same.
  - revert H. now apply teams_current_same.
  - revert H. now apply teams_current_same.
  - destruct (find (fun c => (Challenge.id c =? cid)%string)
                   (challenges (ui w))) as [challenge|] eqn:Hfind.
    2:{ rewrite validateScore_unknown by exact Hfind. exact H. }
    destruct (Challenge.score challenge) as [score|] eqn:Hscore.
    2:{ rewrite (validateScore_no_score _ _ _ challenge) by assumption.
        exact H. }
    destruct valid.
    + rewrite (validateScore_accept_ok _ _ _ _ Hfind Hscore).
      apply teams_current_refreshed.
    + rewrite (validateScore_dispute_ok _ _ _ _ Hfind Hscore).
      apply teams_current_refreshed.
  - destruct w as [d u]. revert H. cbn.
    destruct (settings u); now apply teams_current_same.
  - rewrite refreshData_ok. apply teams_current_refreshed.
  - reflexivity.
  - exact H.
  - exact H.
Qed.

Lemma reachable_teams_current (w : World) : reachable w -> teams_current w.
Proof.
  induction 1 as [profiles league_settings | w op _ IH _].
  - reflexivity.
  - now apply perform_teams_current.
Qed.

(** ** The league table *)

Section AscendingByKey.

Context {A : Type} (rank : A -> Z).




End AscendingByKey.





(** ** How many teams a team may challenge *)



Lemma current_team_ids (w : World) :
  teams_current w ->
  Permutation (map Team.id (teams (ui w)))
              (map TeamsRow.id (teams_table (db w))).
Proof.
  intros ->. unfold select_teams_with_profiles.
  rewrite !map_map. cbn [to_Team fst Team.id].
  apply Permutation_map, order_by_perm.
Qed.


(** ** Challenges are never pending *)

Lemma Forall_update_eq {R} (P : R -> Prop) (key : R -> string) (k : string)
    (payload : R -> R) (rows : list R) :
  (forall r, P r -> P (payload r)) ->
  Forall P rows -> Forall P (update_eq key k payload rows).
Proof.
  intros Hp H. unfold update_eq. apply Forall_map.
  eapply Forall_impl; [| exact H].
  intros r Hr. destruct (key r =? k)%string; auto.
Qed.

Lemma fetched_not_pending (rows : list ChallengesRow.t) :
  Forall (fun r => ChallengesRow.status r <> pending) rows ->
  Forall (fun c => Challenge.status c <> pending) (map to_Challenge rows).
Proof. intros H. apply Forall_map. exact H. Qed.

Lemma never_pending_refreshed (w : World) :
  Forall (fun r => ChallengesRow.status r <> pending)
         (challenges_table (db w)) ->
  never_pending (refreshed w).
Proof.
  intros H. split; [exact H | now apply fetched_not_pending].
Qed.

Lemma never_pending_same (w w' : World) :
  challenges_table (db w') = challenges_table (db w) ->
  challenges (ui w') = challenges (ui w) ->
  never_pending w -> never_pending w'.
Proof. unfold never_pending. intros -> ->. auto. Qed.

Lemma perform_never_pending (op : Op) (w : World) :
  never_pending w -> never_pending (run_ok (perform op) w).
Proof.
  intros H. pose proof H as [Ht Hc]. unfold run_ok.
  destruct op as [uuid name creatorId league | uuid userId teamId
                 | rid accept | uuid a b | cid accept
                 | cid cs ds tid | cid valid | newSettings | | | | ];
    cbn [perform].
  - unfold bind. rewrite createTeam_ok. now apply never_pending_refreshed.
  - revert H. now apply never_pending_same.
  - unfold respondToJoinRequest. rewrite bind_world. cbn [fst].
    destruct (find _ (joinRequests (ui w))) as [request|]; [| exact H].
    destruct accept.
    + rewrite bind_assoc, bind_query_ok.
      destruct (select_team_with_profiles _ _) as [|teamData [|]];
        try exact H.
      destruct (4 <=? List.length (snd teamData))%nat; [exact H|].
      rewrite bind_assoc, bind_mutate_ok, bind_ret, bind_mutate_ok,
        refreshData_ok.
      now apply never_pending_refreshed.
    + rewrite bind_ret, bind_mutate_ok, refreshData_ok.
      now apply never_pending_refreshed.
  - unfold createChallenge. rewrite bind_world. cbn [fst].
    destruct (find _ _); [exact H|].
    assert (Hrows : Forall (fun r => ChallengesRow.status r <> pending)
                           (new_challenge_row uuid a b
                            :: challenges_table (db w)))
      by (constructor; [discriminate | exact Ht]).
    split; [exact Hrows | now apply fetched_not_pending].
  - split; [| exact Hc]. cbn.
    apply Forall_update_eq; [| exact Ht].
    intros r _. cbn. destruct accept; discriminate.
  - rewrite submitScore_ok. cbn [fst snd].
    assert (Hrows : Forall (fun r => ChallengesRow.status r <> pending)
                           (update_eq ChallengesRow.id cid
                                      (submit_payload cs ds tid)
                                      (challenges_table (db w))))
      by (apply Forall_update_eq; [intros r _; discriminate | exact Ht]).
    split; [exact Hrows | now apply fetched_not_pending].
  - destruct (find (fun c => (Challenge.id c =? cid)%string)
                   (challenges (ui w))) as [challenge|] eqn:Hfind.
    2:{ rewrite validateScore_unknown by exact Hfind. exact H. }
    destruct (Challenge.score challenge) as [score|] eqn:Hscore.
    2:{ rewrite (validateScore_no_score _ _ _ challenge) by assumption.
        exact H. }
    destruct valid.
    + rewrite (validateScore_accept_ok _ _ _ _ Hfind Hscore).
      apply never_pending_refreshed. cbn.
      apply Forall_update_eq; [intros r Hr; exact Hr | exact Ht].
    + rewrite (validateScore_dispute_ok _ _ _ _ Hfind Hscore).
      apply never_pending_refreshed. cbn.
      apply Forall_update_eq; [intros r _; discriminate | exact Ht].
  - destruct w as [d u]. revert H. cbn.
    destruct (settings u); now apply never_pending_same.
  - rewrite refreshData_ok. now apply never_pending_refreshed.
  - exact H.
  - exact H.
  - split; [exact Ht | now apply fetched_not_pending].
Qed.

Lemma reachable_never_pending (w : World) : reachable w -> never_pending w.
Proof.
  induction 1 as [profiles league_settings | w op _ IH _].
  - split; constructor.
  - now apply perform_never_pending.
Qed.

(** X9.  [createChallenge] stores every challenge as accepted and no other
    operation makes one pending: in every reachable state the lists
    [incomingChallenges] and [outgoingChallenges] of the Notifications tab
    are empty, for every user. *)
Theorem no_challenge_waits_for_an_answer (w : World) (user : User.t) :
  reachable w ->
  Notifications.incomingChallenges (NotificationsTab w user) = []
  /\ Notifications.outgoingChallenges (NotificationsTab w user) = [].
Proof.
  intros Hw. apply reachable_never_pending in Hw as [_ Hc].
  assert (Hnone : forall side : Challenge.t -> bool,
             filter (fun c => side c
                              && Status_eqb (Challenge.status c) pending)
                    (challenges (ui w)) = []).
  { intros side. induction Hc as [|c l Hc _ IH]; cbn; [reflexivity|].
    destruct (Challenge.status c); try (now elim Hc);
      now rewrite andb_false_r. }
  unfold NotificationsTab.
  cbn [Notifications.incomingChallenges Notifications.outgoingChallenges].
  destruct (find_my_team w (User.teamId user)) as [myTeam|];
    [| split; reflexivity].
  split; apply Hnone.
Qed.

(** ** The teams the Challenges tab offers and the duplicate guard *)

Lemma find_none_existsb {A} (p : A -> bool) (l : list A) :
  find p l = None <-> existsb p l = false.
Proof.
  induction l as [|x l IH]; cbn; [tauto|].
  destruct (p x); cbn; [split; discriminate | exact IH].
Qed.

Lemma existsb_filter {A} (keep p : A -> bool) (l : list A) :
  existsb p (filter keep l) = existsb (fun x => keep x && p x) l.
Proof.
  induction l as [|x l IH]; cbn; [reflexivity|].
  destruct (keep x); cbn; now rewrite IH.
Qed.

Lemma existsb_agree {A} (p q : A -> bool) (l : list A) :
  Forall (fun x => p x = q x) l -> existsb p l = existsb q l.
Proof.
  induction 1 as [|x l Hx _ IH]; cbn; [reflexivity|]. now rewrite Hx, IH.
Qed.

(** Without pending challenges, the test of the tab on the challenges of
    [mine] and the guard of [createChallenge] find the same matches. *)
Lemma guard_as_the_tab_sees_it (w : World) (mine other : string) :
  Forall (fun c => Challenge.status c <> pending) (challenges (ui w)) ->
  mine <> other ->
  find (fun c => between c mine other && active c) (challenges (ui w)) = None
  <-> hasActiveChallenge (getTeamChallenges w mine) other = false.
Proof.
  intros Hc Hne. rewrite find_none_existsb.
  unfold hasActiveChallenge, getTeamChallenges. rewrite existsb_filter.
  rewrite (existsb_agree
             (fun c => between c mine other && active c)
             (fun c =>
                ((Challenge.challengerTeamId c =? mine)%string
                 || (Challenge.challengedTeamId c =? mine)%string)
                && (((Challenge.challengerTeamId c =? other)%string
                     || (Challenge.challengedTeamId c =? other)%string)
                    && (Status_eqb (Challenge.status c) accepted
                        || Status_eqb (Challenge.status c) completed
                           && negb (Challenge.scoreValidated c))))
             (challenges (ui w))); [tauto|].
  eapply Forall_impl; [| exact Hc].
  intros c Hs. cbv beta in Hs. unfold between, active.
  destruct (String.eqb_spec (Challenge.challengerTeamId c) mine) as [E1|E1],
    (String.eqb_spec (Challenge.challengedTeamId c) other) as [E2|E2],
    (String.eqb_spec (Challenge.challengerTeamId c) other) as [E3|E3],
    (String.eqb_spec (Challenge.challengedTeamId c) mine) as [E4|E4];
    try congruence;
    destruct (Challenge.status c); try (now elim Hs); reflexivity.
Qed.

(** X7.  In every reachable state, among the teams [canChallenge] allows,
    the Challenges tab offers exactly those for which [createChallenge]
    goes through when the store carries out its calls: the test of the tab
    ([hasActiveChallenge] on the challenges of the user's team) and the
    duplicate guard of [createChallenge] agree, although the tab's test
    leaves the status pending out. *)
Theorem offered_teams_are_those_the_guard_lets_through
    (w : World) (now : Z) (userTeamId : option string)
    (tab : ChallengesTab.t) (t : Team.t) (uuid : string) :
  reachable w ->
  Challenges w now userTeamId = Some tab ->
  In t (teams (ui w)) ->
  canChallenge (settings (ui w)) now (ChallengesTab.myTeam tab) t = true ->
  In t (ChallengesTab.challengeableTeams tab)
  <-> result_ok (createChallenge uuid (Team.id (ChallengesTab.myTeam tab))
                                 (Team.id t)) w
      = Resolved tt.
Proof.
  intros Hw Htab Ht Hcan.
  apply reachable_never_pending in Hw as [_ Hc].
  unfold Challenges in Htab.
  destruct (truthy userTeamId) as [teamId|]; [| discriminate].
  destruct (getTeamById w teamId) as [myTeam|] eqn:Hmine; [| discriminate].
  injection Htab as <-.
  cbn [ChallengesTab.myTeam ChallengesTab.challengeableTeams] in *.
  apply find_some in Hmine as [_ Hid]. apply String.eqb_eq in Hid.
  subst teamId.
  assert (Hne : Team.id myTeam <> Team.id t).
  { intros E. unfold canChallenge in Hcan. rewrite E, String.eqb_refl in Hcan.
    destruct (negb _); discriminate. }
  assert (Hl : League_eqb (Team.league t) (Team.league myTeam) = true).
  { unfold canChallenge in Hcan.
    destruct (League_eqb (Team.league myTeam) (Team.league t)) eqn:El;
      [| discriminate].
    apply League_eqb_eq in El. rewrite El. apply League_eqb_refl. }
  pose proof (guard_as_the_tab_sees_it w _ _ Hc Hne) as Hguard.
  unfold challengeableTeams. rewrite filter_In, Hl, Hcan. cbn [andb].
  rewrite negb_true_iff, <- Hguard.
  unfold result_ok, createChallenge. rewrite bind_world. cbn [fst].
  destruct (find _ (challenges (ui w))).
  - split; [intros [_ H]; discriminate | discriminate].
  - split; [reflexivity | now split].
Qed.

(** ** What every run keeps *)

Section Keeps.

Context (P : World -> Prop).

Lemma keeps_ret {A} (a : A) : keeps P (ret a).
Proof. intros s H. exact H. Qed.

Lemma keeps_throw {A} (message : string) : keeps P (@throw A message).
Proof. intros s H. exact H. Qed.

Lemma keeps_world : keeps P world.
Proof. intros s H. exact H. Qed.

Lemma keeps_store_call : keeps P store_call.
Proof. intros [w [|r rest]] H; exact H. Qed.

Lemma keeps_bind {A B} (m : Async A) (k : A -> Async B) :
  keeps P m -> (forall a, keeps P (k a)) -> keeps P (bind m k).
Proof.
  intros Hm Hk s H. specialize (Hm s H). unfold bind.
  destruct (m s) as [[a|e] s']; [now apply Hk | exact Hm].
Qed.

Lemma keeps_modify (f : World -> World) :
  (forall w, P w -> P (f w)) -> keeps P (modify f).
Proof. intros Hf s H. now apply Hf. Qed.

Lemma keeps_query {A} (read : Db -> A) : keeps P (query read).
Proof. intros [w [|[m|] rest]] H; exact H. Qed.

Lemma keeps_mutate (f : World -> World) :
  (forall w, P w -> P (f w)) -> keeps P (mutate f).
Proof.
  intros Hf [w [|[m|] rest]] H; cbn in *; auto.
Qed.

Lemma keeps_for_of {A} (xs : list A) (body : A -> Async unit) :
  (forall x, keeps P (body x)) -> keeps P (for_of xs body).
Proof.
  intros Hbody. induction xs as [|x xs IH]; cbn [for_of].
  - apply keeps_ret.
  - apply keeps_bind; auto.
Qed.

End Keeps.

(** Splits a goal [keeps P m] along the structure of [m], leaving one goal
    [P w -> P (f w)] for each write. *)
Ltac keeps_steps :=
  repeat match goal with
         | |- keeps _ (ret _) => apply keeps_ret
         | |- keeps _ (throw _) => apply keeps_throw
         | |- keeps _ world => apply keeps_world
         | |- keeps _ (query _) => apply keeps_query
         | |- keeps _ (mutate _) => apply keeps_mutate; intros ? ?
         | |- keeps _ (modify _) => apply keeps_modify; intros ? ?
         | |- keeps _ (for_of _ _) => apply keeps_for_of; intros ?
         | |- keeps _ (bind _ _) => apply keeps_bind; [| intros ?]
         | |- keeps _ (match ?x with _ => _ end) => destruct x
         | |- keeps _ _ => progress cbv zeta
         end.

(** ** No team has more than four members *)

Lemma roster_ok_same (d d' : Db) :
  profiles_table d' = profiles_table d ->
  map TeamsRow.id (teams_table d') = map TeamsRow.id (teams_table d) ->
  roster_ok d -> roster_ok d'.
Proof.
  unfold roster_ok, members. intros -> ->. auto.
Qed.

Ltac roster_same :=
  cbv beta in *;
  match goal with
  | H : roster_ok _ |- roster_ok _ =>
    revert H; apply roster_ok_same; cbn;
    try reflexivity;
    try (apply update_eq_keys; intros ?; reflexivity)
  end.

Lemma keeps_roster_fetchTeams : keeps (fun w => roster_ok (db w)) fetchTeams.
Proof. unfold fetchTeams. keeps_steps. roster_same. Qed.

Lemma keeps_roster_fetchJoinRequests :
  keeps (fun w => roster_ok (db w)) fetchJoinRequests.
Proof. unfold fetchJoinRequests. keeps_steps. roster_same. Qed.

Lemma keeps_roster_fetchChallenges :
  keeps (fun w => roster_ok (db w)) fetchChallenges.
Proof. unfold fetchChallenges. keeps_steps. roster_same. Qed.

Lemma keeps_roster_fetchSettings :
  keeps (fun w => roster_ok (db w)) fetchSettings.
Proof. unfold fetchSettings. keeps_steps. roster_same. Qed.

Lemma keeps_roster_refreshData :
  keeps (fun w => roster_ok (db w)) refreshData.
Proof.
  unfold refreshData. keeps_steps.
  - apply keeps_roster_fetchTeams.
  - apply keeps_roster_fetchJoinRequests.
  - apply keeps_roster_fetchChallenges.
  - apply keeps_roster_fetchSettings.
Qed.

Lemma keeps_roster_validateScore (challengeId : string) (valid : bool) :
  keeps (fun w => roster_ok (db w)) (validateScore challengeId valid).
Proof.
  unfold validateScore, updatePositions.
  keeps_steps; try apply keeps_roster_refreshData; roster_same.
Qed.

Lemma filter_length_mono {A} (p q : A -> bool) (l : list A) :
  (forall x, In x l -> p x = true -> q x = true) ->
  (List.length (filter p l) <= List.length (filter q l))%nat.
Proof.
  induction l as [|x l IH]; cbn; intros H; [lia|].
  assert (IH' : (List.length (filter p l) <= List.length (filter q l))%nat)
    by (apply IH; intros y Hy; apply H; now right).
  destruct (p x) eqn:Hp.
  - rewrite (H x (or_introl eq_refl) Hp). cbn. lia.
  - destruct (q x); cbn; lia.
Qed.

Lemma filter_length_or {A} (p q : A -> bool) (l : list A) :
  (List.length (filter (fun x => p x || q x) l)
   <= List.length (filter p l) + List.length (filter q l))%nat.
Proof.
  induction l as [|x l IH]; cbn; [lia|].
  destruct (p x), (q x); cbn; lia.
Qed.

Lemma filter_none {A} (p : A -> bool) (l : list A) :
  (forall x, In x l -> p x = false) -> filter p l = [].
Proof.
  induction l as [|x l IH]; cbn; intros H; [reflexivity|].
  rewrite (H x (or_introl eq_refl)). apply IH. intros y Hy. apply H.
  now right.
Qed.

Lemma at_most_one_by_key {R} (key : R -> string) (k : string)
    (rows : list R) :
  NoDup (map key rows) ->
  (List.length (filter (fun r => (key r =? k)%string) rows) <= 1)%nat.
Proof.
  induction rows as [|x rows IH]; cbn; intros ND; [lia|].
  inversion ND as [|? ? Hx ND']; subst. specialize (IH ND').
  destruct (String.eqb_spec (key x) k) as [E|E]; [| exact IH].
  cbn. rewrite filter_none; [cbn; lia|].
  intros r Hr. destruct (String.eqb_spec (key r) k) as [E'|E'];
    [| reflexivity].
  exfalso. apply Hx. rewrite E, <- E'. now apply in_map.
Qed.

(** Pointing one profile to a team that exists and has room keeps the
    roster. *)
Lemma roster_ok_join (d : Db) (userId teamId : string) :
  roster_ok d ->
  In teamId (map TeamsRow.id (teams_table d)) ->
  (List.length (members d teamId) < 4)%nat ->
  roster_ok
    (db (with_profiles_table
           (update_eq ProfilesRow.id userId
              (fun p => ProfilesRow.mk (ProfilesRow.id p) (Some teamId)))
           (mkWorld d (mkClient [] [] [] None)))).
Proof.
  intros (ND & FK & Cap) Hteam Hroom. cbn [db with_profiles_table].
  unfold roster_ok, members.
  cbn [profiles_table teams_table].
  split; [| split].
  - rewrite update_eq_keys; [exact ND | reflexivity].
  - intros p T Hp HT. unfold update_eq in Hp.
    apply in_map_iff in Hp as (p0 & <- & Hp0).
    destruct (ProfilesRow.id p0 =? userId)%string.
    + cbn in HT. now injection HT as <-.
    + eauto.
  - intros T. unfold update_eq. rewrite filter_map_comm, length_map.
    destruct (String.eqb_spec teamId T) as [<-|Hne].
    + etransitivity.
      * apply (filter_length_mono _
                 (fun p => (ProfilesRow.id p =? userId)%string
                           || option_string_eqb (ProfilesRow.team_id p)
                                                teamId)).
        intros p _. destruct (ProfilesRow.id p =? userId)%string; auto.
      * etransitivity; [apply filter_length_or|].
        pose proof (at_most_one_by_key ProfilesRow.id userId _ ND).
        unfold members in Hroom. lia.
    + etransitivity; [| apply (Cap T)]. unfold members.
      apply filter_length_mono. intros p _.
      destruct (ProfilesRow.id p =? userId)%string; [| auto].
      cbn. destruct (String.eqb_spec teamId T); [contradiction|].
      discriminate.
Qed.

Lemma members_of_the_only_row (d : Db) (teamId : string)
    (teamData : TeamsRow.t * list ProfilesRow.t) :
  select_team_with_profiles teamId d = [teamData] ->
  In teamId (map TeamsRow.id (teams_table d))
  /\ snd teamData = members d teamId.
Proof.
  unfold select_team_with_profiles, members. intros H.
  destruct (filter _ (teams_table d)) as [|team [|]] eqn:Hf;
    try discriminate.
  injection H as <-.
  assert (Hin : In team (filter (fun t => (TeamsRow.id t =? teamId)%string)
                                (teams_table d)))
    by (rewrite Hf; now left).
  apply filter_In in Hin as [Hin Hid]. apply String.eqb_eq in Hid.
  split; [rewrite <- Hid; now apply in_map | now rewrite <- Hid].
Qed.

Lemma roster_createTeam (uuid name creatorId : string) (league : League)
    (w : World) (replies : list Reply) :
  roster_ok (db w) ->
  ~ In uuid (map TeamsRow.id (teams_table (db w))) ->
  roster_ok (db (fst (snd (createTeam uuid name creatorId league
                                      (w, replies))))).
Proof.
  intros Hr Hfresh. unfold createTeam. rewrite bind_world. cbn [fst].
  set (data := TeamsRow.mk uuid name creatorId league _ _).
  destruct (mutate_cases (with_teams_table (fun rows => rows ++ [data]))
                         w replies)
    as [(m & rest & ->) | (rest & ->)]; [exact Hr|].
  set (w1 := with_teams_table (fun rows => rows ++ [data]) w).
  assert (Hr1 : roster_ok (db w1)).
  { destruct Hr as (ND & FK & Cap). split; [exact ND | split].
    - intros p T Hp HT. cbn. rewrite map_app. apply in_or_app. left.
      eapply FK; eauto.
    - exact Cap. }
  assert (Hnew : In uuid (map TeamsRow.id (teams_table (db w1))))
    by (cbn; rewrite map_app; apply in_or_app; right; now left).
  assert (Hempty : (List.length (members (db w1) uuid) < 4)%nat).
  { unfold members. cbn [w1 with_teams_table db profiles_table].
    rewrite filter_none; [cbn; lia|].
    intros p Hp. destruct (ProfilesRow.team_id p) as [T|] eqn:HT;
      [| reflexivity].
    cbn. destruct (String.eqb_spec T uuid) as [->|]; [| reflexivity].
    exfalso. apply Hfresh. destruct Hr as (_ & FK & _). eapply FK; eauto. }
  destruct (mutate_cases
              (with_profiles_table
                 (update_eq ProfilesRow.id creatorId
                    (fun p => ProfilesRow.mk (ProfilesRow.id p)
                                             (Some (TeamsRow.id data)))))
              w1 rest)
    as [(m & rest' & ->) | (rest' & ->)].
  - apply (keeps_bind (fun w => roster_ok (db w)));
      [apply keeps_roster_refreshData | intros ?; apply keeps_ret |].
    exact Hr1.
  - apply (keeps_bind (fun w => roster_ok (db w)));
      [apply keeps_roster_refreshData | intros ?; apply keeps_ret |].
    apply (roster_ok_join (db w1) creatorId uuid Hr1 Hnew Hempty).
Qed.

Lemma roster_respondToJoinRequest (requestId : string) (accept : bool)
    (w : World) (replies : list Reply) :
  roster_ok (db w) ->
  roster_ok (db (fst (snd (respondToJoinRequest requestId accept
                                                (w, replies))))).
Proof.
  intros Hr. unfold respondToJoinRequest. rewrite bind_world. cbn [fst].
  destruct (find _ _) as [request|]; [| exact Hr].
  assert (Hrest : forall w' rest,
             roster_ok (db w') ->
             roster_ok
               (db (fst (snd
                  ((_ <- mutate (with_join_requests_table
                                   (update_eq JoinRequestsRow.id requestId
                                      (fun r =>
                                         JoinRequestsRow.mk
                                           (JoinRequestsRow.id r)
                                           (JoinRequestsRow.user_id r)
                                           (JoinRequestsRow.team_id r)
                                           (if accept then Request.accepted
                                            else Request.declined)))) ;;
                    refreshData) (w', rest)))))).
  { intros w' rest Hw'.
    apply (keeps_bind (fun w => roster_ok (db w)));
      [| intros ?; apply keeps_roster_refreshData | exact Hw'].
    apply keeps_mutate. intros ? ?. roster_same. }
  destruct accept.
  - rewrite bind_assoc.
    destruct (query_cases
                (select_team_with_profiles (JoinRequest.teamId request))
                w replies)
      as [(m & rest & ->) | (rest & ->)]; [exact Hr|].
    destruct (select_team_with_profiles _ _) as [|teamData [|]] eqn:Hsel;
      try exact Hr.
    apply members_of_the_only_row in Hsel as [Hteam Hmembers].
    destruct (Nat.leb_spec 4 (List.length (snd teamData))); [exact Hr|].
    rewrite bind_assoc.
    destruct (mutate_cases
                (with_profiles_table
                   (update_eq ProfilesRow.id (JoinRequest.userId request)
                      (fun p =>
                         ProfilesRow.mk (ProfilesRow.id p)
                           (Some (JoinRequest.teamId request)))))
                w rest)
      as [(m & rest' & ->) | (rest' & ->)]; [exact Hr|].
    rewrite bind_ret. apply Hrest.
    rewrite Hmembers in *.
    apply (roster_ok_join (db w) _ _ Hr Hteam). assumption.
  - rewrite bind_ret. now apply Hrest.
Qed.

Ltac keeps_roster :=
  keeps_steps;
  try apply keeps_roster_fetchChallenges;
  try apply keeps_roster_refreshData;
  try roster_same.

Lemma fetched_rosters (d : Db) :
  roster_ok d ->
  Forall (fun t => (List.length (Team.memberIds t) <= 4)%nat)
         (map to_Team (select_teams_with_profiles d)).
Proof.
  intros (_ & _ & Cap). unfold select_teams_with_profiles.
  rewrite map_map. apply Forall_map, Forall_forall. intros team _.
  cbn [to_Team snd fst Team.memberIds]. rewrite length_map.
  apply (Cap (TeamsRow.id team)).
Qed.

(** X1.  No operation gives a team a fifth member, whatever the store
    replies and whether the operation resolves or throws: when profile ids
    are a key, every [team_id] points to a team and no team has more than
    four members, the same holds after the operation (a generated team id
    being new), and every team of a list fetched afterwards has at most
    four [memberIds]. *)
Theorem teams_never_exceed_four_members (op : Op) (w : World)
    (replies : list Reply) :
  roster_ok (db w) -> fresh_key op w ->
  let w' := fst (snd (perform op (w, replies))) in
  roster_ok (db w')
  /\ Forall (fun t => (List.length (Team.memberIds t) <= 4)%nat)
            (teams (ui (refreshed w'))).
Proof.
  intros Hr Hfresh.
  assert (Hkept : roster_ok (db (fst (snd (perform op (w, replies)))))).
  { destruct op as [uuid name creatorId league | uuid userId teamId
                   | rid accept | uuid a b | cid accept
                   | cid cs ds tid | cid valid | newSettings | | | | ];
      cbn [perform fresh_key] in *.
    - pose proof (roster_createTeam uuid name creatorId league w replies
                                    Hr Hfresh) as H.
      unfold bind.
      destruct (createTeam uuid name creatorId league (w, replies))
        as [[team|e] s']; exact H.
    - assert (K : keeps (fun w => roster_ok (db w))
                        (requestToJoin uuid userId teamId))
        by (unfold requestToJoin; keeps_roster).
      now apply (K (w, replies)).
    - now apply roster_respondToJoinRequest.
    - assert (K : keeps (fun w => roster_ok (db w))
                        (createChallenge uuid a b))
        by (unfold createChallenge; keeps_roster).
      now apply (K (w, replies)).
    - assert (K : keeps (fun w => roster_ok (db w))
                        (respondToChallenge cid accept))
        by (unfold respondToChallenge; keeps_roster).
      now apply (K (w, replies)).
    - assert (K : keeps (fun w => roster_ok (db w))
                        (submitScore cid cs ds tid))
        by (unfold submitScore; keeps_roster).
      now apply (K (w, replies)).
    - now apply (keeps_roster_validateScore cid valid (w, replies)).
    - assert (K : keeps (fun w => roster_ok (db w))
                        (updateSettings newSettings))
        by (unfold updateSettings; keeps_roster).
      now apply (K (w, replies)).
    - now apply (keeps_roster_refreshData (w, replies)).
    - now apply (keeps_roster_fetchTeams (w, replies)).
    - now apply (keeps_roster_fetchJoinRequests (w, replies)).
    - now apply (keeps_roster_fetchChallenges (w, replies)). }
  split; [exact Hkept | now apply fetched_rosters].
Qed.

(** ** Who is asked to confirm a submitted score *)

(** X10.  After [submitScore] on a challenge that is not validated, the
    store carrying out the call: the match is among the active matches of
    both teams in the Challenges tab; there the submitting team is told to
    wait ([waitingForOpponent]) and every other team is offered to confirm
    or modify ([needToRespond]); the Notifications tab lists the match
    under the scores to validate for both teams of the match, the
    submitting one included. *)
Theorem submitted_score_awaits_confirmation (w : World) (cid : string)
    (cs ds : list number) (submitter : string) (row : ChallengesRow.t) :
  submitter <> "" ->
  In row (challenges_table (db w)) -> ChallengesRow.id row = cid ->
  ChallengesRow.score_validated row = false ->
  let w' := run_ok (submitScore cid cs ds submitter) w in
  let c := to_Challenge (submit_payload cs ds submitter row) in
  (forall side,
      side = ChallengesRow.challenger_team_id row
      \/ side = ChallengesRow.challenged_team_id row ->
      In c (activeChallenges (getTeamChallenges w' side)))
  /\ hasScore c = true
  /\ waitingForOpponent submitter c = true
  /\ needToRespond submitter c = false
  /\ (forall other, other <> submitter -> needToRespond other c = true)
  /\ (forall user myTeam,
        find_my_team w' (User.teamId user) = Some myTeam ->
        Team.id myTeam = ChallengesRow.challenger_team_id row
        \/ Team.id myTeam = ChallengesRow.challenged_team_id row ->
        In c (Notifications.scoreValidationNeeded
                (NotificationsTab w' user))).
Proof.
  intros Hne Hrow Hid Hflag w' c.
  assert (Hin : In c (challenges (ui w'))).
  { unfold w', run_ok. rewrite submitScore_ok. cbn [fst snd].
    cbn [setChallenges ui challenges with_challenges_table db
         challenges_table].
    apply in_map. unfold update_eq. apply in_map_iff. exists row.
    split; [| exact Hrow].
    rewrite Hid, String.eqb_refl. reflexivity. }
  assert (Hby : Challenge.scoreSubmittedBy c = Some submitter).
  { cbn. destruct submitter; [now elim Hne | reflexivity]. }
  split.
  { intros side Hside. unfold activeChallenges, getTeamChallenges.
    apply filter_In. split.
    - apply filter_In. split; [exact Hin|]. cbn.
      destruct Hside as [-> | ->]; rewrite String.eqb_refl;
        now rewrite ?orb_true_r.
    - cbn. now rewrite Hflag. }
  split; [reflexivity|].
  unfold waitingForOpponent, needToRespond, weSubmittedScore.
  rewrite Hby. cbn [option_string_eqb].
  split; [now rewrite String.eqb_refl|].
  split; [now rewrite String.eqb_refl|].
  split.
  - intros other Ho.
    destruct (String.eqb_spec submitter other); [congruence | reflexivity].
  - intros user myTeam Hteam Hside.
    unfold NotificationsTab. rewrite Hteam.
    cbn [Notifications.scoreValidationNeeded].
    apply filter_In. split; [exact Hin|].
    cbn. rewrite Hflag.
    destruct Hside as [-> | ->]; rewrite String.eqb_refl;
      now rewrite ?orb_true_r.
Qed.

(** ** The toast after a validation *)

(** X15.  [handleScoreValidation] always ends with its toast ("Score
    confirmed!" with "The score has been validated and positions updated."
    for a confirmation): [validateScore] never throws, whatever the store
    replies.  In particular, when the store refuses the calls of the
    validation (at most six), nothing at all has changed and the toast is
    the same. *)
Theorem handleScoreValidation_reports_success_whatever_happens
    (challengeId : string) (valid : bool) (w : World) :
  (forall replies,
      fst (handleScoreValidation challengeId valid (w, replies))
      = Resolved
          (Toast.mk
             (if valid then "Score confirmed!" else "Score disputed")
             (if valid
              then "The score has been validated and positions updated."
              else "The score has been disputed. Please re-submit the correct score.")
             None))
  /\ (forall message rest,
        fst (snd (handleScoreValidation challengeId valid
                    (w, repeat (Some message) 6 ++ rest)))
        = w).
Proof.
  split.
  - intros replies. unfold handleScoreValidation.
    destruct (never_throws_validateScore challengeId valid (w, replies))
      as [[] H].
    now rewrite (bind_never_throws _ _ _ _ H).
  - intros message rest. unfold handleScoreValidation, validateScore.
    rewrite bind_assoc, bind_world. cbn [fst].
    destruct (find _ _) as [challenge|]; [| reflexivity].
    destruct (Challenge.score challenge) as [score|]; [| reflexivity].
    destruct w as [d u].
    destruct valid; cbn [negb]; [| reflexivity].
    remember (computed_winner challenge score) as winnerId.
    destruct (winnerId =? Challenge.challengerTeamId challenge)%string eqn:E;
      cbn; rewrite ?E; reflexivity.
Qed.

(** ** The team [createTeam] returns *)

Lemma nobody_joins (uuid creatorId : string) (profiles : list ProfilesRow.t) :
  ~ In creatorId (map ProfilesRow.id profiles) ->
  (forall p, In p profiles -> ProfilesRow.team_id p <> Some uuid) ->
  filter (fun p => option_string_eqb (ProfilesRow.team_id p) uuid)
         (update_eq ProfilesRow.id creatorId
            (fun p => ProfilesRow.mk (ProfilesRow.id p) (Some uuid))
            profiles)
  = [].
Proof.
  intros Hout Hfree. apply filter_none. intros p Hp.
  unfold update_eq in Hp. apply in_map_iff in Hp as (p0 & <- & Hp0).
  destruct (String.eqb_spec (ProfilesRow.id p0) creatorId) as [E|_].
  - exfalso. apply Hout. rewrite <- E. now apply in_map.
  - specialize (Hfree p0 Hp0).
    destruct (ProfilesRow.team_id p0) as [T|]; [| reflexivity].
    cbn. destruct (String.eqb_spec T uuid); [congruence | reflexivity].
Qed.

Lemma creator_is_the_only_member (uuid creatorId : string)
    (profiles : list ProfilesRow.t) :
  NoDup (map ProfilesRow.id profiles) ->
  In creatorId (map ProfilesRow.id profiles) ->
  (forall p, In p profiles -> ProfilesRow.team_id p <> Some uuid) ->
  map ProfilesRow.id
      (filter (fun p => option_string_eqb (ProfilesRow.team_id p) uuid)
              (update_eq ProfilesRow.id creatorId
                 (fun p => ProfilesRow.mk (ProfilesRow.id p) (Some uuid))
                 profiles))
  = [creatorId].
Proof.
  induction profiles as [|p rest IH]; cbn [map];
    intros ND Hin Hfree; [contradiction|].
  inversion ND as [|? ? Hp ND']; subst.
  cbn [update_eq map] in *.
  destruct (String.eqb_spec (ProfilesRow.id p) creatorId) as [E|E].
  - cbn [filter ProfilesRow.team_id option_string_eqb].
    rewrite String.eqb_refl. cbn [map ProfilesRow.id]. rewrite E.
    f_equal. fold (update_eq ProfilesRow.id creatorId
                     (fun p => ProfilesRow.mk (ProfilesRow.id p) (Some uuid))
                     rest).
    rewrite nobody_joins; [reflexivity | now rewrite <- E |].
    intros q Hq. apply Hfree. now right.
  - cbn [filter].
    assert (Hfree_p := Hfree p (or_introl eq_refl)).
    destruct (ProfilesRow.team_id p) as [T|] eqn:HT.
    + cbn [option_string_eqb].
      destruct (String.eqb_spec T uuid); [congruence|].
      apply IH; auto.
      * destruct Hin; [contradiction | assumption].
      * intros q Hq. apply Hfree. now right.
    + cbn [option_string_eqb]. apply IH; auto.
      * destruct Hin; [contradiction | assumption].
      * intros q Hq. apply Hfree. now right.
Qed.

(** X3.  When the creator has a profile and the store carries out the
    calls, the team [createTeam] returns is the team the refreshed list
    holds under the new id ([getTeamById]), with the creator as its only
    member. *)
Theorem created_team_is_the_one_fetched (uuid name creatorId : string)
    (league : League) (w : World) :
  NoDup (map TeamsRow.id (teams_table (db w))) ->
  roster_ok (db w) ->
  ~ In uuid (map TeamsRow.id (teams_table (db w))) ->
  In creatorId (map ProfilesRow.id (profiles_table (db w))) ->
  exists team,
    result_ok (createTeam uuid name creatorId league) w
    = Resolved (Some team)
    /\ getTeamById (run_ok (createTeam uuid name creatorId league) w) uuid
       = Some team
    /\ Team.memberIds team = [creatorId].
Proof.
  intros ND (NDp & FK & _) Hfresh Hcreator.
  unfold result_ok, run_ok. rewrite createTeam_ok. cbn [fst snd].
  set (data := new_team_row uuid name creatorId league w).
  set (w2 := with_profiles_table _ _).
  set (team := Team.mk uuid name creatorId [creatorId] league
                       (TeamsRow.position data) (TeamsRow.position data)).
  exists team. split; [reflexivity|]. split; [| reflexivity].
  unfold getTeamById.
  change uuid with (Team.id team) at 1.
  apply (find_key_in Team.id).
  - eapply Permutation_NoDup.
    + symmetry. apply (current_team_ids (refreshed w2)).
      apply teams_current_refreshed.
    + cbn. rewrite map_app. cbn [map].
      eapply Permutation_NoDup; [apply Permutation_cons_append|].
      now constructor.
  - cbn [refreshed ui teams]. unfold select_teams_with_profiles.
    rewrite map_map. apply in_map_iff. exists data. split.
    + unfold to_Team. cbn [fst snd]. unfold team.
      cbn [w2 with_profiles_table with_teams_table db profiles_table].
      cbn [data new_team_row TeamsRow.id TeamsRow.name TeamsRow.creator_id
           TeamsRow.league TeamsRow.position TeamsRow.previous_position
           nullish].
      f_equal. apply creator_is_the_only_member; auto.
      intros p Hp HT. apply Hfresh. eapply FK; eauto.
    + apply (Permutation_in _ (Permutation_sym (order_by_perm _ _))).
      cbn. apply in_or_app. right. now left.
Qed.

(** ** A match blocks its pair until the score is validated *)

Lemma update_eq_absent {R} (key : R -> string) (k : string)
    (payload : R -> R) (rows : list R) :
  ~ In k (map key rows) -> update_eq key k payload rows = rows.
Proof.
  intros H. unfold update_eq. rewrite <- (map_id rows) at 2.
  apply map_ext_in. intros r Hr.
  destruct (String.eqb_spec (key r) k) as [E|E]; [| reflexivity].
  exfalso. apply H. rewrite <- E. now apply in_map.
Qed.

Lemma between_sym (c : Challenge.t) (a b : string) :
  between c a b = between c b a.
Proof. unfold between. apply orb_comm. Qed.

Lemma guard_sym (a b : string) (l : list Challenge.t) :
  find (fun c => between c a b && active c) l
  = find (fun c => between c b a && active c) l.
Proof.
  induction l as [|c l IH]; cbn; [reflexivity|].
  now rewrite (between_sym c a b), IH.
Qed.

(** X8.  From its creation until its score is validated a match blocks its
    pair: with the client's list current and the store carrying out the
    calls, a further [createChallenge] between the two teams, in either
    direction, throws the duplicate error after the creation, after
    [submitScore] and after a dispute, and resolves after the accepted
    validation. *)
Theorem a_match_blocks_the_pair_until_validated
    (w : World) (uuid other a b x y : string) (cs ds : list number)
    (submitter : string) :
  ~ In uuid (map ChallengesRow.id (challenges_table (db w))) ->
  challenges (ui w) = map to_Challenge (challenges_table (db w)) ->
  result_ok (createChallenge uuid a b) w = Resolved tt ->
  (x = a /\ y = b) \/ (x = b /\ y = a) ->
  let created := run_ok (createChallenge uuid a b) w in
  let submitted := run_ok (submitScore uuid cs ds submitter) created in
  let disputed := run_ok (validateScore uuid false) submitted in
  let validated := run_ok (validateScore uuid true) submitted in
  result_ok (createChallenge other x y) created = Threw duplicate_message
  /\ result_ok (createChallenge other x y) submitted
     = Threw duplicate_message
  /\ result_ok (createChallenge other x y) disputed = Threw duplicate_message
  /\ result_ok (createChallenge other x y) validated = Resolved tt.
Proof.
  intros Hfresh Hcur Hok Hxy.
  set (rows := challenges_table (db w)) in *.
  set (new := new_challenge_row uuid a b).
  assert (Hfree : find (fun c => between c a b && active c)
                       (map to_Challenge rows) = None).
  { unfold result_ok, createChallenge in Hok. rewrite bind_world in Hok.
    cbn [fst] in Hok. rewrite Hcur in Hok.
    destruct (find _ _); [discriminate | reflexivity]. }
  assert (Hguard : forall l,
             find (fun c => between c x y && active c) l
             = find (fun c => between c a b && active c) l).
  { intros l. destruct Hxy as [[-> ->] | [-> ->]];
      [reflexivity | apply guard_sym]. }
  assert (Hthrows : forall v : World,
             (exists c rest, challenges (ui v) = c :: rest
                             /\ between c a b = true /\ active c = true) ->
             result_ok (createChallenge other x y) v
             = Threw duplicate_message).
  { intros v (c & rest & Hv & Hb & Ha).
    unfold result_ok, createChallenge. rewrite bind_world. cbn [fst].
    rewrite Hguard, Hv. cbn [find]. now rewrite Hb, Ha. }
  assert (Hbetween : forall c,
             Challenge.challengerTeamId c = a ->
             Challenge.challengedTeamId c = b -> between c a b = true).
  { intros c Ha Hb. unfold between. now rewrite Ha, Hb, !String.eqb_refl. }
  (* the four worlds *)
  intros created submitted disputed validated.
  assert (E0 : challenges_table (db created) = new :: rows
               /\ challenges (ui created) = map to_Challenge (new :: rows)).
  { unfold created, run_ok, createChallenge. rewrite bind_world. cbn [fst].
    rewrite Hcur. fold rows. rewrite Hfree. split; reflexivity. }
  destruct E0 as [T0 C0].
  assert (E1 : challenges_table (db submitted)
               = submit_payload cs ds submitter new :: rows
               /\ challenges (ui submitted)
                  = map to_Challenge
                        (submit_payload cs ds submitter new :: rows)).
  { unfold submitted, run_ok. rewrite submitScore_ok. cbn [fst snd].
    cbn [setChallenges with_challenges_table db ui challenges
         challenges_table].
    rewrite T0. cbn [update_eq map new new_challenge_row ChallengesRow.id].
    rewrite String.eqb_refl.
    fold (update_eq ChallengesRow.id uuid (submit_payload cs ds submitter)
                    rows).
    rewrite update_eq_absent by exact Hfresh. split; reflexivity. }
  destruct E1 as [T1 C1].
  assert (Hfind : find (fun c => (Challenge.id c =? uuid)%string)
                       (challenges (ui submitted))
                  = Some (to_Challenge (submit_payload cs ds submitter new))).
  { rewrite C1. cbn [map find to_Challenge Challenge.id submit_payload
                     ChallengesRow.id new new_challenge_row].
    now rewrite String.eqb_refl. }
  assert (Hscore : Challenge.score
                     (to_Challenge (submit_payload cs ds submitter new))
                   = Some (mkScore cs ds)) by reflexivity.
  split; [| split; [| split]].
  - apply Hthrows. rewrite C0. cbn [map]. do 2 eexists.
    split; [reflexivity|]. split; [now apply Hbetween | reflexivity].
  - apply Hthrows. rewrite C1. cbn [map]. do 2 eexists.
    split; [reflexivity|]. split; [now apply Hbetween | reflexivity].
  - apply Hthrows. unfold disputed, run_ok.
    rewrite (validateScore_dispute_ok _ _ _ _ Hfind Hscore). cbn [fst snd].
    cbn [refreshed ui challenges with_challenges_table db challenges_table].
    rewrite T1. cbn [update_eq map new new_challenge_row ChallengesRow.id
                     submit_payload].
    rewrite String.eqb_refl. do 2 eexists.
    split; [reflexivity|]. split; [now apply Hbetween | reflexivity].
  - unfold validated, run_ok.
    rewrite (validateScore_accept_ok _ _ _ _ Hfind Hscore). cbn [fst snd].
    unfold result_ok, createChallenge. rewrite bind_world. cbn [fst].
    rewrite Hguard.
    cbn [validated_world refreshed ui challenges db challenges_table].
    rewrite T1. cbn [update_eq map new new_challenge_row ChallengesRow.id
                     submit_payload].
    rewrite String.eqb_refl.
    fold (update_eq ChallengesRow.id uuid
            (winner_payload
               (computed_winner
                  (to_Challenge (submit_payload cs ds submitter new))
                  (mkScore cs ds)))
            rows).
    rewrite update_eq_absent by exact Hfresh.
    cbn [find]. rewrite Hbetween by reflexivity.
    cbn [to_Challenge winner_payload active Challenge.status
         Challenge.scoreValidated ChallengesRow.status
         ChallengesRow.score_validated Status_eqb negb andb orb].
    rewrite Hfree. reflexivity.
Qed.

(** ** Confirming a score twice *)

Lemma find_map {A B} (f : A -> B) (p : B -> bool) (l : list A) :
  find p (map f l) = option_map f (find (fun x => p (f x)) l).
Proof.
  induction l as [|x l IH]; cbn; [reflexivity|].
  destruct (p (f x)); [reflexivity | exact IH].
Qed.

Lemma find_update_eq {R} (key : R -> string) (k : string) (payload : R -> R)
    (rows : list R) :
  (forall r, key (payload r) = key r) ->
  find (fun r => (key r =? k)%string) (update_eq key k payload rows)
  = option_map payload (find (fun r => (key r =? k)%string) rows).
Proof.
  intros Hp. unfold update_eq.
  induction rows as [|r rows IH]; cbn [map find]; [reflexivity|].
  destruct (String.eqb_spec (key r) k) as [E|E].
  - rewrite Hp, E, String.eqb_refl. reflexivity.
  - apply String.eqb_neq in E. rewrite E. exact IH.
Qed.

Lemma team_row_after_ranking (c key : string) (lg : League) (lo hi : Z)
    (rows : list TeamsRow.t) :
  exists F,
    ranking_reference c lg lo hi rows = map F rows
    /\ team_row (ranking_reference c lg lo hi rows) key
       = option_map F (team_row rows key)
    /\ forall t,
         (TeamsRow.id t = c -> TeamsRow.position (F t) = lo)
         /\ (TeamsRow.id t <> c ->
             TeamsRow.position t <= TeamsRow.position (F t)).
Proof.
  exists (fun t =>
            if (TeamsRow.id t =? c)%string then
              TeamsRow.with_positions hi lo t
            else if League_eqb (TeamsRow.league t) lg
                    && (lo <=? TeamsRow.position t)
                    && (TeamsRow.position t <? hi) then
              TeamsRow.with_positions (TeamsRow.position t)
                                      (TeamsRow.position t + 1) t
            else t).
  split; [reflexivity|]. split.
  - unfold team_row, ranking_reference. rewrite find_map.
    f_equal. induction rows as [|r rows IH]; cbn [find]; [reflexivity|].
    rewrite IH.
    destruct (TeamsRow.id r =? c)%string; [reflexivity|].
    destruct (_ && _); reflexivity.
  - intros t. destruct (String.eqb_spec (TeamsRow.id t) c) as [E|E].
    + split; [reflexivity | contradiction].
    + split; [contradiction|]. intros _.
      destruct (_ && _); cbn; lia.
Qed.

Lemma validated_positions_cases (challenge : Challenge.t) (score : Score)
    (rows : list TeamsRow.t) :
  validated_positions challenge score rows = rows
  \/ exists ct dt,
       (computed_winner challenge score
        =? Challenge.challengerTeamId challenge)%string = true
       /\ team_row rows (Challenge.challengerTeamId challenge) = Some ct
       /\ team_row rows (Challenge.challengedTeamId challenge) = Some dt
       /\ TeamsRow.position dt < TeamsRow.position ct
       /\ validated_positions challenge score rows
          = ranking_reference (Challenge.challengerTeamId challenge)
                              (TeamsRow.league ct) (TeamsRow.position dt)
                              (TeamsRow.position ct) rows.
Proof.
  unfold validated_positions.
  destruct (computed_winner challenge score
            =? Challenge.challengerTeamId challenge)%string;
    [| now left].
  destruct (team_row rows (Challenge.challengerTeamId challenge)) as [ct|];
    [| now left].
  destruct (team_row rows (Challenge.challengedTeamId challenge)) as [dt|];
    [| now left].
  destruct (Z.gtb_spec (TeamsRow.position ct) (TeamsRow.position dt));
    [| now left].
  right. exists ct, dt. auto.
Qed.

Lemma validated_positions_ids (challenge : Challenge.t) (score : Score)
    (rows : list TeamsRow.t) :
  map TeamsRow.id (validated_positions challenge score rows)
  = map TeamsRow.id rows.
Proof.
  destruct (validated_positions_cases challenge score rows)
    as [E | (ct & dt & _ & _ & _ & _ & E)]; rewrite E;
    [reflexivity | apply ranking_reference_ids].
Qed.

Lemma validated_positions_twice (challenge : Challenge.t) (score : Score)
    (rows : list TeamsRow.t) :
  validated_positions challenge score
    (validated_positions challenge score rows)
  = validated_positions challenge score rows.
Proof.
  destruct (validated_positions_cases challenge score rows)
    as [E | (ct & dt & Hwin & Hc & Hd & Hlt & E)].
  - now rewrite !E.
  - rewrite E. unfold validated_positions. rewrite Hwin.
    set (c := Challenge.challengerTeamId challenge) in *.
    set (d := Challenge.challengedTeamId challenge) in *.
    set (lg := TeamsRow.league ct).
    set (lo := TeamsRow.position dt) in *.
    set (hi := TeamsRow.position ct) in *.
    destruct (team_row_after_ranking c c lg lo hi rows) as (F & _ & -> & HF).
    destruct (team_row_after_ranking c d lg lo hi rows) as (G & _ & -> & HG).
    rewrite Hc, Hd. cbn [option_map].
    apply find_key_some in Hc as [_ Hcid], Hd as [_ Hdid].
    assert (Hpos : TeamsRow.position (F ct) <= TeamsRow.position (G dt)).
    { rewrite (proj1 (HF ct) Hcid).
      destruct (String.eqb_spec (TeamsRow.id dt) c) as [Es|Es].
      - rewrite (proj1 (HG dt) Es). lia.
      - pose proof (proj2 (HG dt) Es) as Hup. fold lo in Hup. lia. }
    destruct (Z.gtb_spec (TeamsRow.position (F ct))
                         (TeamsRow.position (G dt)));
      [lia | reflexivity].
Qed.

(** X14.  Confirming the same score a second time moves no team: with the
    client's list of challenges current and the store carrying out the
    calls, the teams table after two accepted validations of a challenge is
    the table after one. *)
Theorem validating_twice_moves_nobody_twice (challengeId : string)
    (w : World) :
  NoDup (map TeamsRow.id (teams_table (db w))) ->
  challenges (ui w) = map to_Challenge (challenges_table (db w)) ->
  let once := run_ok (validateScore challengeId true) w in
  teams_table (db (run_ok (validateScore challengeId true) once))
  = teams_table (db once).
Proof.
  intros ND Hcur once.
  destruct (find (fun c => (Challenge.id c =? challengeId)%string)
                 (challenges (ui w))) as [challenge|] eqn:Hfind.
  2:{ unfold once, run_ok.
      rewrite (validateScore_unknown _ _ (w, [])) by exact Hfind.
      cbn [fst snd].
      now rewrite (validateScore_unknown _ _ (w, [])) by exact Hfind. }
  destruct (Challenge.score challenge) as [score|] eqn:Hscore.
  2:{ unfold once, run_ok.
      rewrite (validateScore_no_score _ _ (w, []) challenge) by assumption.
      cbn [fst snd].
      now rewrite (validateScore_no_score _ _ (w, []) challenge)
        by assumption. }
  assert (Honce : once = validated_world challengeId challenge score w).
  { unfold once, run_ok.
    now rewrite (validateScore_accept_ok _ _ _ _ Hfind Hscore). }
  rewrite Hcur, find_map in Hfind.
  destruct (find (fun x => (Challenge.id (to_Challenge x) =? challengeId)%string)
                 (challenges_table (db w))) as [row|] eqn:Hrow;
    [| discriminate].
  injection Hfind as <-.
  set (challenge := to_Challenge row) in *.
  set (win := computed_winner challenge score) in *.
  set (challenge' := to_Challenge (winner_payload win row)).
  assert (Hfind' : find (fun c => (Challenge.id c =? challengeId)%string)
                        (challenges (ui once)) = Some challenge').
  { rewrite Honce.
    cbn [validated_world refreshed ui challenges db challenges_table].
    rewrite find_map.
    change (fun x => (Challenge.id (to_Challenge x) =? challengeId)%string)
      with (fun x => (ChallengesRow.id x =? challengeId)%string) in *.
    rewrite find_update_eq by reflexivity.
    fold win. now rewrite Hrow. }
  assert (Hscore' : Challenge.score challenge' = Some score)
    by exact Hscore.
  unfold run_ok at 1.
  rewrite (validateScore_accept_ok _ _ _ _ Hfind' Hscore').
  cbn [fst snd validated_world refreshed db teams_table].
  rewrite Honce.
  cbn [validated_world refreshed db teams_table].
  rewrite !accepted_positions_reference; auto.
  - change (validated_positions challenge' score)
      with (validated_positions challenge score).
    apply validated_positions_twice.
  - rewrite accepted_positions_reference by exact ND.
    now rewrite validated_positions_ids.
Qed.

(** ** From a join request to membership *)

Lemma filter_by_key_single {R} (key : R -> string) (rows : list R) (r : R) :
  NoDup (map key rows) -> In r rows ->
  filter (fun x => (key x =? key r)%string) rows = [r].
Proof.
  induction rows as [|x rows IH]; cbn [map filter]; intros ND Hin;
    [contradiction|].
  inversion ND as [|? ? Hx ND']; subst.
  destruct Hin as [->|Hin].
  - rewrite String.eqb_refl. f_equal. apply filter_none.
    intros y Hy. destruct (String.eqb_spec (key y) (key r)) as [E|E];
      [| reflexivity].
    exfalso. apply Hx. rewrite <- E. now apply in_map.
  - destruct (String.eqb_spec (key x) (key r)) as [E|E].
    + exfalso. apply Hx. rewrite E. now apply in_map.
    + now apply IH.
Qed.

Lemma find_key_exists {R} (key : R -> string) (rows : list R) (k : string) :
  In k (map key rows) ->
  exists r, find (fun x => (key x =? k)%string) rows = Some r.
Proof.
  intros H. apply in_map_iff in H as (r & Hk & Hr).
  destruct (find (fun x => (key x =? k)%string) rows) as [r'|] eqn:Hf;
    [now exists r'|].
  apply (find_none _ _ Hf) in Hr. rewrite Hk, String.eqb_refl in Hr.
  discriminate.
Qed.

(** X2.  From request to membership.  In a reachable state, for a team
    that [getAvailableTeams] offers and a user with a profile, the store
    carrying out the calls: after [requestToJoin] and the fetch, the
    request is among the pending requests of the team
    ([getTeamJoinRequests]); accepting it resolves; afterwards the user is
    among the [memberIds] of the team in the client's list and the request
    is accepted. *)
Theorem join_request_round_trip (w : World) (uuid userId : string)
    (team : Team.t) (league : League) :
  reachable w ->
  In team (getAvailableTeams w league) ->
  In userId (map ProfilesRow.id (profiles_table (db w))) ->
  let teamId := Team.id team in
  let requested :=
    run_ok fetchJoinRequests (run_ok (requestToJoin uuid userId teamId) w) in
  let joined := run_ok (respondToJoinRequest uuid true) requested in
  In (JoinRequest.mk uuid userId teamId Request.pending)
     (getTeamJoinRequests requested teamId)
  /\ result_ok (respondToJoinRequest uuid true) requested = Resolved tt
  /\ (exists team',
         getTeamById joined teamId = Some team'
         /\ In userId (Team.memberIds team'))
  /\ find (fun r => (JoinRequest.id r =? uuid)%string)
          (joinRequests (ui joined))
     = Some (JoinRequest.mk uuid userId teamId Request.accepted).
Proof.
  intros Hw Hoffer Huser teamId requested joined.
  pose proof (reachable_ladder_ok w Hw) as (ND & _ & _).
  pose proof (reachable_teams_current w Hw) as Hc.
  apply filter_In in Hoffer as [Hteam Hroom].
  apply andb_true_iff in Hroom as [_ Hroom]. apply Nat.ltb_lt in Hroom.
  (* the row behind [team] *)
  rewrite Hc in Hteam. unfold select_teams_with_profiles in Hteam.
  rewrite map_map in Hteam. apply in_map_iff in Hteam as (row & Hrow & Hin).
  apply (Permutation_in _ (order_by_perm _ _)) in Hin.
  assert (Hid : TeamsRow.id row = teamId) by (unfold teamId; now rewrite <- Hrow).
  assert (Hcount : (List.length (members (db w) teamId) < 4)%nat).
  { unfold members. rewrite <- Hid. rewrite <- Hrow in Hroom.
    cbn [to_Team fst snd Team.memberIds] in Hroom.
    now rewrite length_map in Hroom. }
  set (new := JoinRequestsRow.mk uuid userId teamId Request.pending).
  assert (Hreq : requested
                 = setJoinRequests
                     (map to_JoinRequest (new :: join_requests_table (db w)))
                     (with_join_requests_table (fun rows => new :: rows) w))
    by reflexivity.
  clearbody requested.
  assert (Hfind : find (fun r => (JoinRequest.id r =? uuid)%string)
                       (joinRequests (ui requested))
                  = Some (JoinRequest.mk uuid userId teamId Request.pending)).
  { rewrite Hreq. cbn. now rewrite String.eqb_refl. }
  assert (Hsel : select_team_with_profiles teamId (db requested)
                 = [(row, members (db w) teamId)]).
  { rewrite Hreq. unfold select_team_with_profiles, members.
    cbn [setJoinRequests with_join_requests_table db teams_table
         profiles_table].
    rewrite <- Hid, (filter_by_key_single TeamsRow.id _ row ND Hin).
    reflexivity. }
  assert (Hrun : respondToJoinRequest uuid true (requested, [])
                 = (Resolved tt,
                    (refreshed
                       (with_join_requests_table
                          (update_eq JoinRequestsRow.id uuid
                             (fun r =>
                                JoinRequestsRow.mk (JoinRequestsRow.id r)
                                  (JoinRequestsRow.user_id r)
                                  (JoinRequestsRow.team_id r)
                                  Request.accepted))
                          (with_profiles_table
                             (update_eq ProfilesRow.id userId
                                (fun p => ProfilesRow.mk (ProfilesRow.id p)
                                                         (Some teamId)))
                             requested)), []))).
  { unfold respondToJoinRequest. rewrite bind_world. cbn [fst].
    rewrite Hfind. cbn [JoinRequest.teamId JoinRequest.userId].
    rewrite bind_assoc, bind_query_ok, Hsel. cbn [snd].
    destruct (Nat.leb_spec 4 (List.length (members (db w) teamId)));
      [lia|].
    rewrite bind_assoc, bind_mutate_ok, bind_ret, bind_mutate_ok,
      refreshData_ok.
    reflexivity. }
  split; [| split; [| split]].
  - unfold getTeamJoinRequests. apply filter_In. split.
    + rewrite Hreq. cbn. now left.
    + cbn. now rewrite String.eqb_refl.
  - unfold result_ok. now rewrite Hrun.
  - unfold joined, run_ok. rewrite Hrun. cbn [fst snd].
    set (v := with_join_requests_table _ _).
    destruct (find_key_exists Team.id (teams (ui (refreshed v))) teamId)
      as [team' Hfound].
    { apply (Permutation_in
               _ (Permutation_sym
                    (current_team_ids (refreshed v)
                                      (teams_current_refreshed v)))).
      unfold v. cbn. rewrite Hreq. cbn. rewrite <- Hid. now apply in_map. }
    exists team'. split; [exact Hfound|].
    apply find_some in Hfound as [Hin' Hid'].
    apply String.eqb_eq in Hid'. unfold v in Hin'. rewrite Hreq in Hin'.
    cbn [refreshed ui teams] in Hin'.
    unfold select_teams_with_profiles in Hin'.
    rewrite map_map in Hin'.
    apply in_map_iff in Hin' as (row' & <- & _).
    cbn [to_Team fst snd Team.memberIds Team.id] in *.
    apply in_map_iff in Huser as (p & Hp & Hpin).
    apply in_map_iff.
    exists (ProfilesRow.mk (ProfilesRow.id p) (Some teamId)).
    split; [exact Hp|]. apply filter_In. split.
    + cbn. unfold update_eq. apply in_map_iff. exists p.
      split; [| exact Hpin]. now rewrite Hp, String.eqb_refl.
    + cbn. rewrite Hid'. apply String.eqb_refl.
  - unfold joined, run_ok. rewrite Hrun. cbn [fst snd].
    cbn [refreshed ui joinRequests with_join_requests_table db
         join_requests_table with_profiles_table].
    rewrite Hreq.
    cbn [setJoinRequests with_join_requests_table db join_requests_table
         update_eq map find new JoinRequestsRow.id to_JoinRequest
         JoinRequest.id].
    rewrite !String.eqb_refl. reflexivity.
Qed.

(** ** The league table after an upset *)

(** A row of the table before the ranking update, as the reference function
    leaves it. *)
Lemma ranking_reference_row (c : string) (lg : League) (lo hi : Z)
    (rows : list TeamsRow.t) (r : TeamsRow.t) :
  In r rows ->
  In (if (TeamsRow.id r =? c)%string then TeamsRow.with_positions hi lo r
      else if League_eqb (TeamsRow.league r) lg
              && (lo <=? TeamsRow.position r)
              && (TeamsRow.position r <? hi)
           then TeamsRow.with_positions (TeamsRow.position r)
                                        (TeamsRow.position r + 1) r
           else r)
     (ranking_reference c lg lo hi rows).
Proof.
  intros Hr. unfold ranking_reference.
  apply (in_map (fun t =>
                   if (TeamsRow.id t =? c)%string
                   then TeamsRow.with_positions hi lo t
                   else if League_eqb (TeamsRow.league t) lg
                           && (lo <=? TeamsRow.position t)
                           && (TeamsRow.position t <? hi)
                        then TeamsRow.with_positions
                               (TeamsRow.position t)
                               (TeamsRow.position t + 1) t
                        else t)).
  exact Hr.
Qed.

(** A team row of the store is a line of the table of its league once the
    client's list is current. *)
Lemma current_row_is_shown (w : World) (r : TeamsRow.t) :
  teams_current w -> In r (teams_table (db w)) ->
  In (TeamsRow.position r, TeamsRow.name r,
      PositionChange (TeamsRow.position r)
                     (Some (nullish (TeamsRow.previous_position r)
                                    (TeamsRow.position r))))
     (LeagueTable w (TeamsRow.league r)).
Proof.
  intros Hcur Hr. unfold LeagueTable. apply in_map_iff.
  exists (to_Team (r, filter (fun p => option_string_eqb
                                         (ProfilesRow.team_id p)
                                         (TeamsRow.id r))
                             (profiles_table (db w)))).
  split; [reflexivity|].
  unfold leagueTeams.
  apply (Permutation_in _ (Permutation_sym (order_by_perm _ _))).
  apply filter_In. split.
  - rewrite Hcur. unfold select_teams_with_profiles. rewrite map_map.
    apply in_map_iff. exists r. split; [reflexivity|].
    now apply (Permutation_in _ (Permutation_sym (order_by_perm _ _))).
  - cbn. apply League_eqb_refl.
Qed.

(** X5.  After an accepted validation won by a challenger that stood below
    the challenged team, in a state reached while the store carries out
    every call and the store carrying out the calls of the validation, the
    table of the challenger's league has a line for the challenger at the
    position the challenged team had, with the rising arrow and the number
    of ranks gained, and a line with the falling arrow and -1 at every
    position from the one below it down to the challenger's former
    position; and no line at these positions shows anything else. *)
Theorem league_table_shows_the_upset (w : World) (challengeId : string)
    (challenge : Challenge.t) (score : Score) (ct dt : TeamsRow.t) :
  reachable w ->
  find (fun c => (Challenge.id c =? challengeId)%string)
       (challenges (ui w)) = Some challenge ->
  Challenge.score challenge = Some score ->
  computed_winner challenge score = Challenge.challengerTeamId challenge ->
  team_row (teams_table (db w)) (Challenge.challengerTeamId challenge)
  = Some ct ->
  team_row (teams_table (db w)) (Challenge.challengedTeamId challenge)
  = Some dt ->
  TeamsRow.position dt < TeamsRow.position ct ->
  let w' := run_ok (validateScore challengeId true) w in
  let lo := TeamsRow.position dt in
  let hi := TeamsRow.position ct in
  In (lo, TeamsRow.name ct, TrendingUp (hi - lo))
     (LeagueTable w' (TeamsRow.league ct))
  /\ (forall position,
        lo < position <= hi ->
        exists name,
          In (position, name, TrendingDown (-1))
             (LeagueTable w' (TeamsRow.league ct)))
  /\ (forall position name movement,
        In (position, name, movement) (LeagueTable w' (TeamsRow.league ct)) ->
        (position = lo -> movement = TrendingUp (hi - lo))
        /\ (lo < position <= hi -> movement = TrendingDown (-1))).
Proof.
  intros Hw Hfind Hscore Hwin Hc Hd Hlt w' lo hi.
  pose proof (reachable_ladder_ok w Hw) as (ND & D & _).
  set (rows := teams_table (db w)) in *.
  set (c := Challenge.challengerTeamId challenge) in *.
  set (lg := TeamsRow.league ct) in *.
  assert (Hrows : teams_table (db w') = ranking_reference c lg lo hi rows).
  { unfold w', run_ok.
    rewrite (validateScore_accept_ok _ _ _ _ Hfind Hscore). cbn [fst snd].
    cbn [validated_world refreshed db teams_table].
    rewrite accepted_positions_reference by exact ND.
    unfold validated_positions. fold c rows.
    rewrite Hwin, String.eqb_refl, Hc, Hd.
    destruct (Z.gtb_spec (TeamsRow.position ct) (TeamsRow.position dt));
      [reflexivity | lia]. }
  assert (Hcur : teams_current w').
  { unfold w', run_ok.
    rewrite (validateScore_accept_ok _ _ _ _ Hfind Hscore).
    apply teams_current_refreshed. }
  pose proof Hc as Hc'. apply find_key_some in Hc' as [Hct Hcid].
  assert (Hdlo : 1 <= lo).
  { apply find_key_some in Hd as [Hdt _].
    assert (Hin : In lo (league_positions (TeamsRow.league dt) rows)).
    { unfold league_positions. apply in_map, filter_In. split; auto.
      apply League_eqb_refl. }
    apply (dense_in _ _ _ (D _)) in Hin. lia. }
  assert (Hhi : hi <= Z.of_nat (List.length (league_positions lg rows))).
  { assert (Hin : In hi (league_positions lg rows)).
    { unfold league_positions. apply in_map, filter_In. split; auto.
      apply League_eqb_refl. }
    apply (dense_in _ _ _ (D _)) in Hin. lia. }
  split; [| split].
  - (* the challenger's line *)
    pose proof (ranking_reference_row c lg lo hi rows ct Hct) as Hnew.
    rewrite Hcid, String.eqb_refl, <- Hrows in Hnew.
    apply (current_row_is_shown w' _ Hcur) in Hnew.
    cbn [TeamsRow.with_positions TeamsRow.position TeamsRow.name
         TeamsRow.league TeamsRow.previous_position nullish] in Hnew.
    unfold PositionChange in Hnew. cbn [nullish] in Hnew.
    assert (Hup : (hi - lo >? 0) = true) by (apply Z.gtb_lt; lia).
    rewrite Hup in Hnew. exact Hnew.
  - (* the lines of the teams it passed *)
    intros position Hrange.
    assert (Hin : In (position - 1) (league_positions lg rows))
      by (apply (dense_in _ _ _ (D lg)); lia).
    unfold league_positions in Hin.
    apply in_map_iff in Hin as (r & Hpos & Hr).
    apply filter_In in Hr as [Hr Hl].
    assert (Hnc : TeamsRow.id r <> c).
    { intros E.
      assert (r = ct)
        by (apply (NoDup_map_injective TeamsRow.id rows); auto; congruence).
      subst r. unfold hi in *. lia. }
    pose proof (ranking_reference_row c lg lo hi rows r Hr) as Hnew.
    apply String.eqb_neq in Hnc. rewrite Hnc, Hl in Hnew.
    destruct (Z.leb_spec lo (TeamsRow.position r)); [| lia].
    destruct (Z.ltb_spec (TeamsRow.position r) hi); [| lia].
    cbn [andb] in Hnew. rewrite <- Hrows in Hnew.
    apply (current_row_is_shown w' _ Hcur) in Hnew.
    cbn [TeamsRow.with_positions TeamsRow.position TeamsRow.name
         TeamsRow.league TeamsRow.previous_position nullish] in Hnew.
    apply League_eqb_eq in Hl. rewrite Hl in Hnew.
    unfold PositionChange in Hnew. cbn [nullish] in Hnew.
    replace (TeamsRow.position r - (TeamsRow.position r + 1)) with (-1)
      in Hnew by lia.
    cbn in Hnew.
    exists (TeamsRow.name r).
    replace position with (TeamsRow.position r + 1) by lia.
    exact Hnew.
  - (* nothing else at these positions *)
    intros position name movement Hrow.
    destruct (ranking_reference_per_team c lg lo hi rows) as (F & HF & Hper).
    unfold LeagueTable in Hrow.
    apply in_map_iff in Hrow as (t & Ht & Hin).
    injection Ht as <- _ <-.
    unfold leagueTeams in Hin.
    apply (Permutation_in _ (order_by_perm _ _)) in Hin.
    apply filter_In in Hin as [Hin Hl]. apply League_eqb_eq in Hl.
    rewrite Hcur in Hin. unfold select_teams_with_profiles in Hin.
    rewrite map_map in Hin. apply in_map_iff in Hin as (r' & <- & Hr').
    apply (Permutation_in _ (order_by_perm _ _)) in Hr'.
    rewrite Hrows, HF in Hr'. apply in_map_iff in Hr' as (r & <- & Hr).
    cbn [to_Team fst snd Team.position Team.previousPosition Team.league]
      in *.
    destruct (Hper r) as (_ & Hleague & Hwinner & Hshift & Hsame).
    unfold PositionChange.
    destruct (String.eqb_spec (TeamsRow.id r) c) as [E|E].
    + destruct (Hwinner E) as [-> ->]. cbn [nullish].
      split; [| lia]. intros _.
      destruct (Z.gtb_spec (hi - lo) 0); [reflexivity | lia].
    + rewrite Hleague in Hl.
      destruct (Z.leb_spec lo (TeamsRow.position r)) as [H1|H1];
        [destruct (Z.ltb_spec (TeamsRow.position r) hi) as [H2|H2] |].
      * destruct (Hshift E Hl (conj H1 H2)) as [-> ->]. cbn [nullish].
        split; [lia|]. intros _.
        replace (TeamsRow.position r - (TeamsRow.position r + 1)) with (-1)
          by lia.
        reflexivity.
      * rewrite (Hsame E) by lia. split; [lia|]. intros Hrange.
        exfalso. apply E. rewrite <- Hcid. f_equal.
        apply (NoDup_map_injective TeamsRow.position
                 (filter (fun t => League_eqb (TeamsRow.league t) lg) rows));
          [apply (dense_NoDup lg rows (D lg)) | | | unfold hi in *; lia];
          apply filter_In; split; auto; apply League_eqb_eq; auto.
      * rewrite (Hsame E) by lia. split; lia.
Qed.

(** ** Accepting a request for a full team *)

(** X17.  Accepting a join request for a team that has four members or more
    in the store ends in the error toast "Team is full (4 players maximum)"
    and changes nothing, in the store or in the client, however out of date
    the client's list of teams is; the store is only read. *)
Theorem full_team_turns_the_request_down (w : World)
    (requestId userName : string) (request : JoinRequest.t)
    (row : TeamsRow.t) (rest : list Reply) :
  find (fun r => (JoinRequest.id r =? requestId)%string)
       (joinRequests (ui w)) = Some request ->
  NoDup (map TeamsRow.id (teams_table (db w))) ->
  In row (teams_table (db w)) ->
  TeamsRow.id row = JoinRequest.teamId request ->
  (4 <= List.length (members (db w) (JoinRequest.teamId request)))%nat ->
  handleJoinRequestResponse requestId true userName (w, None :: rest)
  = (Resolved (Toast.mk "Error" "Team is full (4 players maximum)"
                        (Some "destructive")),
     (w, rest)).
Proof.
  intros Hfind ND Hrow Hid Hfull.
  assert (Hsel : select_team_with_profiles (JoinRequest.teamId request) (db w)
                 = [(row, members (db w) (JoinRequest.teamId request))]).
  { unfold select_team_with_profiles, members.
    rewrite <- Hid, (filter_by_key_single TeamsRow.id _ row ND Hrow).
    reflexivity. }
  assert (Hthrows : respondToJoinRequest requestId true (w, None :: rest)
                    = (Threw "Team is full (4 players maximum)", (w, rest))).
  { unfold respondToJoinRequest. rewrite bind_world. cbn [fst].
    rewrite Hfind, bind_assoc.
    change (bind (query (select_team_with_profiles
                           (JoinRequest.teamId request))) ?k
                 (w, None :: rest))
      with (k (inr (select_team_with_profiles (JoinRequest.teamId request)
                                               (db w)))
              (w, rest)).
    rewrite Hsel. cbn [snd].
    destruct (Nat.leb_spec 4 (List.length
                                (members (db w)
                                         (JoinRequest.teamId request))));
      [reflexivity | lia]. }
  unfold handleJoinRequestResponse, try_catch, bind at 1.
  rewrite Hthrows. reflexivity.
Qed.

(** ** What a validation leaves alone *)

Lemma update_eq_map {R B} (key : R -> string) (k : string) (payload : R -> R)
    (f : R -> B) (rows : list R) :
  (forall r, f (payload r) = f r) ->
  map f (update_eq key k payload rows) = map f rows.
Proof.
  intros Hp. unfold update_eq. rewrite map_map. apply map_ext.
  intros r. destruct (key r =? k)%string; auto.
Qed.

Ltac same_league_step :=
  cbv beta in *;
  match goal with
  | H : same_league ?d0 _ |- same_league ?d0 _ =>
    destruct H as (H1 & H2 & H3 & H4 & H5);
    repeat split; cbn;
    rewrite ?update_eq_map by reflexivity;
    assumption
  end.

Lemma keeps_same_league_refreshData (d0 : Db) :
  keeps (fun w => same_league d0 (db w)) refreshData.
Proof.
  intros s H. now rewrite (proj2 (refreshData_db s)).
Qed.

(** X18.  Whatever the store replies, an accepted validation or a dispute
    writes nothing but ranks and the progress of challenges: the team rows
    keep their order, ids, names, creators and leagues, the challenges keep
    their ids and their two teams, and profiles, join requests and settings
    are as before.  A refused step of the ranking update can leave wrong
    ranks behind, but never a lost, doubled or renamed team. *)
Theorem validateScore_writes_ranks_and_progress_only
    (challengeId : string) (valid : bool) (w : World)
    (replies : list Reply) :
  same_league (db w)
              (db (fst (snd (validateScore challengeId valid (w, replies))))).
Proof.
  assert (K : keeps (fun v => same_league (db w) (db v))
                    (validateScore challengeId valid)).
  { unfold validateScore, updatePositions.
    keeps_steps; try apply keeps_same_league_refreshData; same_league_step. }
  apply (K (w, replies)). repeat split.
Qed.

(** ** Where density and the duplicate guard end *)

(** C2 refuted as stated.  The worked ladder with its challenge is a state
    the operations reach; the validation is run from it and the store
    refuses its ninth call, step 3 of the ranking update.  The positions of
    the league are then 1, 3, 4, 5, 6, 99999, 7, 8 in table order: rank 2 is
    missing and the temporary position is left, so they are no permutation
    of 1..8. *)
Lemma refused_step_breaks_density :
  reachable challenged8
  /\ league_positions mens (teams_table (db gap8))
     = [1; 3; 4; 5; 6; 99999; 7; 8]
  /\ ~ dense mens (teams_table (db gap8)).
Proof.
  assert (E : league_positions mens (teams_table (db gap8))
              = [1; 3; 4; 5; 6; 99999; 7; 8])
    by (vm_compute; reflexivity).
  split; [exact challenged8_reachable | split; [exact E |]].
  unfold dense. rewrite E. intros P.
  assert (H : In 99999 (one_to (List.length [1; 3; 4; 5; 6; 99999; 7; 8]))).
  { apply (Permutation_in _ P). do 5 right. left. reflexivity. }
  apply in_one_to in H. cbn in H. lia.
Qed.

(** C6 refuted as stated.  A state the operations reach with every call
    carried out: the challenge of team 6 to team 2 is declined, the list is
    fetched, and the challenge is accepted after all.  The store holds an
    accepted challenge between the two teams, the client's list shows it as
    declined, and [createChallenge] for the same pair resolves: the store
    then holds two accepted challenges between them. *)
Lemma createChallenge_guard_reads_the_cached_list :
  reachable stale8
  /\ challenge_states stale8 = [("c1", "t6", "t2", accepted)]
  /\ map (fun c => (Challenge.id c, Challenge.status c))
         (challenges (ui stale8))
     = [("c1", declined)]
  /\ result_ok (createChallenge "c2" "t6" "t2") stale8 = Resolved tt
  /\ challenge_states (run_ok (createChallenge "c2" "t6" "t2") stale8)
     = [("c2", "t6", "t2", accepted); ("c1", "t6", "t2", accepted)].
Proof.
  split.
  - unfold stale8, run_all. cbn [fold_left].
    do 4 (apply reach_step; [| new_key]).
    apply ladder8_reachable.
  - repeat split; vm_compute; reflexivity.
Qed.

(** ** The further properties at work *)

Ltac in_list := repeat (first [left; reflexivity | right]).


Lemma club_reachable : reachable club.
Proof.
  unfold club, run_all. cbn [fold_left].
  repeat (apply reach_step; [| new_key]).
  apply reach_start.
Qed.

Lemma accepted_score_decides_the_match_witness :
  computed_winner challenge8 (mkScore [Some 6; Some 6] [Some 4; Some 3])
  = "t6".
Proof.
  rewrite (proj2 (proj2 (proj2 (proj2
             (accepted_score_decides_the_match
                (Some "c1") (Some "t6")
                (mkParsedScores (Some 6) (Some 4) (Some 6) (Some 3) None None)
                "c1" "t6" [Some 6; Some 6] [Some 4; Some 3]
                eq_refl eq_refl eq_refl))))
             challenge8).
  reflexivity.
Defined.



Lemma offered_teams_are_those_the_guard_lets_through_witness :
  match Challenges challenged8 1740787200000 (Some "t6") with
  | Some tab =>
    In team4 (ChallengesTab.challengeableTeams tab)
    <-> result_ok (createChallenge "c9" (Team.id (ChallengesTab.myTeam tab))
                                   (Team.id team4))
                  challenged8
        = Resolved tt
  | None => False
  end.
Proof.
  destruct (Challenges challenged8 1740787200000 (Some "t6")) as [tab|]
    eqn:Htab.
  - apply (offered_teams_are_those_the_guard_lets_through
             challenged8 1740787200000 (Some "t6") tab team4 "c9"
             challenged8_reachable Htab).
    + vm_compute. in_list.
    + vm_compute in Htab. injection Htab as <-. vm_compute. reflexivity.
  - vm_compute in Htab. discriminate Htab.
Defined.

Lemma no_challenge_waits_for_an_answer_witness :
  Notifications.incomingChallenges
    (NotificationsTab challenged8 (User.mk "u2" (Some "t2")))
  = [].
Proof.
  apply (proj1 (no_challenge_waits_for_an_answer
                  challenged8 (User.mk "u2" (Some "t2"))
                  challenged8_reachable)).
Defined.

Lemma teams_never_exceed_four_members_witness :
  roster_ok
    (db (fst (snd (perform (CreateTeam "t1" "Team 1" "u1" mens)
                           (club_start, [None; Some "refused"]))))).
Proof.
  refine (proj1 (teams_never_exceed_four_members
                   (CreateTeam "t1" "Team 1" "u1" mens) club_start
                   [None; Some "refused"] _ _)).
  - split; [| split].
    + vm_compute. distinct_strings.
    + intros p teamId Hp Ht. vm_compute in Hp.
      repeat (destruct Hp as [<-|Hp]; [discriminate Ht|]). destruct Hp.
    + intros teamId. cbn. lia.
  - intros H. exact H.
Defined.

Lemma submitted_score_awaits_confirmation_witness :
  needToRespond "t2"
    (to_Challenge (submit_payload [Some 6; Some 6] [Some 4; Some 3] "t6"
                                  (new_challenge_row "c1" "t6" "t2")))
  = true.
Proof.
  refine (proj1 (proj2 (proj2 (proj2 (proj2
            (submitted_score_awaits_confirmation
               created8 "c1" [Some 6; Some 6] [Some 4; Some 3] "t6"
               (new_challenge_row "c1" "t6" "t2") _ _ eq_refl eq_refl)))))
            "t2" _).
  - discriminate.
  - vm_compute. left. reflexivity.
  - discriminate.
Defined.

Lemma created_team_is_the_one_fetched_witness :
  exists team,
    getTeamById (run_ok (createTeam "t1" "Team 1" "u1" mens) club_start) "t1"
    = Some team
    /\ Team.memberIds team = ["u1"].
Proof.
  destruct (created_team_is_the_one_fetched "t1" "Team 1" "u1" mens
                                            club_start)
    as (team & _ & Hget & Hmembers).
  - constructor.
  - split; [| split].
    + vm_compute. distinct_strings.
    + intros p teamId Hp Ht. vm_compute in Hp.
      repeat (destruct Hp as [<-|Hp]; [discriminate Ht|]). destruct Hp.
    + intros teamId. cbn. lia.
  - intros H. exact H.
  - vm_compute. left. reflexivity.
  - exists team. split; assumption.
Defined.

Lemma a_match_blocks_the_pair_until_validated_witness :
  result_ok (createChallenge "c2" "t2" "t6") created8
  = Threw duplicate_message.
Proof.
  apply (proj1 (a_match_blocks_the_pair_until_validated
                  ladder8 "c1" "c2" "t6" "t2" "t2" "t6"
                  [Some 6; Some 6] [Some 4; Some 3] "t6"
                  (fun H : In "c1" [] => H) eq_refl eq_refl
                  (or_intror (conj eq_refl eq_refl)))).
Defined.

Lemma validating_twice_moves_nobody_twice_witness :
  teams_table (db (run_ok (validateScore "c1" true) validated8))
  = teams_table (db validated8).
Proof.
  apply (validating_twice_moves_nobody_twice "c1" challenged8).
  - vm_compute. distinct_strings.
  - vm_compute. reflexivity.
Defined.

Lemma join_request_round_trip_witness :
  result_ok (respondToJoinRequest "r1" true)
            (run_ok fetchJoinRequests
                    (run_ok (requestToJoin "r1" "u3" "t1") club))
  = Resolved tt.
Proof.
  refine (proj1 (proj2 (join_request_round_trip
                          club "r1" "u3"
                          (Team.mk "t1" "Team 1" "u1" ["u1"] mens 1 1) mens
                          club_reachable _ _))).
  - vm_compute. left. reflexivity.
  - vm_compute. in_list.
Defined.

Lemma league_table_shows_the_upset_witness :
  In (2, "Team 6", TrendingUp 4) (LeagueTable validated8 mens)
  /\ exists name,
       In (3, name, TrendingDown (-1)) (LeagueTable validated8 mens).
Proof.
  destruct (league_table_shows_the_upset challenged8 "c1" challenge8 score8
                                         row6 row2 challenged8_reachable)
    as (Hup & Hdown & _).
  - vm_compute. reflexivity.
  - reflexivity.
  - vm_compute. reflexivity.
  - vm_compute. reflexivity.
  - vm_compute. reflexivity.
  - vm_compute. reflexivity.
  - split; [exact Hup | apply (Hdown 3); cbn; lia].
Defined.

Lemma ranking_steps_respect_schema_witness :
  Forall unique_positions
         (steps_trace "t6" row6 row2 (teams_table (db challenged8))).
Proof.
  apply (ranking_steps_respect_schema challenged8 "t6" row6 row2).
  - apply reachable_ladder_ok, challenged8_reachable.
  - intros []; vm_compute; reflexivity.
  - vm_compute. reflexivity.
  - vm_compute. reflexivity.
Defined.

Lemma full_team_turns_the_request_down_witness :
  handleJoinRequestResponse "r1" true "Player 5"
    (mkWorld
       (mkDb [TeamsRow.mk "t1" "Team 1" "u1" mens 1 (Some 1)] []
             [ProfilesRow.mk "u1" (Some "t1"); ProfilesRow.mk "u2" (Some "t1");
              ProfilesRow.mk "u3" (Some "t1"); ProfilesRow.mk "u4" (Some "t1");
              ProfilesRow.mk "u5" None]
             [JoinRequestsRow.mk "r1" "u5" "t1" Request.pending] None)
       (mkClient [] [JoinRequest.mk "r1" "u5" "t1" Request.pending] [] None),
     [None])
  = (Resolved (Toast.mk "Error" "Team is full (4 players maximum)"
                        (Some "destructive")),
     (mkWorld
        (mkDb [TeamsRow.mk "t1" "Team 1" "u1" mens 1 (Some 1)] []
              [ProfilesRow.mk "u1" (Some "t1"); ProfilesRow.mk "u2" (Some "t1");
               ProfilesRow.mk "u3" (Some "t1"); ProfilesRow.mk "u4" (Some "t1");
               ProfilesRow.mk "u5" None]
              [JoinRequestsRow.mk "r1" "u5" "t1" Request.pending] None)
        (mkClient [] [JoinRequest.mk "r1" "u5" "t1" Request.pending] [] None),
      [])).
Proof.
  apply (full_team_turns_the_request_down
           _ "r1" "Player 5" (JoinRequest.mk "r1" "u5" "t1" Request.pending)
           (TeamsRow.mk "t1" "Team 1" "u1" mens 1 (Some 1)) []).
  - reflexivity.
  - vm_compute. distinct_strings.
  - left. reflexivity.
  - reflexivity.
  - vm_compute. lia.
Defined.
